(** * Voice converter: timing reconciliation, gap analysis and the conversion pipeline

    A shallow embedding of the timing core of the voice converter backend:

    - [app/services/sentence_processor.py]: sentence filtering and gap analysis;
    - [app/services/audio_processor.py]: duration matching and concatenation;
    - [app/main.py]: the background conversion task, its progress reporting
      and its clean-up of temporary files;
    - [tests/test_complete_workflow.py]: the complete workflow, which keeps
      the silence gaps of the original.

    Conventions of the embedding.

    - Python floats (seconds, ratios) are rationals [Q]: arithmetic is exact,
      comparisons are the rational ones, and [int(x)] truncates toward zero.
      The program rounds where the embedding does not: the float nearest to
      a product can lie on the other side of a whole number, so that
      [int(x * 1000)] is one off, and a float sum can be off in its last
      digit.
    - A pydub [AudioSegment] is seen at the resolution pydub itself exposes,
      the millisecond: a segment is the list of its milliseconds, [len] is
      the length of that list, [+] is concatenation and [a[:n]] is a slice.
      pydub keeps frames and rounds a length to the nearest millisecond, so
      the length of [a + b] can miss the sum of the two lengths by one.
    - A length computed here can therefore differ from the one the program
      computes by a millisecond for each rounding on the way. A theorem
      that gives the length of a clip or a time the program computes
      states it within a margin that covers these roundings; the exact
      lengths of the embedding appear in its lemmas only.
    - A string is the list of its characters, and a character is a code
      point below 256: [len(s)] counts characters, and a text with other
      characters has no counterpart here.
    - The file system is a finite map from paths to file contents.
    - Exceptions are values; a computation returns [Ok v] or [Raise e]. *)

From Stdlib Require Import QArith Qabs Lqa ZArith Lia List Permutation Sorted.
From Stdlib Require Import Ascii DecimalString DecimalNat.
From Stdlib Require String.
From stdpp Require Import gmap strings.

Open Scope Z_scope.
Open Scope Q_scope.

(** ** Python numbers *)

Module Py.

(** [int(x)] on a float: truncation toward zero. *)
Definition int (x : Q) : Z := Z.quot (Qnum x) (Z.pos (Qden x)).

(** [abs(x)] on a float. *)
Definition abs (x : Q) : Q := Qabs x.

(** Float comparisons, as booleans. *)
Definition ltb (x y : Q) : bool := negb (Qle_bool y x).
Definition leb (x y : Q) : bool := Qle_bool x y.
Definition gtb (x y : Q) : bool := ltb y x.
Definition geb (x y : Q) : bool := leb y x.
Definition eqb (x y : Q) : bool := Qeq_bool x y.

(** [str.isspace] on the code points below 256. *)
Definition isspace (c : ascii) : bool :=
  let n := N_of_ascii c in
  ((9 <=? n) && (n <=? 13) || (28 <=? n) && (n <=? 32)
   || (n =? 133) || (n =? 160))%N.

Fixpoint lstrip (s : string) : string :=
  match s with
  | EmptyString => EmptyString
  | String c s' => if isspace c then lstrip s' else s
  end.

Definition rstrip (s : string) : string := String.rev (lstrip (String.rev s)).

(** [s.strip()] *)
Definition strip (s : string) : string := rstrip (lstrip s).

(** [len(s)] on a string: the number of its characters. *)
Definition len (s : string) : Z := Z.of_nat (String.length s).

(** [str.isalnum] on the code points below 256: the decimal digits, the
    letters of ASCII and of Latin-1, and the superscript digits and
    fractions that [str.isdigit] and [str.isnumeric] accept. *)
Definition isalnum (c : ascii) : bool :=
  let n := N_of_ascii c in
  ((48 <=? n) && (n <=? 57) || (65 <=? n) && (n <=? 90)
   || (97 <=? n) && (n <=? 122)
   || (n =? 170) || (n =? 178) || (n =? 179) || (n =? 181) || (n =? 185)
   || (n =? 186) || (188 <=? n) && (n <=? 190)
   || (192 <=? n) && (n <=? 214) || (216 <=? n) && (n <=? 246)
   || (248 <=? n) && (n <=? 255))%N.

(** [any(c.isalnum() for c in s)] *)
Fixpoint has_alnum (s : string) : bool :=
  match s with
  | EmptyString => false
  | String c s' => isalnum c || has_alnum s'
  end.

(** [s.lower()] on the ASCII letters. *)
Definition lower_char (c : ascii) : ascii :=
  let n := N_of_ascii c in
  if ((65 <=? n) && (n <=? 90))%N then ascii_of_N (n + 32) else c.

Fixpoint lower (s : string) : string :=
  match s with
  | EmptyString => EmptyString
  | String c s' => String (lower_char c) (lower s')
  end.

(** [Path(p).name]: what follows the last separator. *)
Fixpoint name_from (p acc : string) : string :=
  match p with
  | EmptyString => acc
  | String c p' =>
      if Ascii.eqb c "/" then name_from p' EmptyString
      else name_from p' (acc +:+ String c EmptyString)
  end.

Definition path_name (p : string) : string := name_from p EmptyString.

End Py.

(** ** Sentences (app/models/audio.py) *)

Record AudioSentence := {
  text : string;
  start_time : Q;
  end_time : Q;
  confidence : option Q
}.

(** The dictionary form used by the sentence processor:
    [{'text': .., 'start_time': .., 'end_time': ..}]. *)
Record SentenceDict := {
  d_text : string;
  d_start_time : Q;
  d_end_time : Q
}.

Definition to_dict (s : AudioSentence) : SentenceDict :=
  {| d_text := text s; d_start_time := start_time s; d_end_time := end_time s |}.

(** ** pydub audio segments, at millisecond resolution *)

Module AudioSegment.

(** One entry per millisecond of audio; [0] is a silent millisecond. *)
Definition t := list Z.

(** [len(audio)]: the duration in milliseconds. *)
Definition len (audio : t) : Z := Z.of_nat (length audio).

(** [AudioSegment.empty()] *)
Definition empty : t := [].

(** [AudioSegment.silent(duration=ms)]; a negative duration gives no frame. *)
Definition silent (duration : Z) : t := repeat 0%Z (Z.to_nat duration).

(** [a + b] and [a += b]. Lengths add up here; pydub adds frames and
    rounds, so that its [len(a + b)] can be one off the sum. *)
Definition add (a b : t) : t := a ++ b.

(** [audio[:stop]]: the stop is capped by the length, a negative stop
    counts from the end, and the bytes are then cut by a Python slice,
    where a negative stop counts from the end once more. *)
Definition slice_to (audio : t) (stop : Z) : t :=
  let n := len audio in
  let e := Z.min stop n in
  let e := if (e <? 0)%Z then (n - Z.abs e)%Z else e in
  let e := if (e <? 0)%Z then Z.max 0 (n + e) else Z.min e n in
  firstn (Z.to_nat e) audio.

End AudioSegment.

(** ** Exceptions, files, job status and the state of one conversion *)

Record Exn := { exn_class : string; exn_msg : string }.

Definition Exception (msg : string) : Exn :=
  {| exn_class := "Exception"; exn_msg := msg |}.
Definition ValueError (msg : string) : Exn :=
  {| exn_class := "ValueError"; exn_msg := msg |}.
Definition ZeroDivisionError (msg : string) : Exn :=
  {| exn_class := "ZeroDivisionError"; exn_msg := msg |}.
Definition FileNotFoundError (msg : string) : Exn :=
  {| exn_class := "FileNotFoundError"; exn_msg := msg |}.
Definition CouldntDecodeError (msg : string) : Exn :=
  {| exn_class := "CouldntDecodeError"; exn_msg := msg |}.

Inductive Result (A : Type) :=
| Ok (a : A)
| Raise (e : Exn).
Arguments Ok {A} a.
Arguments Raise {A} e.

(** What a path holds: audio that decodes, or bytes that do not. *)
Inductive File :=
| Wav (audio : AudioSegment.t)
| Undecodable.

(** [ProcessingStatus] of app/main.py. *)
Record ProcessingStatus := {
  job_id : string;
  status : string;
  progress : Z;
  message : string;
  download_url : option string;
  error : option string
}.

(** The mutable state one conversion acts on: the files on disk, the entry
    [job_status[job_id]] of the job, the [temp_files] attribute of the
    [ContinuousVoiceConverter] the run creates, and (a ghost field) every
    value that was assigned to [progress], oldest first. *)
Record World := {
  fs : gmap string File;
  job : ProcessingStatus;
  temp_files : list string;
  progress_log : list Z
}.

Definition M (A : Type) : Type := World -> Result A * World.

Global Instance M_ret : MRet M := fun A a w => (Ok a, w).
Global Instance M_bind : MBind M := fun A B f c w =>
  match c w with
  | (Ok a, w') => f a w'
  | (Raise e, w') => (Raise e, w')
  end.

Definition raise {A} (e : Exn) : M A := fun w => (Raise e, w).

(** [try: body except Exception as e: handler e] *)
Definition try_except {A} (body : M A) (handler : Exn -> M A) : M A :=
  fun w =>
    match body w with
    | (Ok a, w') => (Ok a, w')
    | (Raise e, w') => handler e w'
    end.

Definition with_fs (f : gmap string File -> gmap string File) : M unit :=
  fun w => (Ok tt, {| fs := f (fs w); job := job w; temp_files := temp_files w;
                      progress_log := progress_log w |}).

Definition with_job (f : ProcessingStatus -> ProcessingStatus) : M unit :=
  fun w => (Ok tt, {| fs := fs w; job := f (job w); temp_files := temp_files w;
                      progress_log := progress_log w |}).

Definition with_temp_files (f : list string -> list string) : M unit :=
  fun w => (Ok tt, {| fs := fs w; job := job w; temp_files := f (temp_files w);
                      progress_log := progress_log w |}).

Definition get_temp_files : M (list string) := fun w => (Ok (temp_files w), w).

(** [os.path.exists(path)] / [Path(path).exists()] *)
Definition path_exists (path : string) : M bool :=
  fun w => (Ok (bool_decide (is_Some (fs w !! path))), w).

(** [os.remove(path)] / [Path(path).unlink()] on a path that exists. *)
Definition remove (path : string) : M unit := with_fs (delete path).

(** [if os.path.exists(path): os.remove(path)] *)
Definition remove_if_exists (path : string) : M unit :=
  present ← path_exists path;
  if (present : bool) then remove path else (mret tt : M unit).

(** [AudioSegment.from_file(path)] *)
Definition from_file (path : string) : M AudioSegment.t :=
  fun w =>
    match fs w !! path with
    | Some (Wav audio) => (Ok audio, w)
    | Some Undecodable => (Raise (CouldntDecodeError path), w)
    | None => (Raise (FileNotFoundError path), w)
    end.

(** [audio.export(path, format="wav", parameters=["-ar", .., "-ac", ..])]:
    the sample rate and the channel count do not change a duration in
    milliseconds. *)
Definition export (audio : AudioSegment.t) (path : string) : M unit :=
  with_fs (<[path := Wav audio]>).

(** [job_status[job_id].progress = p] *)
Definition set_progress (p : Z) : M unit :=
  fun w =>
    (Ok tt,
     {| fs := fs w;
        job := {| job_id := job_id (job w); status := status (job w);
                  progress := p; message := message (job w);
                  download_url := download_url (job w); error := error (job w) |};
        temp_files := temp_files w;
        progress_log := progress_log w ++ [p] |}).

Definition set_status (s : string) : M unit :=
  with_job (fun j => {| job_id := job_id j; status := s; progress := progress j;
                        message := message j; download_url := download_url j;
                        error := error j |}).

Definition set_message (m : string) : M unit :=
  with_job (fun j => {| job_id := job_id j; status := status j; progress := progress j;
                        message := m; download_url := download_url j;
                        error := error j |}).

Definition set_download_url (u : string) : M unit :=
  with_job (fun j => {| job_id := job_id j; status := status j; progress := progress j;
                        message := message j; download_url := Some u;
                        error := error j |}).

Definition set_error (e : string) : M unit :=
  with_job (fun j => {| job_id := job_id j; status := status j; progress := progress j;
                        message := message j; download_url := download_url j;
                        error := Some e |}).

(** [str(n)] for a natural number, as f-strings print it. *)
Definition str_nat (n : nat) : string := NilZero.string_of_uint (Nat.to_uint n).

(** [str(Path(dir) / name)] *)
Definition path_join (dir name : string) : string := dir +:+ "/" +:+ name.

(** [x / y] on floats. *)
Definition py_div (x y : Q) : M Q :=
  if Py.eqb y 0 then raise (ZeroDivisionError "float division by zero")
  else mret (x / y).

(** ** External collaborators and settings

    Everything the backend calls but does not define: the settings read
    from the environment, pydub's [speedup] effect, the ElevenLabs and
    Gladia web services, [uuid.uuid4] and the same-length converter of the
    test-suite, which works on files only. *)
Record Env := {
  OUTPUT_DIR : string;
  UPLOAD_DIR : string;
  ELEVENLABS_VOICE_ID : string;
  (** [audio.speedup(playback_speed=s)] *)
  speedup : AudioSegment.t -> Q -> Result AudioSegment.t;
  (** the text-to-speech request: text, voice id, output file name *)
  text_to_speech : string -> string -> string -> Result File;
  (** [gladia_service.transcribe_audio(path).sentences] *)
  transcribe_audio : string -> Result (list AudioSentence);
  (** [uuid.uuid4().hex[:8]] drawn for the i-th sentence *)
  uuid_hex8 : nat -> string;
  (** [SameLengthVoiceConverter().convert_voice_same_length(path)] of the
      test-suite, left abstract: it reads and writes files and does not
      touch the job status *)
  convert_voice_same_length :
    string -> gmap string File -> Result string * gmap string File
}.

(** ** app/services/elevenlabs_service.py *)

Module ElevenLabsService.
Section WithEnv.
Context (env : Env).

Definition generate_speech (text voice_id output_filename : string) : M string :=
  try_except
    (let output_path := path_join (OUTPUT_DIR env) (output_filename +:+ ".wav") in
     match text_to_speech env text voice_id output_filename with
     | Raise e => raise e
     | Ok content =>
         _ ← with_fs (<[output_path := content]>);
         mret output_path
     end)
    (fun e => raise (Exception ("ElevenLabs speech generation failed: " +:+ exn_msg e))).

End WithEnv.
End ElevenLabsService.

(** ** app/services/audio_processor.py *)

Module AudioProcessor.
Section WithEnv.
Context (env : Env).

(** [audio.speedup(playback_speed=1.0/ratio)], the division included. *)
Definition speedup_by_inverse (audio : AudioSegment.t) (ratio : Q)
    : Result AudioSegment.t :=
  if Py.eqb ratio 0 then Raise (ZeroDivisionError "float division by zero")
  else speedup env audio (1 / ratio).

Definition _stretch_audio (audio : AudioSegment.t) (ratio : Q) : AudioSegment.t :=
  match speedup_by_inverse audio ratio with
  | Ok stretched => stretched
  | Raise _ =>
      let target_duration_ms := Py.int (inject_Z (AudioSegment.len audio) * ratio) in
      let padding_ms := (target_duration_ms - AudioSegment.len audio)%Z in
      let silence := AudioSegment.silent padding_ms in
      AudioSegment.add audio silence
  end.

Definition _compress_audio (audio : AudioSegment.t) (ratio : Q) : AudioSegment.t :=
  match speedup_by_inverse audio ratio with
  | Ok compressed => compressed
  | Raise _ =>
      let target_duration_ms := Py.int (inject_Z (AudioSegment.len audio) * ratio) in
      AudioSegment.slice_to audio target_duration_ms
  end.

(** The target in milliseconds is the [int] of an exact product here, of
    a float product in the program, and the padded clip reaches it exactly
    here, within pydub's rounding in the program. *)
Definition _ensure_exact_duration (audio : AudioSegment.t) (target_duration : Q)
    : AudioSegment.t :=
  let target_duration_ms := Py.int (target_duration * 1000) in
  let current_duration_ms := AudioSegment.len audio in
  if (current_duration_ms <? target_duration_ms)%Z then
    let padding_ms := (target_duration_ms - current_duration_ms)%Z in
    let silence := AudioSegment.silent padding_ms in
    AudioSegment.add audio silence
  else if (current_duration_ms >? target_duration_ms)%Z then
    AudioSegment.slice_to audio target_duration_ms
  else audio.

Definition match_timing (cloned_audio_path : string)
    (target_start_time target_end_time : Q) (output_filename : string) : M string :=
  try_except
    (let target_duration := target_end_time - target_start_time in
     cloned_audio ← from_file cloned_audio_path;
     let cloned_duration := inject_Z (AudioSegment.len cloned_audio) / 1000 in
     duration_ratio ← py_div target_duration cloned_duration;
     let output_path := path_join (OUTPUT_DIR env) (output_filename +:+ ".wav") in
     let matched_audio :=
       if Py.ltb (Py.abs (duration_ratio - 1)) 0.05 then cloned_audio
       else if Py.gtb duration_ratio 1 then _stretch_audio cloned_audio duration_ratio
       else _compress_audio cloned_audio duration_ratio in
     let matched_audio := _ensure_exact_duration matched_audio target_duration in
     _ ← export matched_audio output_path;
     mret output_path)
    (fun e => raise (Exception ("Audio timing matching failed: " +:+ exn_msg e))).

(** The loop of [concatenate_audio] over the paths. *)
Fixpoint concatenate_loop (audio_paths : list string) (combined_audio : AudioSegment.t)
    : M AudioSegment.t :=
  match audio_paths with
  | [] => mret combined_audio
  | audio_path :: rest =>
      combined_audio ←
        try_except
          (audio_segment ← from_file audio_path;
           mret (AudioSegment.add combined_audio audio_segment))
          (fun _ =>
             let silence_duration := 1000%Z in
             mret (AudioSegment.add combined_audio
                     (AudioSegment.silent silence_duration)));
      concatenate_loop rest combined_audio
  end.

Definition concatenate_audio (audio_paths : list string) (output_filename : string)
    : M string :=
  try_except
    (match audio_paths with
     | [] => raise (ValueError "No audio files to concatenate")
     | _ =>
         let output_path := path_join (OUTPUT_DIR env) (output_filename +:+ ".wav") in
         combined_audio ← concatenate_loop audio_paths AudioSegment.empty;
         if (AudioSegment.len combined_audio =? 0)%Z
         then raise (Exception "No valid audio segments found")
         else
           _ ← export combined_audio output_path;
           mret output_path
     end)
    (fun e => raise (Exception ("Audio concatenation failed: " +:+ exn_msg e))).

End WithEnv.
End AudioProcessor.

(** ** Gap analysis and filtering (app/services/sentence_processor.py) *)

Module SentenceProcessor.

(** One iteration of the loop of [_filter_empty_spaces]: [true] when the
    sentence is appended to [filtered]. The duration is the exact
    difference here and a float difference in the program, which can
    decide otherwise for a duration within rounding of 0.1 s. *)
Definition keeps (sentence : SentenceDict) : bool :=
  let duration := d_end_time sentence - d_start_time sentence in
  if Py.ltb duration 0.1 then false
  else
    let text := Py.strip (d_text sentence) in
    if (Py.len text <? 2)%Z then false else true.

Fixpoint _filter_empty_spaces_loop
    (sentences filtered : list SentenceDict) : list SentenceDict :=
  match sentences with
  | [] => filtered
  | sentence :: rest =>
      if keeps sentence
      then _filter_empty_spaces_loop rest (filtered ++ [sentence])
      else _filter_empty_spaces_loop rest filtered
  end.

Definition _filter_empty_spaces (sentences : list SentenceDict)
    : list SentenceDict :=
  _filter_empty_spaces_loop sentences [].

(** [_create_continuous_timeline]: every sentence paired with its own
    original duration. *)
Definition _create_continuous_timeline (sentences : list SentenceDict)
    : list (SentenceDict * Q) :=
  List.map (fun sentence => (sentence, d_end_time sentence - d_start_time sentence))
           sentences.

(** A gap dictionary [{'start': .., 'end': .., 'duration': ..}]. *)
Record Gap := {
  gap_start : Q;
  gap_end : Q;
  gap_duration : Q
}.

(** The result dictionary of [analyze_sentence_gaps]. *)
Record Analysis := {
  total_sentences : nat;
  total_duration : Q;
  total_speech_time : Q;
  total_gap_time : Q;
  speech_ratio : Q;
  gaps : list Gap;
  filtered_sentences : nat
}.

(** [sorted(sentences, key=lambda x: x['start_time'])]: a stable sort. *)
Fixpoint insert_sorted (x : SentenceDict) (l : list SentenceDict)
    : list SentenceDict :=
  match l with
  | [] => [x]
  | y :: l' =>
      if Py.ltb (d_start_time y) (d_start_time x)
      then y :: insert_sorted x l'
      else x :: y :: l'
  end.

Definition sorted (l : list SentenceDict) : list SentenceDict :=
  List.fold_right insert_sorted [] l.

(** The [for i, sentence in enumerate(sorted_sentences)] loop; [prev] is
    [sorted_sentences[i-1]] when [i > 0]. *)
Fixpoint gap_loop (prev : option SentenceDict) (l : list SentenceDict)
    (gaps : list Gap) (total_speech_time : Q) : list Gap * Q :=
  match l with
  | [] => (gaps, total_speech_time)
  | sentence :: rest =>
      let speech_duration := d_end_time sentence - d_start_time sentence in
      let total_speech_time := total_speech_time + speech_duration in
      let gaps :=
        match prev with
        | None => gaps
        | Some prev_sentence =>
            let gap_start := d_end_time prev_sentence in
            let gap_end := d_start_time sentence in
            let gap_duration := gap_end - gap_start in
            if Py.gtb gap_duration 0.1
            then gaps ++ [ {| gap_start := gap_start; gap_end := gap_end;
                              gap_duration := gap_duration |} ]
            else gaps
        end in
      gap_loop (Some sentence) rest gaps total_speech_time
  end.

(** [sum(gap['duration'] for gap in gaps)] *)
Definition sum_gap_durations (gaps : list Gap) : Q :=
  List.fold_left (fun acc g => acc + gap_duration g) gaps 0.

Definition analyze_sentence_gaps (sentences : list SentenceDict) : Analysis :=
  let sorted_sentences := sorted sentences in
  let '(gaps, total_speech_time) := gap_loop None sorted_sentences [] 0 in
  let gaps :=
    match sorted_sentences with
    | first :: _ =>
        if Py.gtb (d_start_time first) 0.1
        then {| gap_start := 0; gap_end := d_start_time first;
                gap_duration := d_start_time first |} :: gaps
        else gaps
    | [] => gaps
    end in
  let total_gap_time := sum_gap_durations gaps in
  let total_duration :=
    match List.last (List.map Some sorted_sentences) None with
    | Some s => d_end_time s
    | None => 0
    end in
  {| total_sentences := length sentences;
     total_duration := total_duration;
     total_speech_time := total_speech_time;
     total_gap_time := total_gap_time;
     speech_ratio :=
       if Py.gtb total_duration 0 then total_speech_time / total_duration else 0;
     gaps := gaps;
     filtered_sentences :=
       length (List.filter
                 (fun s => Py.geb (d_end_time s - d_start_time s) 0.1)
                 sentences) |}.

Section WithEnv.
Context (env : Env).

(** [self.temp_dir = Path(settings.OUTPUT_DIR) / "temp"] *)
Definition temp_dir : string := path_join (OUTPUT_DIR env) "temp".

Definition _adjust_audio_length (audio_path : string) (target_duration : Q)
    (output_filename : string) : M string :=
  try_except
    (audio ← from_file audio_path;
     let current_duration := inject_Z (AudioSegment.len audio) / 1000 in
     ratio ← py_div target_duration current_duration;
     let output_path := path_join temp_dir (output_filename +:+ ".wav") in
     adjusted_audio ←
       (if Py.ltb (Py.abs (ratio - 1)) 0.05 then mret audio
        else if Py.gtb ratio 1 then
          match AudioProcessor.speedup_by_inverse env audio ratio with
          | Ok stretched => mret stretched
          | Raise e => raise e
          end
        else
          match AudioProcessor.speedup_by_inverse env audio ratio with
          | Ok compressed => mret compressed
          | Raise e => raise e
          end);
     let target_duration_ms := Py.int (target_duration * 1000) in
     let current_duration_ms := AudioSegment.len adjusted_audio in
     let adjusted_audio :=
       if (current_duration_ms <? target_duration_ms)%Z then
         let padding_ms := (target_duration_ms - current_duration_ms)%Z in
         AudioSegment.add adjusted_audio (AudioSegment.silent padding_ms)
       else if (current_duration_ms >? target_duration_ms)%Z then
         AudioSegment.slice_to adjusted_audio target_duration_ms
       else adjusted_audio in
     _ ← export adjusted_audio output_path;
     mret output_path)
    (fun e => raise (Exception ("Audio length adjustment failed: " +:+ exn_msg e))).

(** [_cleanup_temp_files]: removes the files that exist; a failure is
    only logged. *)
Fixpoint _cleanup_temp_files (temp_files : list string) : M unit :=
  match temp_files with
  | [] => mret tt
  | temp_file :: rest =>
      _ ← remove_if_exists temp_file;
      _cleanup_temp_files rest
  end.

(** The per-sentence loop of [process_sentences_with_timestamps]. *)
Fixpoint process_timeline (timeline : list (SentenceDict * Q)) (i : nat)
    (voice_id : string) (temp_files : list string) : M (list string) :=
  match timeline with
  | [] => mret temp_files
  | (sentence_data, target_duration) :: rest =>
      let temp_filename :=
        "temp_sentence_" +:+ uuid_hex8 env i +:+ "_" +:+ str_nat i in
      cloned_audio_path ←
        ElevenLabsService.generate_speech env (d_text sentence_data) voice_id
          temp_filename;
      adjusted_audio_path ←
        _adjust_audio_length cloned_audio_path target_duration
          ("adjusted_" +:+ temp_filename);
      let temp_files := temp_files ++ [adjusted_audio_path] in
      _ ← remove_if_exists cloned_audio_path;
      process_timeline rest (S i) voice_id temp_files
  end.

Definition process_sentences_with_timestamps (original_audio_path : string)
    (sentences : list SentenceDict) (voice_id output_filename : string) : M string :=
  try_except
    (original_audio ← from_file original_audio_path;
     let filtered_sentences := _filter_empty_spaces sentences in
     let continuous_timeline := _create_continuous_timeline filtered_sentences in
     temp_files ← process_timeline continuous_timeline 0 voice_id [];
     final_output_path ←
       AudioProcessor.concatenate_audio env temp_files output_filename;
     _ ← _cleanup_temp_files temp_files;
     mret final_output_path)
    (fun e => raise (Exception ("Sentence processing failed: " +:+ exn_msg e))).

End WithEnv.
End SentenceProcessor.

(** ** app/main.py *)

Module Main.
Section WithEnv.
Context (env : Env).

(** *** ContinuousVoiceConverter *)

(** [_cleanup_temp_files]: unlinks every tracked file that exists, clears
    the list and returns the number of files deleted. *)
Fixpoint unlink_all (files : list string) (deleted_count : Z) : M Z :=
  match files with
  | [] => mret deleted_count
  | temp_file :: rest =>
      present ← path_exists temp_file;
      if (present : bool)
      then (_ ← remove temp_file; unlink_all rest (deleted_count + 1)%Z)
      else unlink_all rest deleted_count
  end.

Definition _cleanup_temp_files : M Z :=
  files ← get_temp_files;
  deleted_count ← unlink_all files 0%Z;
  _ ← with_temp_files (fun _ => []);
  mret deleted_count.

(** The timeline loop of [_create_continuous_audio_with_spaces] over
    [zip(temp_audio_files, sentences)]. *)
Fixpoint timeline_loop (pairs : list (string * AudioSentence))
    (final_audio : AudioSegment.t) (current_position : Q) : M AudioSegment.t :=
  match pairs with
  | [] => mret final_audio
  | (audio_file, sentence) :: rest =>
      sentence_audio ← from_file audio_file;
      let sentence_duration := inject_Z (AudioSegment.len sentence_audio) / 1000 in
      let gap_duration := start_time sentence - current_position in
      let final_audio :=
        if Py.gtb gap_duration 0 then
          let gap_ms := Py.int (gap_duration * 1000) in
          AudioSegment.add final_audio (AudioSegment.silent gap_ms)
        else final_audio in
      let final_audio := AudioSegment.add final_audio sentence_audio in
      let current_position := start_time sentence + sentence_duration in
      timeline_loop rest final_audio current_position
  end.

Definition _create_continuous_audio_with_spaces (temp_audio_files : list string)
    (sentences : list AudioSentence) (input_path job_id : string) : M string :=
  try_except
    (let output_filename := job_id +:+ "_continuous" in
     let output_path := path_join (OUTPUT_DIR env) (output_filename +:+ ".wav") in
     original_audio ← from_file input_path;
     let original_duration := inject_Z (AudioSegment.len original_audio) / 1000 in
     final_audio ←
       timeline_loop (zip temp_audio_files sentences) AudioSegment.empty 0;
     let final_duration := inject_Z (AudioSegment.len final_audio) / 1000 in
     let final_audio :=
       if Py.ltb final_duration original_duration then
         let remaining_gap := original_duration - final_duration in
         if Py.gtb remaining_gap 0 then
           let gap_ms := Py.int (remaining_gap * 1000) in
           AudioSegment.add final_audio (AudioSegment.silent gap_ms)
         else final_audio
       else final_audio in
     _ ← export final_audio output_path;
     mret output_path)
    (fun e => raise (Exception ("Continuous audio creation failed: " +:+ exn_msg e))).

(** [gladia_service.transcribe_audio(path)] *)
Definition transcribe (path : string) : M (list AudioSentence) :=
  match transcribe_audio env path with
  | Ok sentences => mret sentences
  | Raise e => raise e
  end.

(** The synthesis loop of [convert_voice_continuous_with_spaces]. *)
Fixpoint clone_loop (sentences : list AudioSentence) (i sentence_count : nat)
    (voice_id job_id : string) (temp_audio_files : list string) : M (list string) :=
  match sentences with
  | [] => mret temp_audio_files
  | sentence :: rest =>
      let progress :=
        20 + (inject_Z (Z.of_nat i) / inject_Z (Z.of_nat sentence_count)) * 50 in
      _ ← set_progress (Py.int progress);
      _ ← set_message ("Processing sentence " +:+ str_nat (i + 1) +:+ "/"
                        +:+ str_nat sentence_count +:+ " for continuous workflow");
      temp_cloned_path ←
        ElevenLabsService.generate_speech env (text sentence) voice_id
          (job_id +:+ "_temp_sentence_" +:+ str_nat i);
      _ ← with_temp_files (fun l => l ++ [temp_cloned_path]);
      clone_loop rest (S i) sentence_count voice_id job_id
        (temp_audio_files ++ [temp_cloned_path])
  end.

Definition convert_voice_continuous_with_spaces
    (input_audio_path voice_id job_id : string) : M string :=
  try_except
    (let input_path := input_audio_path in
     present ← path_exists input_path;
     if negb present
     then raise (FileNotFoundError ("Input audio file not found: " +:+ input_audio_path))
     else
       _ ← set_progress 15;
       _ ← set_message "Transcribing audio for continuous processing";
       sentences ← transcribe input_path;
       let sentence_count := length sentences in
       if (sentence_count =? 0)%nat
       then raise (Exception "No sentences found in transcription")
       else
         temp_audio_files ← clone_loop sentences 0 sentence_count voice_id job_id [];
         _ ← set_progress 75;
         _ ← set_message "Creating continuous audio with timestamp synchronization";
         final_audio_path ←
           _create_continuous_audio_with_spaces temp_audio_files sentences
             input_path job_id;
         _ ← set_progress 95;
         _ ← set_message "Cleaning up temporary files";
         deleted_count ← _cleanup_temp_files;
         mret final_audio_path)
    (fun e =>
       _ ← _cleanup_temp_files;
       raise (Exception ("Continuous voice conversion failed: " +:+ exn_msg e))).

(** *** The background task *)

(** [Path(directory).glob(f"{job_id}_temp_*")]: the entries of the
    directory itself whose name starts with the job's temp prefix. *)
Fixpoint has_slash (s : string) : bool :=
  match s with
  | EmptyString => false
  | String c s' => if Ascii.eqb c "/" then true else has_slash s'
  end.

Definition glob_temp_matches (directory job_id path : string) : bool :=
  let pre := path_join directory (job_id +:+ "_temp_") in
  String.prefix pre path
  && negb (has_slash (String.substring (String.length pre)
                        (String.length path - String.length pre) path)).

Definition unlink_globbed (directory job_id output_path : string) : M unit :=
  with_fs (filter (fun kv : string * File =>
                     negb (glob_temp_matches directory job_id kv.1
                           && negb (String.eqb kv.1 output_path)) = true)).

Fixpoint remove_chunks (processed_chunks : list string) : M unit :=
  match processed_chunks with
  | [] => mret tt
  | chunk_path :: rest =>
      _ ← remove_if_exists chunk_path;
      remove_chunks rest
  end.

Definition cleanup_temp_files (job_id input_path : string)
    (processed_chunks : list string) (output_path : string) : M unit :=
  try_except
    (_ ← remove_if_exists input_path;
     _ ← remove_chunks processed_chunks;
     _ ← unlink_globbed (UPLOAD_DIR env) job_id output_path;
     unlink_globbed (OUTPUT_DIR env) job_id output_path)
    (fun _ => mret tt).

(** [flag and flag.lower() == 'true'] *)
Definition is_true (flag : option string) : bool :=
  match flag with
  | Some s => String.eqb (Py.lower s) "true"
  | None => false
  end.

(** The loop of the continuous mode: synthesis only. *)
Fixpoint continuous_loop (sentences : list AudioSentence) (i n : nat)
    (voice_id job_id : string) (processed_chunks : list string) : M (list string) :=
  match sentences with
  | [] => mret processed_chunks
  | sentence :: rest =>
      let progress := 30 + (inject_Z (Z.of_nat i) / inject_Z (Z.of_nat n)) * 50 in
      _ ← set_progress (Py.int progress);
      _ ← set_message ("Processing sentence " +:+ str_nat (i + 1) +:+ "/" +:+ str_nat n);
      cloned_audio_path ←
        ElevenLabsService.generate_speech env (text sentence) voice_id
          (job_id +:+ "_sentence_" +:+ str_nat i);
      continuous_loop rest (S i) n voice_id job_id
        (processed_chunks ++ [cloned_audio_path])
  end.

(** The loop of the original mode: synthesis, then timing matching. *)
Fixpoint original_loop (sentences : list AudioSentence) (i n : nat)
    (voice_id job_id : string) (processed_chunks : list string) : M (list string) :=
  match sentences with
  | [] => mret processed_chunks
  | sentence :: rest =>
      let progress := 30 + (inject_Z (Z.of_nat i) / inject_Z (Z.of_nat n)) * 50 in
      _ ← set_progress (Py.int progress);
      _ ← set_message ("Processing sentence " +:+ str_nat (i + 1) +:+ "/" +:+ str_nat n);
      cloned_audio_path ←
        ElevenLabsService.generate_speech env (text sentence) voice_id
          (job_id +:+ "_sentence_" +:+ str_nat i);
      matched_audio_path ←
        AudioProcessor.match_timing env cloned_audio_path
          (start_time sentence) (end_time sentence)
          (job_id +:+ "_matched_" +:+ str_nat i);
      original_loop rest (S i) n voice_id job_id
        (processed_chunks ++ [matched_audio_path])
  end.

(** The mode-specific part of [process_audio_file]: returns the output
    path and the processed chunks. *)
Definition run_mode (job_id input_path voice_id : string)
    (continuous same_length timestamp_based continuous_with_spaces : option string)
    : M (string * list string) :=
  let continuous_bool := is_true continuous in
  let same_length_bool := is_true same_length in
  let timestamp_based_bool := is_true timestamp_based in
  let continuous_with_spaces_bool := is_true continuous_with_spaces in
  _ ← set_status "processing";
  _ ← set_progress 10;
  _ ← set_message "Starting audio processing";
  if continuous_with_spaces_bool then
    _ ← with_temp_files (fun _ => []);
    output_path ← convert_voice_continuous_with_spaces input_path voice_id job_id;
    mret (output_path, [])
  else
    sentences ← transcribe input_path;
    _ ← set_progress 30;
    _ ← set_message "Speech-to-text completed, starting voice cloning";
    if timestamp_based_bool then
      _ ← set_progress 35;
      _ ← set_message "Analyzing sentence gaps and filtering empty spaces";
      let sentences_dict := List.map to_dict sentences in
      let gap_analysis := SentenceProcessor.analyze_sentence_gaps sentences_dict in
      _ ← set_progress 40;
      _ ← set_message
            ("Processing "
             +:+ str_nat (SentenceProcessor.filtered_sentences gap_analysis)
             +:+ " valid sentences with timestamp handling");
      output_path ←
        SentenceProcessor.process_sentences_with_timestamps env input_path
          sentences_dict voice_id (job_id +:+ "_timestamp_based");
      mret (output_path, [])
    else if same_length_bool then
      output_path ←
        (fun w =>
           let '(r, files) := convert_voice_same_length env input_path (fs w) in
           (r, {| fs := files; job := job w; temp_files := temp_files w;
                  progress_log := progress_log w |}));
      mret (output_path, [])
    else if continuous_bool then
      processed_chunks ←
        continuous_loop sentences 0 (length sentences) voice_id job_id [];
      _ ← set_progress 80;
      _ ← set_message "Concatenating audio chunks";
      output_path ←
        AudioProcessor.concatenate_audio env processed_chunks
          (job_id +:+ "_continuous");
      mret (output_path, processed_chunks)
    else
      processed_chunks ←
        original_loop sentences 0 (length sentences) voice_id job_id [];
      _ ← set_progress 80;
      _ ← set_message "Concatenating audio chunks";
      output_path ←
        AudioProcessor.concatenate_audio env processed_chunks (job_id +:+ "_final");
      mret (output_path, processed_chunks).

Definition process_audio_file (job_id input_path voice_id : string)
    (continuous same_length timestamp_based continuous_with_spaces : option string)
    : M unit :=
  try_except
    ('(output_path, processed_chunks) ←
       run_mode job_id input_path voice_id
         continuous same_length timestamp_based continuous_with_spaces;
     _ ← set_progress 90;
     _ ← set_message "Finalizing output file";
     let download_url := "file://" +:+ output_path in
     _ ← set_status "completed";
     _ ← set_progress 100;
     _ ← set_message "Processing completed successfully";
     _ ← set_download_url download_url;
     cleanup_temp_files job_id input_path processed_chunks output_path)
    (fun e =>
       _ ← set_status "failed";
       _ ← set_error (exn_msg e);
       set_message ("Processing failed: " +:+ exn_msg e)).

(** The world [upload_audio] leaves behind when it schedules the task:
    the upload saved at [input_path] and a queued job at progress 0. *)
Definition uploaded (job_id input_path : string) (content : File)
    (files : gmap string File) : World :=
  {| fs := <[input_path := content]> files;
     job := {| job_id := job_id; status := "queued"; progress := 0;
               message := "File uploaded successfully, processing queued";
               download_url := None; error := None |};
     temp_files := [];
     progress_log := [0%Z] |}.

End WithEnv.
End Main.

(** ** tests/test_complete_workflow.py

    The complete workflow of the test-suite, which [test_all_modes.py]
    runs as the original mode: the same synthesis and timing matching as
    the default branch of the background task, followed by a timeline with
    silence gaps. *)

Module CompleteVoiceConverter.
Section WithEnv.
Context (env : Env).

(** The timeline loop of [_create_final_audio_with_gaps] over
    [zip(processed_segments, sentences)]; a segment is kept as its
    ['audio_path']. *)
Fixpoint gaps_loop (pairs : list (string * AudioSentence))
    (final_audio : AudioSegment.t) (current_time : Q)
    : M (AudioSegment.t * Q) :=
  match pairs with
  | [] => mret (final_audio, current_time)
  | (audio_path, sentence) :: rest =>
      let gap_duration := start_time sentence - current_time in
      let final_audio :=
        if Py.gtb gap_duration 0.01 then
          let silence_ms := Py.int (gap_duration * 1000) in
          AudioSegment.add final_audio (AudioSegment.silent silence_ms)
        else final_audio in
      sentence_audio ← from_file audio_path;
      let final_audio := AudioSegment.add final_audio sentence_audio in
      let current_time := end_time sentence in
      gaps_loop rest final_audio current_time
  end.

Definition _create_final_audio_with_gaps (processed_segments : list string)
    (sentences : list AudioSentence) (input_path : string) : M string :=
  try_except
    (let output_path := path_join (OUTPUT_DIR env) (Py.path_name input_path) in
     original_audio ← from_file input_path;
     let original_duration := inject_Z (AudioSegment.len original_audio) / 1000 in
     '(final_audio, current_time) ←
       gaps_loop (zip processed_segments sentences) AudioSegment.empty 0;
     let final_gap := original_duration - current_time in
     let final_audio :=
       if Py.gtb final_gap 0.01 then
         let silence_ms := Py.int (final_gap * 1000) in
         AudioSegment.add final_audio (AudioSegment.silent silence_ms)
       else final_audio in
     _ ← export final_audio output_path;
     mret output_path)
    (fun e => raise (Exception ("Final audio creation failed: " +:+ exn_msg e))).

(** The per-sentence loop of [convert_voice]. *)
Fixpoint process_loop (sentences : list AudioSentence) (i : nat)
    (processed_segments : list string) : M (list string) :=
  match sentences with
  | [] => mret processed_segments
  | sentence :: rest =>
      temp_cloned_path ←
        ElevenLabsService.generate_speech env (text sentence)
          (ELEVENLABS_VOICE_ID env) ("temp_sentence_" +:+ str_nat i);
      _ ← with_temp_files (fun l => l ++ [temp_cloned_path]);
      temp_matched_path ←
        AudioProcessor.match_timing env temp_cloned_path
          (start_time sentence) (end_time sentence)
          ("temp_matched_" +:+ str_nat i);
      _ ← with_temp_files (fun l => l ++ [temp_matched_path]);
      process_loop rest (S i) (processed_segments ++ [temp_matched_path])
  end.

Definition convert_voice (input_audio_path : string) : M string :=
  try_except
    (let input_path := input_audio_path in
     present ← path_exists input_path;
     if negb present
     then raise (FileNotFoundError ("Input audio file not found: " +:+ input_audio_path))
     else
       sentences ← Main.transcribe env input_path;
       let sentence_count := length sentences in
       if (sentence_count =? 0)%nat
       then raise (Exception "No sentences found in transcription")
       else
         processed_segments ← process_loop sentences 0 [];
         final_audio_path ←
           _create_final_audio_with_gaps processed_segments sentences input_path;
         deleted_count ← Main._cleanup_temp_files;
         mret final_audio_path)
    (fun e =>
       _ ← Main._cleanup_temp_files;
       raise (Exception ("Voice conversion failed: " +:+ exn_msg e))).

End WithEnv.
End CompleteVoiceConverter.

(** ** The body of the /analyze-gaps endpoint (app/main.py)

    What [analyze_audio_gaps] does once the upload is saved at
    [temp_path]: transcription, gap analysis, the details of every
    sentence, and the removal of the saved upload on both outcomes. Of
    the recommendations only [use_timestamp_based] is kept; the other two
    are the totals of the analysis formatted as text. *)

Module AnalyzeGaps.
Section WithEnv.
Context (env : Env).

(** An entry of [sentence_details]. *)
Record SentenceDetail := {
  index : nat;
  detail_text : string;
  detail_start_time : Q;
  detail_end_time : Q;
  duration : Q;
  is_valid : bool
}.

(** What the endpoint returns. *)
Record Report := {
  analysis : SentenceProcessor.Analysis;
  sentences : list SentenceDetail;
  use_timestamp_based : bool
}.

(** [text[:100] + '...' if len(text) > 100 else text] *)
Definition preview (text : string) : string :=
  if (Py.len text >? 100)%Z then String.substring 0 100 text +:+ "..." else text.

(** The loop over [enumerate(sentences_dict)]. *)
Fixpoint sentence_details_loop (sentences_dict : list SentenceDict) (i : nat)
    (sentence_details : list SentenceDetail) : list SentenceDetail :=
  match sentences_dict with
  | [] => sentence_details
  | sentence :: rest =>
      let duration := d_end_time sentence - d_start_time sentence in
      sentence_details_loop rest (S i)
        (sentence_details
         ++ [ {| index := (i + 1)%nat;
                 detail_text := preview (d_text sentence);
                 detail_start_time := d_start_time sentence;
                 detail_end_time := d_end_time sentence;
                 duration := duration;
                 is_valid :=
                   Py.geb duration 0.1
                   && (Py.len (Py.strip (d_text sentence)) >=? 2)%Z |} ])
  end.

Definition analyze_audio_gaps_body (temp_path : string) : M Report :=
  try_except
    (transcription_sentences ← Main.transcribe env temp_path;
     let sentences_dict := List.map to_dict transcription_sentences in
     let gap_analysis := SentenceProcessor.analyze_sentence_gaps sentences_dict in
     let sentence_details := sentence_details_loop sentences_dict 0 [] in
     _ ← remove_if_exists temp_path;
     mret {| analysis := gap_analysis;
             sentences := sentence_details;
             use_timestamp_based :=
               Py.gtb (SentenceProcessor.total_gap_time gap_analysis) 1 |})
    (fun e =>
       _ ← remove_if_exists temp_path;
       raise e).

End WithEnv.
End AnalyzeGaps.

(** ** Parsing a transcription (app/services/gladia_service.py)

    The response of the Gladia API, for the keys the parser reads. A key
    that may be absent is an [option]; a present key holds a value of the
    type the parser expects. *)

Module GladiaService.

Record SentenceData := {
  sd_sentence : option string;
  sd_start : option Q;
  sd_end : option Q;
  sd_confidence : option Q
}.

Record WordData := {
  wd_word : option string;
  wd_start : option Q;
  wd_end : option Q
}.

Record Utterance := {
  u_sentences : option (list SentenceData);
  u_words : option (list WordData)
}.

Record Transcription := {
  full_transcript : option string;
  utterances : option (list Utterance)
}.

Record Metadata := {
  md_language : option string;
  md_duration : option Q
}.

Record ResultBody := {
  transcription : option Transcription;
  metadata : option Metadata
}.

Record Response := { result : option ResultBody }.

(** [TranscriptionResult] of app/models/audio.py. *)
Record TranscriptionResult := {
  full_text : string;
  tr_sentences : list AudioSentence;
  tr_language : option string;
  tr_duration : option Q
}.

(** [bool(s)] on a string. *)
Definition nonempty (s : string) : bool :=
  match s with
  | EmptyString => false
  | String _ _ => true
  end.

(** [word.endswith(('.', '!', '?'))] *)
Fixpoint endswith_punctuation (word : string) : bool :=
  match word with
  | EmptyString => false
  | String c EmptyString =>
      Ascii.eqb c "." || Ascii.eqb c "!" || Ascii.eqb c "?"
  | String _ rest => endswith_punctuation rest
  end.

(** The loop over the words of one utterance; it returns the sentences
    and the words still pending with their start. *)
Fixpoint words_loop (words : list WordData) (current_sentence : list string)
    (sentence_start : option Q) (sentences : list AudioSentence)
    : list AudioSentence * list string * option Q :=
  match words with
  | [] => (sentences, current_sentence, sentence_start)
  | word_data :: rest =>
      let word := Py.strip (default "" (wd_word word_data)) in
      let start_time := default 0 (wd_start word_data) in
      let end_time := default 0 (wd_end word_data) in
      let sentence_start :=
        match sentence_start with
        | None => Some start_time
        | Some _ => sentence_start
        end in
      let current_sentence := current_sentence ++ [word] in
      if endswith_punctuation word || (10 <=? length current_sentence)%nat then
        let sentence_text := Py.strip (String.concat " " current_sentence) in
        let sentences :=
          if nonempty sentence_text
          then sentences ++ [ {| text := sentence_text;
                                 start_time := default 0 sentence_start;
                                 end_time := end_time;
                                 confidence := None |} ]
          else sentences in
        words_loop rest [] None sentences
      else words_loop rest current_sentence sentence_start sentences
  end.

(** [_extract_sentences_from_words]: the loop over the utterances. *)
Fixpoint _extract_sentences_from_words_loop (utterances : list Utterance)
    (sentences : list AudioSentence) : list AudioSentence :=
  match utterances with
  | [] => sentences
  | utterance :: rest =>
      let words := default [] (u_words utterance) in
      match words with
      | [] => _extract_sentences_from_words_loop rest sentences
      | _ :: _ =>
          let '(sentences, current_sentence, sentence_start) :=
            words_loop words [] None sentences in
          let sentences :=
            match current_sentence with
            | [] => sentences
            | _ :: _ =>
                let sentence_text := Py.strip (String.concat " " current_sentence) in
                if nonempty sentence_text
                then sentences
                     ++ [ {| text := sentence_text;
                             start_time := default 0 sentence_start;
                             end_time :=
                               default 0
                                 (wd_end (List.last words
                                            {| wd_word := None; wd_start := None;
                                               wd_end := None |}));
                             confidence := None |} ]
                else sentences
            end in
          _extract_sentences_from_words_loop rest sentences
      end
  end.

Definition _extract_sentences_from_words (utterances : list Utterance)
    : list AudioSentence :=
  _extract_sentences_from_words_loop utterances [].

(** The two nested loops of [_parse_transcription_result] over the
    utterances and their sentences. *)
Fixpoint sentences_loop (utterance_sentences : list SentenceData)
    (sentences : list AudioSentence) : list AudioSentence :=
  match utterance_sentences with
  | [] => sentences
  | sentence_data :: rest =>
      let sentence :=
        {| text := Py.strip (default "" (sd_sentence sentence_data));
           start_time := default 0 (sd_start sentence_data);
           end_time := default 0 (sd_end sentence_data);
           confidence := sd_confidence sentence_data |} in
      if nonempty (text sentence)
      then sentences_loop rest (sentences ++ [sentence])
      else sentences_loop rest sentences
  end.

Fixpoint utterances_loop (utterances : list Utterance)
    (sentences : list AudioSentence) : list AudioSentence :=
  match utterances with
  | [] => sentences
  | utterance :: rest =>
      let utterance_sentences := default [] (u_sentences utterance) in
      utterances_loop rest (sentences_loop utterance_sentences sentences)
  end.

Definition _parse_transcription_result (response : Response) : TranscriptionResult :=
  let transcription_dict :=
    default {| full_transcript := None; utterances := None |}
      (transcription
         (default {| transcription := None; metadata := None |} (result response))) in
  let full_text := default "" (full_transcript transcription_dict) in
  let utterances := default [] (utterances transcription_dict) in
  let sentences := utterances_loop utterances [] in
  let sentences :=
    match sentences, utterances with
    | [], _ :: _ => _extract_sentences_from_words utterances
    | _, _ => sentences
    end in
  let metadata_dict :=
    default {| md_language := None; md_duration := None |}
      (metadata
         (default {| transcription := None; metadata := None |} (result response))) in
  {| full_text := full_text;
     tr_sentences := sentences;
     tr_language := md_language metadata_dict;
     tr_duration := md_duration metadata_dict |}.

End GladiaService.

(** ** Voice settings (app/services/elevenlabs_service.py) *)

Module VoiceSettings.

(** [max(a, b)] and [min(a, b)] on floats: the first argument wins a tie. *)
Definition py_max (a b : Q) : Q := if Py.gtb b a then b else a.
Definition py_min (a b : Q) : Q := if Py.ltb b a then b else a.

(** The settings sent to the API. *)
Record t := {
  stability : Q;
  similarity_boost : Q;
  style : Q;
  use_speaker_boost : bool
}.

(** The dictionary a caller passes: any key may be absent. *)
Record Given := {
  given_stability : option Q;
  given_similarity_boost : option Q;
  given_style : option Q;
  given_use_speaker_boost : option bool
}.

Definition default_voice_settings : t :=
  {| stability := 0.5; similarity_boost := 0.8; style := 0;
     use_speaker_boost := true |}.

Definition validate_voice_settings (voice_settings : option Given) : t :=
  let validated := default_voice_settings in
  match voice_settings with
  | None => validated
  | Some voice_settings =>
      let validated :=
        match given_stability voice_settings with
        | Some x =>
            {| stability := py_max 0 (py_min 1 x);
               similarity_boost := similarity_boost validated;
               style := style validated;
               use_speaker_boost := use_speaker_boost validated |}
        | None => validated
        end in
      let validated :=
        match given_similarity_boost voice_settings with
        | Some x =>
            {| stability := stability validated;
               similarity_boost := py_max 0 (py_min 1 x);
               style := style validated;
               use_speaker_boost := use_speaker_boost validated |}
        | None => validated
        end in
      let validated :=
        match given_style voice_settings with
        | Some x =>
            {| stability := stability validated;
               similarity_boost := similarity_boost validated;
               style := py_max 0 (py_min 1 x);
               use_speaker_boost := use_speaker_boost validated |}
        | None => validated
        end in
      match given_use_speaker_boost voice_settings with
      | Some b =>
          {| stability := stability validated;
             similarity_boost := similarity_boost validated;
             style := style validated;
             use_speaker_boost := b |}
      | None => validated
      end
  end.

End VoiceSettings.

(** ** Required settings (app/utils/config.py) *)

Module Config.

(** The settings [validate_settings] reads. *)
Record Settings := {
  GLADIA_API_KEY : string;
  ELEVENLABS_API_KEY : string;
  ELEVENLABS_VOICE_ID : string
}.

Definition required_fields : list (string * (Settings -> string)) :=
  [ ("GLADIA_API_KEY", GLADIA_API_KEY);
    ("ELEVENLABS_API_KEY", ELEVENLABS_API_KEY);
    ("ELEVENLABS_VOICE_ID", ELEVENLABS_VOICE_ID) ].

(** The loop over [required_fields]. *)
Fixpoint missing_loop (settings : Settings)
    (fields : list (string * (Settings -> string))) (missing_fields : list string)
    : list string :=
  match fields with
  | [] => missing_fields
  | (field, getattr) :: rest =>
      if GladiaService.nonempty (getattr settings)
      then missing_loop settings rest missing_fields
      else missing_loop settings rest (missing_fields ++ [field])
  end.

Definition validate_settings (settings : Settings) : Result bool :=
  let missing_fields := missing_loop settings required_fields [] in
  match missing_fields with
  | _ :: _ =>
      Raise (ValueError ("Missing required environment variables: "
                         +:+ String.concat ", " missing_fields))
  | [] => Ok true
  end.

End Config.

(** ** tests/test_same_length_workflow.py

    The timeline of the same-length workflow, which the background task
    runs in the same-length mode: the sentences are laid end to end and
    the time the original has left is shared among them in proportion to
    their duration. *)

Module SameLengthVoiceConverter.
Section WithEnv.
Context (env : Env).

(** [s.rfind(c)], counting from [i], with [found] the last index seen. *)
Fixpoint rfind_from (c : ascii) (s : string) (i : nat) (found : option nat)
    : option nat :=
  match s with
  | EmptyString => found
  | String x s' => rfind_from c s' (S i) (if Ascii.eqb x c then Some i else found)
  end.

(** [Path(p).stem]: the name without its last suffix; a dot at either
    end of the name starts no suffix. *)
Definition path_stem (p : string) : string :=
  let name := Py.path_name p in
  match rfind_from "." name 0 None with
  | Some i =>
      if (0 <? i)%nat && (i <? String.length name - 1)%nat
      then String.substring 0 i name
      else name
  | None => name
  end.

(** [a / b] on integers. *)
Definition py_truediv (a b : Z) : M Q :=
  if (b =? 0)%Z then raise (ZeroDivisionError "division by zero")
  else mret (inject_Z a / inject_Z b).

(** [sum(sentence_durations)] *)
Definition py_sum (l : list Q) : Q := List.fold_left Qplus l 0.

(** [[duration / total_sentence_duration for duration in sentence_durations]] *)
Fixpoint sentence_weights (sentence_durations : list Q) (total_sentence_duration : Q)
    : M (list Q) :=
  match sentence_durations with
  | [] => mret []
  | duration :: rest =>
      weight ← py_div duration total_sentence_duration;
      weights ← sentence_weights rest total_sentence_duration;
      mret (weight :: weights)
  end.

(** [audio.speedup(playback_speed=1.0/factor)] *)
Definition speedup_by (audio : AudioSegment.t) (factor : Q) : M AudioSegment.t :=
  playback_speed ← py_div 1 factor;
  match speedup env audio playback_speed with
  | Ok adjusted => mret adjusted
  | Raise e => raise e
  end.

(** The body of the timeline loop once the clip is loaded. *)
Definition adjust_sentence (sentence_audio : AudioSegment.t)
    (original_duration extra_time_for_sentence : Q) : M AudioSegment.t :=
  let target_sentence_duration := original_duration + extra_time_for_sentence in
  let target_duration_ms := Py.int (target_sentence_duration * 1000) in
  let current_duration_ms := AudioSegment.len sentence_audio in
  if (target_duration_ms >? current_duration_ms)%Z then
    stretch_factor ← py_truediv target_duration_ms current_duration_ms;
    if Py.leb stretch_factor 2 then speedup_by sentence_audio stretch_factor
    else
      let padding_ms := (target_duration_ms - current_duration_ms)%Z in
      let end_padding_ms := (padding_ms / 2)%Z in
      let remaining_padding_ms := (padding_ms - end_padding_ms)%Z in
      let adjusted_audio :=
        AudioSegment.add sentence_audio (AudioSegment.silent end_padding_ms) in
      mret (if (remaining_padding_ms >? 100)%Z
            then AudioSegment.add adjusted_audio
                   (AudioSegment.silent remaining_padding_ms)
            else adjusted_audio)
  else if (target_duration_ms <? current_duration_ms)%Z then
    compress_factor ← py_truediv target_duration_ms current_duration_ms;
    if Py.geb compress_factor 0.5 then speedup_by sentence_audio compress_factor
    else mret (AudioSegment.slice_to sentence_audio target_duration_ms)
  else mret sentence_audio.

(** The loop over [zip(temp_audio_files, sentence_durations,
    extra_time_per_sentence)]. *)
Fixpoint same_length_loop (temp_audio_files : list string)
    (sentence_durations extra_time_per_sentence : list Q)
    (final_audio : AudioSegment.t) : M AudioSegment.t :=
  match temp_audio_files, sentence_durations, extra_time_per_sentence with
  | audio_file :: files, original_duration :: durations,
    extra_time_for_sentence :: extras =>
      sentence_audio ← from_file audio_file;
      adjusted_audio ←
        adjust_sentence sentence_audio original_duration extra_time_for_sentence;
      same_length_loop files durations extras
        (AudioSegment.add final_audio adjusted_audio)
  | _, _, _ => mret final_audio
  end.

Definition _create_same_length_audio (temp_audio_files : list string)
    (sentence_durations : list Q) (target_duration : Q) (input_path : string)
    : M string :=
  try_except
    (let output_filename := path_stem input_path +:+ "_same_length" in
     let output_path := path_join (OUTPUT_DIR env) (output_filename +:+ ".wav") in
     let total_sentence_duration := py_sum sentence_durations in
     let extra_time := target_duration - total_sentence_duration in
     sentence_weights ← sentence_weights sentence_durations total_sentence_duration;
     let extra_time_per_sentence :=
       List.map (fun weight => extra_time * weight) sentence_weights in
     final_audio ←
       same_length_loop temp_audio_files sentence_durations extra_time_per_sentence
         AudioSegment.empty;
     let final_duration_ms := AudioSegment.len final_audio in
     let target_duration_ms := Py.int (target_duration * 1000) in
     let final_audio :=
       if (Z.abs (final_duration_ms - target_duration_ms) >? 100)%Z then
         if (final_duration_ms <? target_duration_ms)%Z then
           let padding_ms := (target_duration_ms - final_duration_ms)%Z in
           AudioSegment.add final_audio (AudioSegment.silent padding_ms)
         else if (final_duration_ms >? target_duration_ms)%Z then
           AudioSegment.slice_to final_audio target_duration_ms
         else final_audio
       else final_audio in
     _ ← export final_audio output_path;
     mret output_path)
    (fun e => raise (Exception ("Same-length audio creation failed: " +:+ exn_msg e))).

End WithEnv.
End SameLengthVoiceConverter.

(** ** backend/test_continuous_no_gaps.py

    The continuous converter of the repository's own workflow script: it
    filters the transcribed sentences before it synthesises them. *)

Module ContinuousNoGaps.

(** One iteration of the loop of [_filter_valid_sentences]: [true] when
    the sentence is appended to [valid_sentences]. *)
Definition valid (sentence : AudioSentence) : bool :=
  let duration := end_time sentence - start_time sentence in
  if Py.ltb duration 0.1 then false
  else
    let text := Py.strip (text sentence) in
    if (Py.len text <? 2)%Z then false
    else if negb (Py.has_alnum text) then false
    else true.

Fixpoint _filter_valid_sentences_loop
    (sentences valid_sentences : list AudioSentence) : list AudioSentence :=
  match sentences with
  | [] => valid_sentences
  | sentence :: rest =>
      if valid sentence
      then _filter_valid_sentences_loop rest (valid_sentences ++ [sentence])
      else _filter_valid_sentences_loop rest valid_sentences
  end.

Definition _filter_valid_sentences (sentences : list AudioSentence)
    : list AudioSentence :=
  _filter_valid_sentences_loop sentences [].

End ContinuousNoGaps.

(** * Vocabulary of the statements *)

(** The sum of [(end - start)] over a sentence list, in list order. *)
Fixpoint sum_speech (l : list SentenceDict) : Q :=
  match l with
  | [] => 0
  | s :: rest => (d_end_time s - d_start_time s) + sum_speech rest
  end.

(** The last element of a list, if any. *)
Definition last_sentence (l : list SentenceDict) : option SentenceDict :=
  List.last (List.map Some l) None.

(** The last sentence of a list in start order, as a stable sort by start
    time leaves it: no sentence starts later, and of the sentences that
    start when it does it is the last one in the list. *)
Definition last_in_start_order (l : list SentenceDict) (s : SentenceDict) : Prop :=
  exists before after,
    l = before ++ s :: after
    /\ Forall (fun x => d_start_time x <= d_start_time s) before
    /\ Forall (fun x => d_start_time x < d_start_time s) after.

(** Two gap dictionaries with equal (rational) entries. *)
Definition gap_equiv (g g' : SentenceProcessor.Gap) : Prop :=
  SentenceProcessor.gap_start g == SentenceProcessor.gap_start g'
  /\ SentenceProcessor.gap_end g == SentenceProcessor.gap_end g'
  /\ SentenceProcessor.gap_duration g == SentenceProcessor.gap_duration g'.

(** The validity rule in the words of the specification: a duration of
    at least 0.1 s, a trimmed text of at least 2 characters, and at least
    one alphanumeric character in the text. *)
Definition spec_valid (s : SentenceDict) : bool :=
  Py.geb (d_end_time s - d_start_time s) 0.1
  && (2 <=? Py.len (Py.strip (d_text s)))%Z
  && Py.has_alnum (d_text s).

(** The sentences of the end-to-end scenario. *)
Definition demo_sentences : list AudioSentence :=
  [ {| text := "Hello,"; start_time := 0.33; end_time := 0.47; confidence := None |};
    {| text := "so today"; start_time := 1.15; end_time := 2.23; confidence := None |};
    {| text := "I will demonstrate"; start_time := 2.57; end_time := 7.52;
       confidence := None |} ].

(** A long sentence of punctuation only, and a long one-letter sentence. *)
Definition dots_sentence : SentenceDict :=
  {| d_text := ".."; d_start_time := 0; d_end_time := 1 |}.
Definition letter_sentence : SentenceDict :=
  {| d_text := "a"; d_start_time := 0; d_end_time := 1 |}.

(** The first of them as the sentence object of the transcription. *)
Definition dots_object : AudioSentence :=
  {| text := ".."; start_time := 0; end_time := 1; confidence := None |}.

(** Four sentences that try the validity rule one test at a time:
    punctuation only, one letter, too short, and a valid one. *)
Definition valid_object : AudioSentence :=
  {| text := "Hello world"; start_time := 3; end_time := 4; confidence := None |}.
Definition probe_sentences : list AudioSentence :=
  [ dots_object;
    {| text := "a"; start_time := 1; end_time := 2; confidence := None |};
    {| text := "Hello"; start_time := 2; end_time := 2.05; confidence := None |};
    valid_object ].

(** The length of one sample frame at the default [AUDIO_SAMPLE_RATE] of
    app/utils/config.py, in seconds. *)
Definition AUDIO_SAMPLE_RATE : Z := 22050.
Definition sample_frame : Q := 1 / inject_Z AUDIO_SAMPLE_RATE.

(** A test double of the collaborators: the default directories, a
    [speedup] that always gives up, a voice that speaks 100 ms per
    character (every millisecond carrying the number of characters), a
    transcription that returns the given sentences. *)
Definition demo_speech (t : string) : AudioSegment.t :=
  repeat (Py.len t) (100 * String.length t).

Definition demo_env (sentences : list AudioSentence) : Env :=
  {| OUTPUT_DIR := "outputs";
     UPLOAD_DIR := "uploads";
     ELEVENLABS_VOICE_ID := "voice";
     speedup := fun _ _ => Raise (Exception "Could not speed up AudioSegment");
     text_to_speech := fun t _ _ => Ok (Wav (demo_speech t));
     transcribe_audio := fun _ => Ok sentences;
     uuid_hex8 := fun _ => "deadbeef";
     convert_voice_same_length := fun _ files => (Ok "outputs/same_length.wav", files) |}.

(** The same, with a voice service that fails on the file name [bad]. *)
Definition failing_env (sentences : list AudioSentence) (bad : string) : Env :=
  {| OUTPUT_DIR := "outputs";
     UPLOAD_DIR := "uploads";
     ELEVENLABS_VOICE_ID := "voice";
     speedup := fun _ _ => Raise (Exception "Could not speed up AudioSegment");
     text_to_speech := fun t _ name =>
       if String.eqb name bad then Raise (Exception "ElevenLabs API error: 500")
       else Ok (Wav (demo_speech t));
     transcribe_audio := fun _ => Ok sentences;
     uuid_hex8 := fun _ => "deadbeef";
     convert_voice_same_length := fun _ files => (Ok "outputs/same_length.wav", files) |}.

(** A world with the given files and a queued job. *)
Definition world_of (files : gmap string File) : World :=
  {| fs := files;
     job := {| job_id := "job"; status := "queued"; progress := 0;
               message := "File uploaded successfully, processing queued";
               download_url := None; error := None |};
     temp_files := [];
     progress_log := [0%Z] |}.

(** The world with one more file written. *)
Definition put_file (w : World) (path : string) (content : File) : World :=
  {| fs := <[path := content]> (fs w); job := job w;
     temp_files := temp_files w; progress_log := progress_log w |}.

(** What the concatenation takes for a path: the audio of the file, or one
    second of silence when the file is missing or does not decode. *)
Definition loaded_or_silence (files : gmap string File) (path : string)
    : AudioSegment.t :=
  match files !! path with
  | Some (Wav audio) => audio
  | _ => AudioSegment.silent 1000
  end.

(** The clip [match_timing] writes for a clip of positive duration. *)
Definition timing_matched (env : Env) (cloned_audio : AudioSegment.t) (s e : Q)
    : AudioSegment.t :=
  let duration_ratio := (e - s) / (inject_Z (AudioSegment.len cloned_audio) / 1000) in
  AudioProcessor._ensure_exact_duration
    (if Py.ltb (Py.abs (duration_ratio - 1)) 0.05 then cloned_audio
     else if Py.gtb duration_ratio 1
          then AudioProcessor._stretch_audio env cloned_audio duration_ratio
          else AudioProcessor._compress_audio env cloned_audio duration_ratio)
    (e - s).

(** The slot of a sentence in whole milliseconds, and the sum of the slots. *)
Definition slot_ms (s : AudioSentence) : Z :=
  Py.int ((end_time s - start_time s) * 1000).

Fixpoint slots_ms (l : list AudioSentence) : Z :=
  match l with
  | [] => 0
  | s :: rest => slot_ms s + slots_ms rest
  end.

(** The paths the pipeline gives to its files. *)
Definition sentence_path (env : Env) (job_id : string) (i : nat) : string :=
  path_join (OUTPUT_DIR env) ((job_id +:+ "_sentence_" +:+ str_nat i) +:+ ".wav").
Definition matched_path (env : Env) (job_id : string) (i : nat) : string :=
  path_join (OUTPUT_DIR env) ((job_id +:+ "_matched_" +:+ str_nat i) +:+ ".wav").
Definition final_path (env : Env) (job_id : string) : string :=
  path_join (OUTPUT_DIR env) ((job_id +:+ "_final") +:+ ".wav").
Definition continuous_path (env : Env) (job_id : string) : string :=
  path_join (OUTPUT_DIR env) ((job_id +:+ "_continuous") +:+ ".wav").

(** The duration in milliseconds of the audio file at a path, if any. *)
Definition duration_at (w : World) (path : string) : option Z :=
  match fs w !! path with
  | Some (Wav audio) => Some (AudioSegment.len audio)
  | _ => None
  end.

(** A step that may change the files only. *)
Definition only_files_changed (w w' : World) : Prop :=
  job w' = job w /\ temp_files w' = temp_files w /\ progress_log w' = progress_log w.

(** The job of the examples: an eight-second upload, queued. *)
Definition demo_upload : World :=
  Main.uploaded "job" "uploads/job_in.wav" (Wav (repeat 1%Z (Z.to_nat 8000))) ∅.

(** A valid sentence followed by one that is too short and has one letter. *)
Definition mixed_sentences : list AudioSentence :=
  [ {| text := "Hello world"; start_time := 0; end_time := 1; confidence := None |};
    {| text := "a"; start_time := 1; end_time := 1.05; confidence := None |} ].

(** The clip the test voice gives to the sentence of index [k]. *)
Definition demo_clip (sentences : list AudioSentence) (k : nat) : AudioSegment.t :=
  match sentences !! k with
  | Some s => demo_speech (text s)
  | None => []
  end.

(** Sentences in chronological order from time [t] on: each one starts
    where the previous one ended or later, and does not end before it
    starts. *)
Fixpoint chronological (t : Q) (l : list SentenceDict) : Prop :=
  match l with
  | [] => True
  | s :: rest =>
      t <= d_start_time s /\ d_start_time s <= d_end_time s
      /\ chronological (d_end_time s) rest
  end.

(** The end time of the last sentence of a list, [t] for the empty list. *)
Fixpoint last_end (t : Q) (l : list SentenceDict) : Q :=
  match l with
  | [] => t
  | s :: rest => last_end (d_end_time s) rest
  end.

(** A clip cut or padded at its end to [ms] milliseconds: its first [ms]
    milliseconds, followed by silence when it is shorter. *)
Definition pad_or_trim (audio : AudioSegment.t) (ms : nat) : AudioSegment.t :=
  firstn ms (audio ++ repeat 0%Z (ms - length audio)).

(** What the concatenation takes for a path, in milliseconds: the duration
    of the file, or one second when it cannot be read. *)
Definition loaded_ms (w : World) (path : string) : Z :=
  match duration_at w path with
  | Some d => d
  | None => 1000%Z
  end.

Fixpoint total_loaded_ms (w : World) (paths : list string) : Z :=
  match paths with
  | [] => 0
  | path :: rest => loaded_ms w path + total_loaded_ms w rest
  end.

(** A computation that assigns no progress value, whatever its outcome. *)
Definition keeps_log {A : Type} (c : M A) : Prop :=
  forall w, progress_log (c w).2 = progress_log w.

(** The progress value the synthesis loops of the original and the
    continuous mode assign before the sentence of index [i] out of [n]. *)
Definition loop_progress (n i : nat) : Z :=
  Py.int (30 + (inject_Z (Z.of_nat i) / inject_Z (Z.of_nat n)) * 50).

(** A progress log in non-decreasing order whose values are at most [b]. *)
Definition log_below (b : Z) (l : list Z) : Prop :=
  StronglySorted Z.le l /\ Forall (fun p => (p <= b)%Z) l.

(** The path of the clip the continuous converter synthesises for the
    sentence of index [i]. *)
Definition temp_sentence_path (env : Env) (job_id : string) (i : nat) : string :=
  path_join (OUTPUT_DIR env) ((job_id +:+ "_temp_sentence_" +:+ str_nat i) +:+ ".wav").

(** The files of the timestamp-based processing for the sentence of
    index [i]: the synthesised clip and the length-adjusted clip. *)
Definition temp_sentence_name (env : Env) (i : nat) : string :=
  "temp_sentence_" +:+ uuid_hex8 env i +:+ "_" +:+ str_nat i.
Definition cloned_temp_path (env : Env) (i : nat) : string :=
  path_join (OUTPUT_DIR env) (temp_sentence_name env i +:+ ".wav").
Definition adjusted_temp_path (env : Env) (i : nat) : string :=
  path_join (SentenceProcessor.temp_dir env)
    (("adjusted_" +:+ temp_sentence_name env i) +:+ ".wav").

(** The target of a sentence in whole milliseconds, and the sum of the
    targets of a list. *)
Definition target_ms (s : SentenceDict) : Z :=
  Py.int ((d_end_time s - d_start_time s) * 1000).

Fixpoint total_target_ms (l : list SentenceDict) : Z :=
  match l with
  | [] => 0
  | s :: rest => target_ms s + total_target_ms rest
  end.

(** A sentence whose duration is not within a millisecond of the 0.1 s
    threshold of the filter: the float subtraction of the program then
    decides as the exact one does. *)
Definition clear_of_threshold (s : SentenceDict) : bool :=
  Py.leb (d_end_time s - d_start_time s) 0.099
  || Py.geb (d_end_time s - d_start_time s) 0.101.

(** Three sentences whose synthesised clips have their target length:
    the second is too short, in time and in text, to survive the filter. *)
Definition timed_sentences : list SentenceDict :=
  [ {| d_text := "ab"; d_start_time := 0; d_end_time := 0.2 |};
    {| d_text := "x"; d_start_time := 1; d_end_time := 1.05 |};
    {| d_text := "abc"; d_start_time := 2; d_end_time := 2.3 |} ].

(** The sentence the parser builds from one entry of an utterance. *)
Definition sentence_of_data (sentence_data : GladiaService.SentenceData)
    : AudioSentence :=
  {| text := Py.strip (default "" (GladiaService.sd_sentence sentence_data));
     start_time := default 0 (GladiaService.sd_start sentence_data);
     end_time := default 0 (GladiaService.sd_end sentence_data);
     confidence := GladiaService.sd_confidence sentence_data |}.

(** The sentence-level entries of all utterances, in the order of the
    response. *)
Definition all_sentence_data (utterances : list GladiaService.Utterance)
    : list GladiaService.SentenceData :=
  concat (List.map (fun u => default [] (GladiaService.u_sentences u)) utterances).

(** The utterances of a response. *)
Definition utterances_of (response : GladiaService.Response)
    : list GladiaService.Utterance :=
  match GladiaService.result response with
  | Some body =>
      match GladiaService.transcription body with
      | Some t => default [] (GladiaService.utterances t)
      | None => []
      end
  | None => []
  end.

(** Validated settings, passed again as a caller's dictionary. *)
Definition given_again (v : VoiceSettings.t) : VoiceSettings.Given :=
  {| VoiceSettings.given_stability := Some (VoiceSettings.stability v);
     VoiceSettings.given_similarity_boost := Some (VoiceSettings.similarity_boost v);
     VoiceSettings.given_style := Some (VoiceSettings.style v);
     VoiceSettings.given_use_speaker_boost := Some (VoiceSettings.use_speaker_boost v) |}.

(** * Properties *)

(** ** Python numbers *)

Lemma ltb_true (x y : Q) : Py.ltb x y = true <-> x < y.
Proof.
  unfold Py.ltb. rewrite negb_true_iff.
  split; intros H.
  - apply Qnot_le_lt. intros Hle. apply Qle_bool_iff in Hle. congruence.
  - destruct (Qle_bool y x) eqn:E; [|reflexivity].
    apply Qle_bool_iff in E. exfalso. apply (Qlt_not_le x y); assumption.
Qed.

Lemma ltb_false (x y : Q) : Py.ltb x y = false <-> y <= x.
Proof.
  unfold Py.ltb. rewrite negb_false_iff. apply Qle_bool_iff.
Qed.

Lemma gtb_true (x y : Q) : Py.gtb x y = true <-> y < x.
Proof. apply ltb_true. Qed.

Lemma eqb_true (x y : Q) : Py.eqb x y = true <-> x == y.
Proof. apply Qeq_bool_iff. Qed.

(** [int] of a non-negative float is its floor. *)
Lemma int_nonneg (x : Q) : 0 <= x -> (0 <= Py.int x)%Z.
Proof.
  destruct x as [n d]. unfold Qle, Py.int. simpl. intros H.
  apply Z.quot_pos; lia.
Qed.

Lemma int_floor (x : Q) :
  0 <= x -> inject_Z (Py.int x) <= x /\ x < inject_Z (Py.int x) + 1.
Proof.
  destruct x as [n d]. unfold Qle, Qlt, Py.int. simpl. intros H.
  assert (Hn : (0 <= n)%Z) by lia.
  rewrite Z.quot_div_nonneg by lia.
  pose proof (Z.div_mod n (Z.pos d) ltac:(lia)) as Hdm.
  pose proof (Z.mod_pos_bound n (Z.pos d) ltac:(lia)) as Hmod.
  split; nia.
Qed.

(** ** Gap analysis *)

Module GapAnalysis.
Import SentenceProcessor.

Lemma insert_sorted_perm (x : SentenceDict) (l : list SentenceDict) :
  Permutation (x :: l) (insert_sorted x l).
Proof.
  induction l as [|y l IH]; simpl.
  - reflexivity.
  - destruct (Py.ltb (d_start_time y) (d_start_time x)).
    + rewrite perm_swap. apply perm_skip. exact IH.
    + reflexivity.
Qed.

Lemma sorted_perm (l : list SentenceDict) : Permutation l (sorted l).
Proof.
  induction l as [|x l IH]; simpl.
  - reflexivity.
  - rewrite <- insert_sorted_perm. apply perm_skip. exact IH.
Qed.

Lemma sum_speech_perm (l l' : list SentenceDict) :
  Permutation l l' -> sum_speech l == sum_speech l'.
Proof.
  induction 1; simpl; try lra.
Qed.

Lemma gap_loop_total (l : list SentenceDict) :
  forall prev gaps acc, (gap_loop prev l gaps acc).2 == acc + sum_speech l.
Proof.
  induction l as [|s l IH]; intros prev gs acc; simpl.
  - lra.
  - rewrite IH. lra.
Qed.

Lemma analysis_total_speech_time (l : list SentenceDict) :
  total_speech_time (analyze_sentence_gaps l) = (gap_loop None (sorted l) [] 0).2.
Proof.
  unfold analyze_sentence_gaps.
  destruct (gap_loop None (sorted l) [] 0) as [gs t]. reflexivity.
Qed.

Lemma analysis_speech_ratio (l : list SentenceDict) :
  speech_ratio (analyze_sentence_gaps l) =
    let total_duration :=
      match last_sentence (sorted l) with
      | Some s => d_end_time s
      | None => 0
      end in
    if Py.gtb total_duration 0
    then total_speech_time (analyze_sentence_gaps l) / total_duration
    else 0.
Proof.
  unfold analyze_sentence_gaps, last_sentence.
  destruct (gap_loop None (sorted l) [] 0) as [gs t]. reflexivity.
Qed.

Lemma last_sentence_in (l : list SentenceDict) (s : SentenceDict) :
  last_sentence l = Some s -> In s l.
Proof.
  unfold last_sentence. induction l as [|x l IH]; simpl.
  - discriminate.
  - destruct l as [|y l'].
    + simpl. intros [= <-]. left; reflexivity.
    + intros H. right. apply IH. exact H.
Qed.

Lemma last_sentence_cons (x : SentenceDict) (l : list SentenceDict) :
  l <> [] -> last_sentence (x :: l) = last_sentence l.
Proof.
  destruct l as [|y l]; [contradiction | reflexivity].
Qed.

Lemma last_sentence_snoc (l : list SentenceDict) (x : SentenceDict) :
  last_sentence (l ++ [x]) = Some x.
Proof.
  induction l as [|y l IH]; [reflexivity|].
  change ((y :: l) ++ [x]) with (y :: (l ++ [x])).
  rewrite last_sentence_cons; [exact IH|]. destruct l; discriminate.
Qed.

Lemma insert_sorted_nonempty (x : SentenceDict) (l : list SentenceDict) :
  insert_sorted x l <> [].
Proof.
  destruct l as [|y l]; simpl; [discriminate|].
  destruct (Py.ltb (d_start_time y) (d_start_time x)); discriminate.
Qed.

(** A sentence that starts after all the others is inserted last. *)
Lemma insert_sorted_last (x : SentenceDict) (l : list SentenceDict) :
  Forall (fun y => d_start_time y < d_start_time x) l ->
  insert_sorted x l = l ++ [x].
Proof.
  induction l as [|y l IH]; intros H; [reflexivity|].
  inversion H as [|y' l' Hy Hl]; subst. simpl.
  apply ltb_true in Hy. rewrite Hy, (IH Hl). reflexivity.
Qed.

(** A sentence that does not start after the last one is inserted before
    it. *)
Lemma insert_sorted_keeps_last (x z : SentenceDict) (l : list SentenceDict) :
  last_sentence l = Some z ->
  d_start_time x <= d_start_time z ->
  last_sentence (insert_sorted x l) = Some z.
Proof.
  induction l as [|y l IH]; intros Hlast Hle; [discriminate|].
  simpl. destruct (Py.ltb (d_start_time y) (d_start_time x)) eqn:E.
  - destruct l as [|y' l'].
    + injection Hlast as <-. apply ltb_true in E.
      exfalso. apply (Qlt_not_le _ _ E Hle).
    + rewrite last_sentence_cons by apply insert_sorted_nonempty.
      apply IH; [|exact Hle].
      rewrite last_sentence_cons in Hlast by discriminate. exact Hlast.
  - rewrite last_sentence_cons by discriminate. exact Hlast.
Qed.

(** The last sentence of the sorted list is the last one in start order,
    whatever the order of the input. *)
Lemma sorted_last_spec (l : list SentenceDict) :
  match last_sentence (sorted l) with
  | None => l = []
  | Some s => last_in_start_order l s
  end.
Proof.
  induction l as [|x l IH]; [reflexivity|].
  change (sorted (x :: l)) with (insert_sorted x (sorted l)).
  destruct (last_sentence (sorted l)) as [s0|] eqn:Hlast.
  - destruct IH as (before & after & Hl & Hbefore & Hafter).
    destruct (Qlt_le_dec (d_start_time s0) (d_start_time x)) as [Hlt|Hle].
    + assert (Hall : Forall (fun y => d_start_time y < d_start_time x) l).
      { rewrite Hl. apply Forall_app. split; [|constructor].
        - eapply List.Forall_impl; [|exact Hbefore].
          intros y Hy. simpl in Hy. eapply Qle_lt_trans; eassumption.
        - exact Hlt.
        - eapply List.Forall_impl; [|exact Hafter].
          intros y Hy. simpl in Hy. eapply Qlt_trans; eassumption. }
      rewrite insert_sorted_last.
      * rewrite last_sentence_snoc. exists [], l. repeat split; [constructor | exact Hall].
      * apply (Permutation_Forall (sorted_perm l)). exact Hall.
    + rewrite (insert_sorted_keeps_last x s0 _ Hlast Hle).
      exists (x :: before), after. rewrite Hl. repeat split.
      * constructor; assumption.
      * exact Hafter.
  - subst l. exists [], []. repeat split; constructor.
Qed.

(** There is one last sentence in start order at most. *)
Lemma last_in_start_order_unique (l : list SentenceDict) (s s' : SentenceDict) :
  last_in_start_order l s -> last_in_start_order l s' -> s' = s.
Proof.
  intros (b & a & Hl & Hb & Ha) (b' & a' & Hl' & Hb' & Ha').
  rewrite Hl in Hl'. apply app_eq_app in Hl'.
  rewrite List.Forall_forall in Hb, Ha, Hb', Ha'.
  destruct Hl' as [m [[E1 E2] | [E1 E2]]].
  - destruct m as [|z m].
    + simpl in E2. injection E2 as E _. congruence.
    + simpl in E2. injection E2 as Ez E2. subst z.
      assert (H1 : d_start_time s < d_start_time s').
      { apply Ha'. rewrite E2. apply in_or_app. right. left. reflexivity. }
      assert (H2 : d_start_time s' <= d_start_time s).
      { apply Hb. rewrite E1. apply in_or_app. right. left. reflexivity. }
      exfalso. apply (Qlt_not_le _ _ H1 H2).
  - destruct m as [|z m].
    + simpl in E2. injection E2 as E _. congruence.
    + simpl in E2. injection E2 as Ez E2. subst z.
      assert (H1 : d_start_time s' < d_start_time s).
      { apply Ha. rewrite E2. apply in_or_app. right. left. reflexivity. }
      assert (H2 : d_start_time s <= d_start_time s').
      { apply Hb'. rewrite E1. apply in_or_app. right. left. reflexivity. }
      exfalso. apply (Qlt_not_le _ _ H1 H2).
Qed.

Lemma analysis_total_duration (l : list SentenceDict) :
  total_duration (analyze_sentence_gaps l) =
    match last_sentence (sorted l) with
    | Some s => d_end_time s
    | None => 0
    end.
Proof.
  unfold analyze_sentence_gaps, last_sentence.
  destruct (gap_loop None (sorted l) [] 0) as [gs t]. reflexivity.
Qed.

End GapAnalysis.

Module GapAnalysisClaims.
Import SentenceProcessor.

(** C4. On the sentences (0.33,0.47), (1.15,2.23), (2.57,7.52) the gap
    analysis reports exactly the three gaps (0,0.33,0.33), (0.47,1.15,0.68)
    and (2.23,2.57,0.34), the leading gap first, and a total speech time of
    6.17 seconds. *)
Theorem demo_gaps :
  Forall2 gap_equiv
    (gaps (analyze_sentence_gaps (List.map to_dict demo_sentences)))
    [ {| gap_start := 0; gap_end := 0.33; gap_duration := 0.33 |};
      {| gap_start := 0.47; gap_end := 1.15; gap_duration := 0.68 |};
      {| gap_start := 2.23; gap_end := 2.57; gap_duration := 0.34 |} ]
  /\ total_speech_time (analyze_sentence_gaps (List.map to_dict demo_sentences))
     == 6.17.
Proof.
  split.
  - repeat constructor; reflexivity.
  - reflexivity.
Qed.

(** C7. The total speech time is the sum of [(end - start)] over all the
    input sentences, valid or not, in whatever order they come. For the
    empty list the speech ratio is 0 and nothing is divided. Otherwise the
    total duration is the end time of the last sentence in start order,
    which the input determines, and the speech ratio is the total speech
    time divided by it; the division is guarded, so an end time that is
    not positive gives the ratio 0 as well. *)
Theorem speech_totals (l : list SentenceDict) :
  total_speech_time (analyze_sentence_gaps l) == sum_speech l
  /\ match l with
     | [] => speech_ratio (analyze_sentence_gaps l) = 0
     | _ :: _ =>
         exists s,
           last_in_start_order l s
           /\ (forall s', last_in_start_order l s' -> s' = s)
           /\ total_duration (analyze_sentence_gaps l) = d_end_time s
           /\ speech_ratio (analyze_sentence_gaps l) =
                if Py.gtb (d_end_time s) 0
                then total_speech_time (analyze_sentence_gaps l) / d_end_time s
                else 0
     end.
Proof.
  split.
  - rewrite GapAnalysis.analysis_total_speech_time, GapAnalysis.gap_loop_total.
    rewrite <- (GapAnalysis.sum_speech_perm _ _ (GapAnalysis.sorted_perm l)). lra.
  - destruct l as [|x l]; [reflexivity|].
    pose proof (GapAnalysis.sorted_last_spec (x :: l)) as Hlast.
    rewrite GapAnalysis.analysis_speech_ratio, GapAnalysis.analysis_total_duration.
    cbv zeta.
    destruct (last_sentence (sorted (x :: l))) as [s|]; [|discriminate Hlast].
    exists s. split; [exact Hlast|]. split; [|split; reflexivity].
    intros s' Hs'. exact (GapAnalysis.last_in_start_order_unique _ _ _ Hlast Hs').
Qed.

End GapAnalysisClaims.

Module FilterClaims.
Import SentenceProcessor.

Lemma keeps_true (s : SentenceDict) :
  keeps s = true <->
  0.1 <= d_end_time s - d_start_time s /\ (2 <= Py.len (Py.strip (d_text s)))%Z.
Proof.
  unfold keeps.
  destruct (Py.ltb (d_end_time s - d_start_time s) 0.1) eqn:Ed.
  - apply ltb_true in Ed. split; [discriminate|].
    intros [H _]. exfalso. apply (Qlt_not_le _ _ Ed H).
  - apply ltb_false in Ed.
    destruct (Py.len (Py.strip (d_text s)) <? 2)%Z eqn:El.
    + apply Z.ltb_lt in El. split; [discriminate|]. intros [_ H]. lia.
    + apply Z.ltb_ge in El. split; [intros _; split; assumption | reflexivity].
Qed.

Lemma filter_loop_spec (l : list SentenceDict) :
  forall filtered,
    _filter_empty_spaces_loop l filtered = filtered ++ List.filter keeps l.
Proof.
  induction l as [|s l IH]; intros filtered; simpl.
  - rewrite app_nil_r. reflexivity.
  - destruct (keeps s).
    + rewrite IH, <- app_assoc. reflexivity.
    + apply IH.
Qed.

Lemma filter_empty_spaces_filter (l : list SentenceDict) :
  _filter_empty_spaces l = List.filter keeps l.
Proof. unfold _filter_empty_spaces. rewrite filter_loop_spec. reflexivity. Qed.

(** The test of [_filter_empty_spaces]: a sentence survives exactly when
    its duration is at least 0.1 s and its trimmed text has at least 2
    characters. *)
Theorem filter_survivors (sentences : list SentenceDict) (s : SentenceDict) :
  In s (_filter_empty_spaces sentences) <->
  In s sentences
  /\ 0.1 <= d_end_time s - d_start_time s
  /\ (2 <= Py.len (Py.strip (d_text s)))%Z.
Proof.
  rewrite filter_empty_spaces_filter, filter_In, keeps_true. reflexivity.
Qed.

(** C5, evaluated. A sentence of two dots survives the filtering of the
    timestamp-based mode although it has no alphanumeric character, and a
    one-letter sentence is dropped by the filtering although the gap
    analysis counts it. The filter of the continuous converter of
    backend/test_continuous_no_gaps.py makes the test this one lacks: of
    four sentences, one of punctuation only, one of one letter, one too
    short and a valid one, it keeps the valid one, where
    [_filter_empty_spaces] keeps the two dots as well. *)
Lemma dots_survive_filtering :
  (In dots_sentence (_filter_empty_spaces [dots_sentence])
   /\ spec_valid dots_sentence = false)
  /\ (length (_filter_empty_spaces [letter_sentence]) = 0%nat
      /\ filtered_sentences (analyze_sentence_gaps [letter_sentence]) = 1%nat)
  /\ (to_dict dots_object = dots_sentence
      /\ ContinuousNoGaps._filter_valid_sentences [dots_object] = []
      /\ ContinuousNoGaps._filter_valid_sentences probe_sentences = [valid_object]
      /\ _filter_empty_spaces (List.map to_dict probe_sentences)
         = List.map to_dict [dots_object; valid_object]).
Proof.
  split; [|split]; split.
  - left. reflexivity.
  - reflexivity.
  - reflexivity.
  - reflexivity.
  - reflexivity.
  - split; [reflexivity|]. split; reflexivity.
Qed.

End FilterClaims.

(** ** Duration matching *)

Module Timing.
Import AudioProcessor.

Lemma len_add (a b : AudioSegment.t) :
  AudioSegment.len (AudioSegment.add a b) = (AudioSegment.len a + AudioSegment.len b)%Z.
Proof. unfold AudioSegment.len, AudioSegment.add. rewrite length_app. lia. Qed.

Lemma len_silent (d : Z) : AudioSegment.len (AudioSegment.silent d) = Z.max 0 d.
Proof. unfold AudioSegment.len, AudioSegment.silent. rewrite repeat_length. lia. Qed.

Lemma len_slice_to (a : AudioSegment.t) (stop : Z) :
  (0 <= stop <= AudioSegment.len a)%Z ->
  AudioSegment.len (AudioSegment.slice_to a stop) = stop.
Proof.
  intros H. unfold AudioSegment.slice_to.
  rewrite (Z.min_l stop) by lia.
  destruct (stop <? 0)%Z eqn:E; [apply Z.ltb_lt in E; lia|].
  rewrite E, (Z.min_l stop) by lia.
  unfold AudioSegment.len in *. rewrite length_take. lia.
Qed.

(** The exact-duration fix-up yields [int(target_duration * 1000)]
    milliseconds whenever that number is not negative. *)
Lemma len_ensure_exact_duration (a : AudioSegment.t) (target_duration : Q) :
  (0 <= Py.int (target_duration * 1000))%Z ->
  AudioSegment.len (_ensure_exact_duration a target_duration)
  = Py.int (target_duration * 1000).
Proof.
  intros H. unfold _ensure_exact_duration.
  destruct (AudioSegment.len a <? Py.int (target_duration * 1000))%Z eqn:E1.
  - apply Z.ltb_lt in E1. rewrite len_add, len_silent. lia.
  - apply Z.ltb_ge in E1.
    destruct (AudioSegment.len a >? Py.int (target_duration * 1000))%Z eqn:E2.
    + apply len_slice_to. lia.
    + rewrite Z.gtb_ltb in E2. apply Z.ltb_ge in E2. lia.
Qed.

Lemma cloned_duration_zero (a : AudioSegment.t) :
  Py.eqb (inject_Z (AudioSegment.len a) / 1000) 0 = true <-> AudioSegment.len a = 0%Z.
Proof.
  rewrite eqb_true. unfold Qeq, Qdiv, Qmult, Qinv, inject_Z. simpl. lia.
Qed.

(** A clip of positive length on disk is matched without any exception,
    whatever the target times are. *)
Lemma match_timing_loaded (env : Env) (w : World) (path : string)
    (clip : AudioSegment.t) (s e : Q) (name : string) :
  fs w !! path = Some (Wav clip) ->
  AudioSegment.len clip <> 0%Z ->
  match_timing env path s e name w =
    (Ok (path_join (OUTPUT_DIR env) (name +:+ ".wav")),
     put_file w (path_join (OUTPUT_DIR env) (name +:+ ".wav"))
       (Wav (timing_matched env clip s e))).
Proof.
  intros Hfile Hlen.
  unfold match_timing, try_except, mbind, M_bind, from_file, py_div.
  rewrite Hfile.
  destruct (Py.eqb (inject_Z (AudioSegment.len clip) / 1000) 0) eqn:E.
  - apply cloned_duration_zero in E. contradiction.
  - reflexivity.
Qed.

Lemma len_timing_matched (env : Env) (clip : AudioSegment.t) (s e : Q) :
  s <= e ->
  AudioSegment.len (timing_matched env clip s e) = Py.int ((e - s) * 1000).
Proof.
  intros H. unfold timing_matched. apply len_ensure_exact_duration.
  apply int_nonneg. lra.
Qed.

(** A clip of zero length makes the ratio a division by zero. *)
Lemma match_timing_empty_clip (env : Env) (w : World) (path : string)
    (clip : AudioSegment.t) (s e : Q) (name : string) :
  fs w !! path = Some (Wav clip) ->
  AudioSegment.len clip = 0%Z ->
  match_timing env path s e name w =
    (Raise (Exception "Audio timing matching failed: float division by zero"), w).
Proof.
  intros Hfile Hlen.
  unfold match_timing, try_except, mbind, M_bind, from_file, py_div.
  rewrite Hfile.
  apply cloned_duration_zero in Hlen. rewrite Hlen. reflexivity.
Qed.

Lemma match_timing_unreadable (env : Env) (w : World) (path : string)
    (s e : Q) (name : string) :
  (forall clip, fs w !! path <> Some (Wav clip)) ->
  match_timing env path s e name w =
    (Raise (Exception ("Audio timing matching failed: " +:+ path)), w).
Proof.
  intros Hfile.
  unfold match_timing, try_except, mbind, M_bind, from_file.
  destruct (fs w !! path) as [[clip|]|] eqn:E; try reflexivity.
  exfalso. apply (Hfile clip). reflexivity.
Qed.

End Timing.

Module TimingClaims.
Import AudioProcessor.

(** C1, as the code has it. For a readable clip of positive duration and
    target times with [start <= end], the matching returns a clip whose
    duration is within 3 ms of the target duration. The fix-up works in
    whole milliseconds, not in sample frames: the target is truncated to
    them, which costs up to one millisecond, and the margin leaves one
    more for the rounding of the float product and one for the rounding
    of pydub's lengths. *)
Theorem match_timing_within_3_ms (env : Env) (w : World) (path : string)
    (clip : AudioSegment.t) (s e : Q) (name : string)
    (Hfile : fs w !! path = Some (Wav clip))
    (Hlen : (0 < AudioSegment.len clip)%Z)
    (Htarget : s <= e) :
  let out_path := path_join (OUTPUT_DIR env) (name +:+ ".wav") in
  let r := match_timing env path s e name w in
  r.1 = Ok out_path
  /\ exists out,
       fs r.2 !! out_path = Some (Wav out)
       /\ Qabs (inject_Z (AudioSegment.len out) / 1000 - (e - s)) < 0.003.
Proof.
  intros out_path r. subst r out_path.
  rewrite (Timing.match_timing_loaded env w path clip s e name Hfile)
    by (intros E; rewrite E in Hlen; exact (Z.lt_irrefl _ Hlen)).
  cbn [fst snd]. split; [reflexivity|].
  exists (timing_matched env clip s e).
  assert (Hpos : 0 <= (e - s) * 1000) by lra.
  pose proof (int_floor _ Hpos) as [Hlo Hhi].
  rewrite (Timing.len_timing_matched env clip s e Htarget).
  split; [apply lookup_insert_eq|].
  generalize dependent (inject_Z (Py.int ((e - s) * 1000))). intros k Hlo Hhi.
  assert (H1 : (e - s) - 0.001 < k / 1000) by (apply Qlt_shift_div_l; lra).
  assert (H2 : k / 1000 <= e - s) by (apply Qle_shift_div_r; lra).
  generalize dependent (k / 1000). intros v H1 H2.
  apply Qabs_Qlt_condition. split; lra.
Qed.

Lemma match_timing_within_3_ms_witness :
  let w := world_of {[ "outputs/c.wav" := Wav (demo_speech "Hello,") ]} in
  let r := match_timing (demo_env []) "outputs/c.wav" 0.33 0.47 "m" w in
  r.1 = Ok "outputs/m.wav"
  /\ exists out,
       fs r.2 !! "outputs/m.wav" = Some (Wav out)
       /\ Qabs (inject_Z (AudioSegment.len out) / 1000 - (0.47 - 0.33)) < 0.003.
Proof.
  apply (match_timing_within_3_ms (demo_env [])
           (world_of {[ "outputs/c.wav" := Wav (demo_speech "Hello,") ]})
           "outputs/c.wav" (demo_speech "Hello,") 0.33 0.47 "m").
  - reflexivity.
  - reflexivity.
  - unfold Qle. simpl. lia.
Defined.

(** C1 fails as stated: a clip of zero duration is not padded with silence
    but makes the matching fail, and a target of half a millisecond is
    answered by an empty clip, more than one sample frame away from it. *)
Lemma match_timing_zero_clip_fails :
  (match_timing (demo_env []) "outputs/c.wav" 0 1 "m"
     (world_of {[ "outputs/c.wav" := Wav [] ]})).1
  = Raise (Exception "Audio timing matching failed: float division by zero")
  /\ (fs (match_timing (demo_env []) "outputs/c.wav" 0 0.0005 "m"
            (world_of {[ "outputs/c.wav" := Wav [1%Z] ]})).2
        !! "outputs/m.wav" = Some (Wav [])
      /\ sample_frame < 0.0005 - inject_Z (AudioSegment.len []) / 1000).
Proof.
  split; [reflexivity|]. split; [reflexivity|].
  vm_compute. reflexivity.
Qed.

(** C3, as the code has it. For a readable clip of positive duration the
    matching returns normally whatever the target times are, a negative
    target duration included; and no exception it ever raises is an
    [InvalidDurationError]: they are all plain [Exception]s. *)
Theorem match_timing_raises (env : Env) (w : World) (path : string)
    (s e : Q) (name : string) :
  (forall clip,
     fs w !! path = Some (Wav clip) -> AudioSegment.len clip <> 0%Z ->
     (match_timing env path s e name w).1
     = Ok (path_join (OUTPUT_DIR env) (name +:+ ".wav")))
  /\ (forall x,
        (match_timing env path s e name w).1 = Raise x -> exn_class x = "Exception").
Proof.
  split.
  - intros clip Hfile Hlen.
    rewrite (Timing.match_timing_loaded env w path clip s e name Hfile Hlen).
    reflexivity.
  - intros x.
    destruct (fs w !! path) as [[clip|]|] eqn:Hfile.
    + destruct (Z.eq_dec (AudioSegment.len clip) 0%Z) as [Hlen|Hlen].
      * rewrite (Timing.match_timing_empty_clip env w path clip s e name Hfile Hlen).
        simpl. intros [= <-]. reflexivity.
      * rewrite (Timing.match_timing_loaded env w path clip s e name Hfile Hlen).
        discriminate.
    + rewrite Timing.match_timing_unreadable by congruence.
      simpl. intros [= <-]. reflexivity.
    + rewrite Timing.match_timing_unreadable by congruence.
      simpl. intros [= <-]. reflexivity.
Qed.

Lemma match_timing_raises_witness :
  (match_timing (demo_env []) "outputs/c.wav" 1 0.5 "m"
     (world_of {[ "outputs/c.wav" := Wav (demo_speech "Hello,") ]})).1
  = Ok "outputs/m.wav".
Proof.
  apply (proj1 (match_timing_raises (demo_env [])
                  (world_of {[ "outputs/c.wav" := Wav (demo_speech "Hello,") ]})
                  "outputs/c.wav" 1 0.5 "m")
           (demo_speech "Hello,")).
  - reflexivity.
  - discriminate.
Defined.

(** C3 fails as stated: with a negative target duration (start 1 s, end
    0.5 s) the matching of a one-second clip raises nothing; it returns the
    path of an empty clip. *)
Lemma match_timing_negative_target_returns :
  (match_timing (demo_env []) "outputs/c.wav" 1 0.5 "m"
     (world_of {[ "outputs/c.wav" := Wav (repeat 1%Z 1000) ]})).1
  = Ok "outputs/m.wav"
  /\ fs (match_timing (demo_env []) "outputs/c.wav" 1 0.5 "m"
           (world_of {[ "outputs/c.wav" := Wav (repeat 1%Z 1000) ]})).2
       !! "outputs/m.wav" = Some (Wav []).
Proof.
  split; vm_compute; reflexivity.
Qed.

End TimingClaims.

(** ** The monad *)

Module Run.

Lemma bind_ok {A B : Type} (c : M A) (k : A -> M B) (w w' : World) (a : A) :
  c w = (Ok a, w') -> (c ≫= k) w = k a w'.
Proof. intros H. unfold mbind, M_bind. rewrite H. reflexivity. Qed.

Lemma bind_raise {A B : Type} (c : M A) (k : A -> M B) (w w' : World) (e : Exn) :
  c w = (Raise e, w') -> (c ≫= k) w = (Raise e, w').
Proof. intros H. unfold mbind, M_bind. rewrite H. reflexivity. Qed.

Lemma try_ok {A : Type} (c : M A) (h : Exn -> M A) (w w' : World) (a : A) :
  c w = (Ok a, w') -> try_except c h w = (Ok a, w').
Proof. intros H. unfold try_except. rewrite H. reflexivity. Qed.

Lemma try_raise {A : Type} (c : M A) (h : Exn -> M A) (w w' : World) (e : Exn) :
  c w = (Raise e, w') -> try_except c h w = h e w'.
Proof. intros H. unfold try_except. rewrite H. reflexivity. Qed.

Lemma bind_ok_inv {A B : Type} (c : M A) (k : A -> M B) (w w' : World) (b : B) :
  (c ≫= k) w = (Ok b, w') ->
  exists a w1, c w = (Ok a, w1) /\ k a w1 = (Ok b, w').
Proof.
  unfold mbind, M_bind. destruct (c w) as [[a|e] w1]; intros H.
  - exists a, w1. split; [reflexivity | exact H].
  - discriminate H.
Qed.

Lemma try_ok_inv {A : Type} (c : M A) (h : Exn -> M A) (w w' : World) (a : A) :
  try_except c h w = (Ok a, w') ->
  c w = (Ok a, w') \/ exists e w1, c w = (Raise e, w1) /\ h e w1 = (Ok a, w').
Proof.
  unfold try_except. destruct (c w) as [[a0|e] w1]; intros H.
  - left. exact H.
  - right. exists e, w1. split; [reflexivity | exact H].
Qed.

End Run.

(** ** Paths *)

Module Paths.

#[local] Arguments String.append !_ _ / : simpl nomatch.

Lemma length_append (s t : string) :
  String.length (s +:+ t) = (String.length s + String.length t)%nat.
Proof. induction s as [|c s IH]; simpl; [reflexivity | rewrite IH; reflexivity]. Qed.

Lemma append_inj_r (t s1 s2 : string) : s1 +:+ t = s2 +:+ t -> s1 = s2.
Proof.
  revert s2. induction s1 as [|c s1 IH]; intros [|c2 s2] H; simpl in H.
  - reflexivity.
  - apply (f_equal String.length) in H. simpl in H. rewrite length_append in H. lia.
  - apply (f_equal String.length) in H. simpl in H. rewrite length_append in H. lia.
  - injection H as -> H. f_equal. apply IH. exact H.
Qed.

Lemma append_inj_l (t s1 s2 : string) : t +:+ s1 = t +:+ s2 -> s1 = s2.
Proof.
  induction t as [|c t IH]; simpl; intros H; [exact H|].
  injection H as H. apply IH. exact H.
Qed.

Lemma str_nat_inj (a b : nat) : str_nat a = str_nat b -> a = b.
Proof.
  unfold str_nat. intros H.
  apply DecimalNat.Unsigned.to_uint_inj.
  assert (Hn : forall n, Nat.to_uint n <> Decimal.Nil).
  { intros n Hn. pose proof (DecimalNat.Unsigned.to_of (Nat.to_uint n)) as E.
    rewrite DecimalNat.Unsigned.of_to, Hn in E. discriminate E. }
  pose proof (NilZero.usu _ (Hn a)) as Ha.
  pose proof (NilZero.usu _ (Hn b)) as Hb.
  rewrite H in Ha. congruence.
Qed.

(** Two output files are the same file only if their base names agree
    after the job identifier. *)
Lemma wav_path_inj (d j x y : string) :
  path_join d ((j +:+ x) +:+ ".wav") = path_join d ((j +:+ y) +:+ ".wav") -> x = y.
Proof.
  unfold path_join. intros H.
  apply append_inj_l, append_inj_l, append_inj_r, append_inj_l in H. exact H.
Qed.

Lemma sentence_path_inj (env : Env) (j : string) (i k : nat) :
  sentence_path env j i = sentence_path env j k -> i = k.
Proof.
  unfold sentence_path. intros H. apply wav_path_inj, append_inj_l in H.
  apply str_nat_inj. exact H.
Qed.

Lemma matched_path_inj (env : Env) (j : string) (i k : nat) :
  matched_path env j i = matched_path env j k -> i = k.
Proof.
  unfold matched_path. intros H. apply wav_path_inj, append_inj_l in H.
  apply str_nat_inj. exact H.
Qed.

Lemma sentence_not_matched (env : Env) (j : string) (i k : nat) :
  sentence_path env j i <> matched_path env j k.
Proof.
  unfold sentence_path, matched_path. intros H.
  apply wav_path_inj in H. discriminate H.
Qed.

Lemma matched_not_final (env : Env) (j : string) (k : nat) :
  matched_path env j k <> final_path env j.
Proof.
  unfold matched_path, final_path. intros H.
  apply wav_path_inj in H. discriminate H.
Qed.

Lemma sentence_not_continuous (env : Env) (j : string) (k : nat) :
  sentence_path env j k <> continuous_path env j.
Proof.
  unfold sentence_path, continuous_path. intros H.
  apply wav_path_inj in H. discriminate H.
Qed.

End Paths.

(** ** Concatenation *)

Module Concatenation.
Import AudioProcessor.

(** The loop reads every path, takes a second of silence for a file that
    does not load, and leaves the world as it was. *)
Lemma concatenate_loop_spec (paths : list string) :
  forall (combined : AudioSegment.t) (w : World),
    concatenate_loop paths combined w =
      (Ok (combined ++ concat (List.map (loaded_or_silence (fs w)) paths)), w).
Proof.
  induction paths as [|p paths IH]; intros combined w; simpl.
  - rewrite app_nil_r. reflexivity.
  - unfold mbind, M_bind, try_except, from_file, loaded_or_silence at 1.
    destruct (fs w !! p) as [[audio|]|]; simpl;
      rewrite IH; unfold AudioSegment.add; rewrite <- app_assoc; reflexivity.
Qed.

(** C10, as the code has it. The concatenation takes one second of
    silence for every segment that fails to load and goes on; it raises
    exactly when no path is given or the combined audio is empty, which
    requires every segment to load and be empty. When every segment fails
    to load the result is as many seconds of silence, not an exception. *)
Theorem concatenate_audio_result (env : Env) (paths : list string)
    (name : string) (w : World) :
  let combined := concat (List.map (loaded_or_silence (fs w)) paths) in
  concatenate_audio env paths name w =
    match paths with
    | [] =>
        (Raise (Exception "Audio concatenation failed: No audio files to concatenate"), w)
    | _ :: _ =>
        if (AudioSegment.len combined =? 0)%Z
        then (Raise (Exception
                       "Audio concatenation failed: No valid audio segments found"), w)
        else (Ok (path_join (OUTPUT_DIR env) (name +:+ ".wav")),
              put_file w (path_join (OUTPUT_DIR env) (name +:+ ".wav")) (Wav combined))
    end.
Proof.
  intros combined. unfold concatenate_audio.
  destruct paths as [|p paths]; [reflexivity|].
  unfold try_except, mbind, M_bind.
  rewrite concatenate_loop_spec.
  change (AudioSegment.empty ++ concat (List.map (loaded_or_silence (fs w)) (p :: paths)))
    with combined.
  destruct (AudioSegment.len combined =? 0)%Z; reflexivity.
Qed.

Lemma concatenate_audio_ok (env : Env) (paths : list string) (name : string)
    (w : World) :
  paths <> [] ->
  AudioSegment.len (concat (List.map (loaded_or_silence (fs w)) paths)) <> 0%Z ->
  concatenate_audio env paths name w =
    (Ok (path_join (OUTPUT_DIR env) (name +:+ ".wav")),
     put_file w (path_join (OUTPUT_DIR env) (name +:+ ".wav"))
       (Wav (concat (List.map (loaded_or_silence (fs w)) paths)))).
Proof.
  intros Hpaths Hlen. unfold concatenate_audio.
  destruct paths as [|p paths]; [contradiction|].
  unfold try_except, mbind, M_bind.
  rewrite concatenate_loop_spec.
  change (AudioSegment.empty ++ concat (List.map (loaded_or_silence (fs w)) (p :: paths)))
    with (concat (List.map (loaded_or_silence (fs w)) (p :: paths))).
  apply Z.eqb_neq in Hlen. rewrite Hlen. reflexivity.
Qed.

(** C10 fails as stated: when the only segment fails to load, which is
    every segment, the concatenation returns one second of silence instead
    of raising; and it raises for a segment that loads but is empty, where
    a path was given and no load failed. *)
Lemma concatenate_audio_raise_condition :
  (concatenate_audio (demo_env []) ["outputs/a.wav"] "out" (world_of ∅)
   = (Ok "outputs/out.wav",
      put_file (world_of ∅) "outputs/out.wav" (Wav (AudioSegment.silent 1000))))
  /\ (concatenate_audio (demo_env []) ["outputs/a.wav"] "out"
        (world_of {[ "outputs/a.wav" := Wav [] ]})).1
     = Raise (Exception "Audio concatenation failed: No valid audio segments found").
Proof.
  split; reflexivity.
Qed.

End Concatenation.

(** ** The conversion pipeline *)

Module Pipeline.
Import Main.

(** Projections of explicit worlds and statuses are reduced on sight. *)
Ltac tidy :=
  cbn [fs job temp_files progress_log
       job_id status progress message download_url error].

(** One step that computes: a status update, a progress update. *)
Ltac step := erewrite Run.bind_ok; [|reflexivity]; tidy.

Lemma generate_speech_ok (env : Env) (t voice name : string) (content : File)
    (w : World) :
  text_to_speech env t voice name = Ok content ->
  ElevenLabsService.generate_speech env t voice name w =
    (Ok (path_join (OUTPUT_DIR env) (name +:+ ".wav")),
     put_file w (path_join (OUTPUT_DIR env) (name +:+ ".wav")) content).
Proof.
  intros H. unfold ElevenLabsService.generate_speech, try_except. rewrite H.
  reflexivity.
Qed.

Lemma generate_speech_raise (env : Env) (t voice name : string) (e : Exn)
    (w : World) :
  text_to_speech env t voice name = Raise e ->
  ElevenLabsService.generate_speech env t voice name w =
    (Raise (Exception ("ElevenLabs speech generation failed: " +:+ exn_msg e)), w).
Proof.
  intros H. unfold ElevenLabsService.generate_speech, try_except. rewrite H.
  reflexivity.
Qed.

(** The loop of the original mode writes, for the sentence of index [k],
    its clip and the timing-matched clip, and touches no other file. *)
Lemma original_loop_spec (env : Env) (voice j : string) (n : nat)
    (clip : nat -> AudioSegment.t) (rest : list AudioSentence) :
  forall (i : nat) (chunks : list string) (w : World),
    (forall k s, rest !! k = Some s ->
       text_to_speech env (text s) voice (j +:+ "_sentence_" +:+ str_nat (i + k)%nat)
         = Ok (Wav (clip (i + k)%nat))
       /\ AudioSegment.len (clip (i + k)%nat) <> 0%Z) ->
    exists w',
      original_loop env rest i n voice j chunks w =
        (Ok (chunks ++ List.map (matched_path env j) (seq i (length rest))), w')
      /\ (forall k s, rest !! k = Some s ->
            fs w' !! matched_path env j (i + k)%nat =
              Some (Wav (timing_matched env (clip (i + k)%nat)
                           (start_time s) (end_time s))))
      /\ (forall p,
            (forall k, (i <= k)%nat ->
               p <> matched_path env j k /\ p <> sentence_path env j k) ->
            fs w' !! p = fs w !! p).
Proof.
  induction rest as [|s rest IH]; intros i chunks w Hsynth.
  - exists w. simpl. rewrite app_nil_r. split; [reflexivity|].
    split; [intros k s H; discriminate H | reflexivity].
  - destruct (Hsynth 0%nat s eq_refl) as [Htts Hlen].
    rewrite Nat.add_0_r in Htts, Hlen.
    simpl original_loop.
    erewrite Run.bind_ok; [|reflexivity].
    erewrite Run.bind_ok; [|reflexivity].
    erewrite Run.bind_ok; [|apply generate_speech_ok; exact Htts].
    erewrite Run.bind_ok;
      [|apply (Timing.match_timing_loaded env _ _ (clip i));
        [apply lookup_insert_eq | exact Hlen]].
    match goal with
    | |- context [original_loop env rest (S i) n voice j _ ?w1] =>
        destruct (IH (S i) (chunks ++ [matched_path env j i]) w1)
          as (w' & Hrun & Hfiles & Hframe)
    end.
    { intros k s' Hk. rewrite Nat.add_succ_comm. apply (Hsynth (S k) s' Hk). }
    exists w'. split; [|split].
    + unfold matched_path at 1 in Hrun. unfold matched_path at 1.
      rewrite Hrun. simpl. rewrite <- app_assoc. reflexivity.
    + intros [|k] s' Hk.
      * injection Hk as <-. rewrite Nat.add_0_r.
        rewrite Hframe.
        -- apply lookup_insert_eq.
        -- intros k Hle. split.
           ++ intros E. apply Paths.matched_path_inj in E. lia.
           ++ intros E. symmetry in E. apply Paths.sentence_not_matched in E. exact E.
      * rewrite <- Nat.add_succ_comm. apply Hfiles. exact Hk.
    + intros p Hp. rewrite Hframe.
      * destruct (Hp i (Nat.le_refl i)) as [Hm Hs]. simpl.
        rewrite lookup_insert_ne by (intros E; apply Hm; symmetry; exact E).
        rewrite lookup_insert_ne by (intros E; apply Hs; symmetry; exact E).
        reflexivity.
      * intros k Hle. apply Hp. lia.
Qed.

(** The loop of the continuous mode writes the clip of every sentence and
    touches no other file. *)
Lemma continuous_loop_spec (env : Env) (voice j : string) (n : nat)
    (clip : nat -> AudioSegment.t) (rest : list AudioSentence) :
  forall (i : nat) (chunks : list string) (w : World),
    (forall k s, rest !! k = Some s ->
       text_to_speech env (text s) voice (j +:+ "_sentence_" +:+ str_nat (i + k)%nat)
         = Ok (Wav (clip (i + k)%nat))) ->
    exists w',
      continuous_loop env rest i n voice j chunks w =
        (Ok (chunks ++ List.map (sentence_path env j) (seq i (length rest))), w')
      /\ (forall k, (k < length rest)%nat ->
            fs w' !! sentence_path env j (i + k)%nat = Some (Wav (clip (i + k)%nat)))
      /\ (forall p,
            (forall k, (i <= k)%nat -> p <> sentence_path env j k) ->
            fs w' !! p = fs w !! p).
Proof.
  induction rest as [|s rest IH]; intros i chunks w Hsynth.
  - exists w. simpl. rewrite app_nil_r. split; [reflexivity|].
    split; [intros k H; lia | reflexivity].
  - pose proof (Hsynth 0%nat s eq_refl) as Htts.
    rewrite Nat.add_0_r in Htts.
    simpl continuous_loop.
    erewrite Run.bind_ok; [|reflexivity].
    erewrite Run.bind_ok; [|reflexivity].
    erewrite Run.bind_ok; [|apply generate_speech_ok; exact Htts].
    match goal with
    | |- context [continuous_loop env rest (S i) n voice j _ ?w1] =>
        destruct (IH (S i) (chunks ++ [sentence_path env j i]) w1)
          as (w' & Hrun & Hfiles & Hframe)
    end.
    { intros k s' Hk. rewrite Nat.add_succ_comm. apply (Hsynth (S k) s' Hk). }
    exists w'. split; [|split].
    + unfold sentence_path at 1 in Hrun. unfold sentence_path at 1.
      rewrite Hrun. simpl. rewrite <- app_assoc. reflexivity.
    + intros [|k] Hk.
      * rewrite Nat.add_0_r. rewrite Hframe.
        -- apply lookup_insert_eq.
        -- intros k Hle E. apply Paths.sentence_path_inj in E. lia.
      * rewrite <- Nat.add_succ_comm. apply Hfiles. simpl in Hk. lia.
    + intros p Hp. rewrite Hframe.
      * simpl. rewrite lookup_insert_ne
          by (intros E; apply (Hp i (Nat.le_refl i)); symmetry; exact E).
        reflexivity.
      * intros k Hle. apply Hp. lia.
Qed.

Lemma len_app (a b : AudioSegment.t) :
  AudioSegment.len (a ++ b) = (AudioSegment.len a + AudioSegment.len b)%Z.
Proof. apply (Timing.len_add a b). Qed.

(** Reading back files that hold known clips. *)
Lemma concat_loaded (files : gmap string File) (mk : nat -> string)
    (clip : nat -> AudioSegment.t) (n : nat) :
  forall i,
    (forall k, (k < n)%nat -> files !! mk (i + k)%nat = Some (Wav (clip (i + k)%nat))) ->
    concat (List.map (loaded_or_silence files) (List.map mk (seq i n)))
    = concat (List.map clip (seq i n)).
Proof.
  induction n as [|n IH]; intros i H; simpl; [reflexivity|].
  unfold loaded_or_silence at 1.
  pose proof (H 0%nat ltac:(lia)) as H0. rewrite Nat.add_0_r in H0. rewrite H0.
  f_equal. apply IH. intros k Hk. rewrite Nat.add_succ_comm. apply H. lia.
Qed.

Lemma matched_total_len (env : Env) (j : string) (files : gmap string File)
    (rest : list AudioSentence) :
  forall i,
    (forall k s, rest !! k = Some s ->
       exists a, files !! matched_path env j (i + k)%nat = Some (Wav a)
                 /\ AudioSegment.len a = slot_ms s) ->
    AudioSegment.len
      (concat (List.map (loaded_or_silence files)
                 (List.map (matched_path env j) (seq i (length rest)))))
    = slots_ms rest.
Proof.
  induction rest as [|s rest IH]; intros i H; simpl; [reflexivity|].
  destruct (H 0%nat s eq_refl) as (a & Ha & Hlen).
  rewrite Nat.add_0_r in Ha.
  unfold loaded_or_silence at 1. rewrite Ha, len_app, Hlen. f_equal.
  apply IH. intros k s' Hk. rewrite Nat.add_succ_comm. apply (H (S k) s' Hk).
Qed.

(** *** Clean-up after a successful run *)

Lemma remove_if_exists_spec (path : string) (w : World) :
  exists w',
    remove_if_exists path w = (Ok tt, w')
    /\ only_files_changed w w'
    /\ fs w' !! path = None
    /\ (forall q, q <> path -> fs w' !! q = fs w !! q).
Proof.
  unfold remove_if_exists, mbind, M_bind, path_exists.
  destruct (bool_decide (is_Some (fs w !! path))) eqn:E.
  - eexists. split; [reflexivity|]. split; [repeat split|]. simpl. split.
    + apply lookup_delete_eq.
    + intros q Hq. apply lookup_delete_ne. congruence.
  - exists w. split; [reflexivity|]. split; [repeat split|]. split.
    + apply bool_decide_eq_false in E. apply eq_None_not_Some. exact E.
    + reflexivity.
Qed.

Lemma remove_chunks_spec (chunks : list string) :
  forall w,
    exists w',
      remove_chunks chunks w = (Ok tt, w')
      /\ only_files_changed w w'
      /\ (forall q, ~ In q chunks -> fs w' !! q = fs w !! q).
Proof.
  induction chunks as [|c chunks IH]; intros w.
  - exists w. split; [reflexivity|]. split; [repeat split | reflexivity].
  - destruct (remove_if_exists_spec c w) as (w1 & Hrun1 & (Hj1 & Ht1 & Hl1) & _ & Hkeep1).
    destruct (IH w1) as (w' & Hrun & (Hj & Ht & Hl) & Hkeep).
    exists w'. split; [|split].
    + simpl. erewrite Run.bind_ok; [|exact Hrun1]. exact Hrun.
    + unfold only_files_changed. split; [|split]; congruence.
    + intros q Hq. rewrite Hkeep, Hkeep1.
      * reflexivity.
      * intros ->. apply Hq. left. reflexivity.
      * intros Hin. apply Hq. right. exact Hin.
Qed.

Lemma unlink_globbed_spec (directory j out : string) (w : World) :
  exists w',
    unlink_globbed directory j out w = (Ok tt, w')
    /\ only_files_changed w w'
    /\ fs w' !! out = fs w !! out.
Proof.
  eexists. split; [reflexivity|]. split; [repeat split|]. simpl.
  destruct (fs w !! out) as [x|] eqn:E.
  - apply map_lookup_filter_Some_2; [exact E|].
    simpl. rewrite String.eqb_refl. simpl. rewrite andb_false_r. reflexivity.
  - apply map_lookup_filter_None_2. left. exact E.
Qed.

(** The clean-up keeps the output file as long as it is neither the
    upload nor one of the chunks. *)
Lemma cleanup_keeps_output (env : Env) (j input : string) (chunks : list string)
    (out : string) (w : World) :
  input <> out -> ~ In out chunks ->
  exists w',
    cleanup_temp_files env j input chunks out w = (Ok tt, w')
    /\ only_files_changed w w'
    /\ fs w' !! out = fs w !! out.
Proof.
  intros Hin Hchunks.
  destruct (remove_if_exists_spec input w) as (w1 & R1 & (J1 & T1 & L1) & _ & K1).
  destruct (remove_chunks_spec chunks w1) as (w2 & R2 & (J2 & T2 & L2) & K2).
  destruct (unlink_globbed_spec (UPLOAD_DIR env) j out w2)
    as (w3 & R3 & (J3 & T3 & L3) & K3).
  destruct (unlink_globbed_spec (OUTPUT_DIR env) j out w3)
    as (w4 & R4 & (J4 & T4 & L4) & K4).
  exists w4. split; [|split].
  - unfold cleanup_temp_files. apply Run.try_ok.
    erewrite Run.bind_ok; [|exact R1].
    erewrite Run.bind_ok; [|exact R2].
    erewrite Run.bind_ok; [|exact R3].
    exact R4.
  - unfold only_files_changed. split; [|split]; congruence.
  - rewrite K4, K3, K2, K1 by congruence. reflexivity.
Qed.

(** *** The original mode *)

Lemma run_mode_original (env : Env) (jid input voice : string)
    (continuous same_length timestamp_based continuous_with_spaces : option string)
    (sentences : list AudioSentence) (clip : nat -> AudioSegment.t) (w : World) :
  is_true continuous = false -> is_true same_length = false ->
  is_true timestamp_based = false -> is_true continuous_with_spaces = false ->
  transcribe_audio env input = Ok sentences ->
  (forall k s, sentences !! k = Some s ->
     text_to_speech env (text s) voice (jid +:+ "_sentence_" +:+ str_nat k)
       = Ok (Wav (clip k))
     /\ AudioSegment.len (clip k) <> 0%Z
     /\ start_time s <= end_time s) ->
  (0 < slots_ms sentences)%Z ->
  exists w' out,
    run_mode env jid input voice
      continuous same_length timestamp_based continuous_with_spaces w
    = (Ok (final_path env jid,
           List.map (matched_path env jid) (seq 0 (length sentences))), w')
    /\ fs w' !! final_path env jid = Some (Wav out)
    /\ AudioSegment.len out = slots_ms sentences.
Proof.
  intros Hc Hsl Hts Hcws Htr Hsynth Hsome.
  unfold run_mode. cbv zeta. rewrite Hc, Hsl, Hts, Hcws.
  step. step. step.
  erewrite Run.bind_ok; [|unfold transcribe; rewrite Htr; reflexivity].
  step. step.
  match goal with
  | |- exists _ _, (_ ≫= _) ?w1 = _ /\ _ =>
      destruct (original_loop_spec env voice jid (length sentences) clip
                  sentences 0 [] w1)
        as (w2 & Hloop & Hfiles & _)
  end.
  { intros k s Hk. destruct (Hsynth k s Hk) as (H1 & H2 & _). split; assumption. }
  erewrite Run.bind_ok; [|exact Hloop].
  step. step.
  simpl app.
  assert (Hlen :
    AudioSegment.len
      (concat (List.map (loaded_or_silence (fs w2))
                 (List.map (matched_path env jid) (seq 0 (length sentences)))))
    = slots_ms sentences).
  { apply matched_total_len. intros k s Hk.
    eexists. split; [apply (Hfiles k s Hk)|].
    destruct (Hsynth k s Hk) as (_ & _ & Hle).
    apply (Timing.len_timing_matched env _ _ _ Hle). }
  erewrite Run.bind_ok.
  2:{ apply Concatenation.concatenate_audio_ok.
      - destruct sentences; [simpl in Hsome; lia | discriminate].
      - tidy. rewrite Hlen. lia. }
  tidy. eexists. eexists. split; [reflexivity|]. split.
  - apply lookup_insert_eq.
  - exact Hlen.
Qed.

(** *** The continuous mode *)

Lemma run_mode_continuous (env : Env) (jid input voice : string)
    (continuous same_length timestamp_based continuous_with_spaces : option string)
    (sentences : list AudioSentence) (clip : nat -> AudioSegment.t) (w : World) :
  is_true continuous = true -> is_true same_length = false ->
  is_true timestamp_based = false -> is_true continuous_with_spaces = false ->
  transcribe_audio env input = Ok sentences ->
  (forall k s, sentences !! k = Some s ->
     text_to_speech env (text s) voice (jid +:+ "_sentence_" +:+ str_nat k)
       = Ok (Wav (clip k))) ->
  concat (List.map clip (seq 0 (length sentences))) <> [] ->
  exists w',
    run_mode env jid input voice
      continuous same_length timestamp_based continuous_with_spaces w
    = (Ok (continuous_path env jid,
           List.map (sentence_path env jid) (seq 0 (length sentences))), w')
    /\ fs w' !! continuous_path env jid
       = Some (Wav (concat (List.map clip (seq 0 (length sentences))))).
Proof.
  intros Hc Hsl Hts Hcws Htr Hsynth Hsome.
  unfold run_mode. cbv zeta. rewrite Hc, Hsl, Hts, Hcws.
  step. step. step.
  erewrite Run.bind_ok; [|unfold transcribe; rewrite Htr; reflexivity].
  step. step.
  match goal with
  | |- exists _, (_ ≫= _) ?w1 = _ /\ _ =>
      destruct (continuous_loop_spec env voice jid (length sentences) clip
                  sentences 0 [] w1 Hsynth)
        as (w2 & Hloop & Hfiles & _)
  end.
  erewrite Run.bind_ok; [|exact Hloop].
  step. step.
  simpl app.
  assert (Hcat :
    concat (List.map (loaded_or_silence (fs w2))
              (List.map (sentence_path env jid) (seq 0 (length sentences))))
    = concat (List.map clip (seq 0 (length sentences)))).
  { apply concat_loaded. intros k Hk. apply (Hfiles k Hk). }
  erewrite Run.bind_ok.
  2:{ apply Concatenation.concatenate_audio_ok.
      - destruct sentences; [simpl in Hsome; congruence | discriminate].
      - tidy. rewrite Hcat. unfold AudioSegment.len.
        destruct (concat (List.map clip (seq 0 (length sentences))));
          [congruence | simpl; lia]. }
  tidy. eexists. split; [reflexivity|].
  rewrite Hcat. apply lookup_insert_eq.
Qed.

(** *** The end of a successful run *)

Lemma cleanup_spec (env : Env) (j input : string) (chunks : list string)
    (out : string) (w : World) :
  exists w',
    cleanup_temp_files env j input chunks out w = (Ok tt, w')
    /\ only_files_changed w w'.
Proof.
  destruct (remove_if_exists_spec input w) as (w1 & R1 & (J1 & T1 & L1) & _).
  destruct (remove_chunks_spec chunks w1) as (w2 & R2 & (J2 & T2 & L2) & _).
  destruct (unlink_globbed_spec (UPLOAD_DIR env) j out w2)
    as (w3 & R3 & (J3 & T3 & L3) & _).
  destruct (unlink_globbed_spec (OUTPUT_DIR env) j out w3)
    as (w4 & R4 & (J4 & T4 & L4) & _).
  exists w4. split.
  - unfold cleanup_temp_files. apply Run.try_ok.
    erewrite Run.bind_ok; [|exact R1].
    erewrite Run.bind_ok; [|exact R2].
    erewrite Run.bind_ok; [|exact R3].
    exact R4.
  - unfold only_files_changed. split; [|split]; congruence.
Qed.

Lemma process_audio_file_success (env : Env) (jid input voice : string)
    (continuous same_length timestamp_based continuous_with_spaces : option string)
    (w w1 : World) (out : string) (chunks : list string) :
  run_mode env jid input voice
    continuous same_length timestamp_based continuous_with_spaces w
  = (Ok (out, chunks), w1) ->
  exists w',
    process_audio_file env jid input voice
      continuous same_length timestamp_based continuous_with_spaces w
    = (Ok tt, w')
    /\ status (job w') = "completed"
    /\ progress (job w') = 100%Z
    /\ progress_log w' = progress_log w1 ++ [90%Z; 100%Z]
    /\ (input <> out -> ~ In out chunks -> fs w' !! out = fs w1 !! out).
Proof.
  intros Hrun.
  unfold process_audio_file.
  match goal with
  | |- exists _, try_except (_ ≫= ?k) _ _ = _ /\ _ =>
      assert (Hk : exists w', k (out, chunks) w1 = (Ok tt, w')
                /\ status (job w') = "completed"
                /\ progress (job w') = 100%Z
                /\ progress_log w' = progress_log w1 ++ [90%Z; 100%Z]
                /\ (input <> out -> ~ In out chunks ->
                    fs w' !! out = fs w1 !! out))
  end.
  { cbv beta iota.
    step. step. step. step. step. step.
    match goal with
    | |- exists _, cleanup_temp_files _ _ _ _ _ ?w2 = _ /\ _ =>
        destruct (cleanup_spec env jid input chunks out w2)
          as (w3 & Hclean & (Hj & _ & Hl));
        pose proof (cleanup_keeps_output env jid input chunks out w2) as Hkeep
    end.
    exists w3. split; [exact Hclean|].
    rewrite Hj, Hl. tidy. rewrite <- app_assoc.
    split; [reflexivity|]. split; [reflexivity|]. split; [reflexivity|].
    intros Hinput Hchunks.
    destruct (Hkeep Hinput Hchunks) as (w3' & Hclean' & _ & Hfs).
    rewrite Hclean in Hclean'. injection Hclean' as <-. exact Hfs. }
  destruct Hk as (w' & Hk & Hrest).
  exists w'. split; [|exact Hrest].
  apply Run.try_ok. erewrite Run.bind_ok; [|exact Hrun]. exact Hk.
Qed.

(** *** The end of a failed run *)

(** The except block reports the failure and leaves every file where the
    failed run left it. *)
Lemma process_audio_file_failure (env : Env) (jid input voice : string)
    (continuous same_length timestamp_based continuous_with_spaces : option string)
    (w w1 : World) (e : Exn) :
  run_mode env jid input voice
    continuous same_length timestamp_based continuous_with_spaces w
  = (Raise e, w1) ->
  exists w',
    process_audio_file env jid input voice
      continuous same_length timestamp_based continuous_with_spaces w
    = (Ok tt, w')
    /\ fs w' = fs w1
    /\ status (job w') = "failed"
    /\ error (job w') = Some (exn_msg e)
    /\ message (job w') = "Processing failed: " +:+ exn_msg e
    /\ progress_log w' = progress_log w1.
Proof.
  intros Hrun. unfold process_audio_file.
  erewrite Run.try_raise; [|apply Run.bind_raise; exact Hrun].
  eexists. split; [reflexivity|]. repeat split.
Qed.

(** When the voice service fails on a sentence, the loop of the original
    mode stops there; the clips and the matched clips of the sentences
    before it are on disk. *)
Lemma original_loop_failure (env : Env) (voice j : string) (n : nat)
    (clip : nat -> AudioSegment.t) (bad : AudioSentence)
    (rest : list AudioSentence) (e : Exn) (done : list AudioSentence) :
  forall (i : nat) (chunks : list string) (w : World),
    (forall k s, done !! k = Some s ->
       text_to_speech env (text s) voice (j +:+ "_sentence_" +:+ str_nat (i + k)%nat)
         = Ok (Wav (clip (i + k)%nat))
       /\ AudioSegment.len (clip (i + k)%nat) <> 0%Z) ->
    text_to_speech env (text bad) voice
      (j +:+ "_sentence_" +:+ str_nat (i + length done)%nat) = Raise e ->
    exists w',
      original_loop env (done ++ bad :: rest) i n voice j chunks w =
        (Raise (Exception ("ElevenLabs speech generation failed: " +:+ exn_msg e)), w')
      /\ (forall k s, done !! k = Some s ->
            fs w' !! sentence_path env j (i + k)%nat = Some (Wav (clip (i + k)%nat))
            /\ fs w' !! matched_path env j (i + k)%nat =
                 Some (Wav (timing_matched env (clip (i + k)%nat)
                              (start_time s) (end_time s))))
      /\ (forall p,
            (forall k, (i <= k)%nat ->
               p <> matched_path env j k /\ p <> sentence_path env j k) ->
            fs w' !! p = fs w !! p).
Proof.
  induction done as [|s done IH]; intros i chunks w Hsynth Hbad.
  - simpl in Hbad. rewrite Nat.add_0_r in Hbad.
    simpl app. simpl original_loop.
    erewrite Run.bind_ok; [|reflexivity].
    erewrite Run.bind_ok; [|reflexivity].
    erewrite Run.bind_raise; [|apply generate_speech_raise; exact Hbad].
    eexists. split; [reflexivity|].
    split; [intros k s H; discriminate H | reflexivity].
  - destruct (Hsynth 0%nat s eq_refl) as [Htts Hlen].
    rewrite Nat.add_0_r in Htts, Hlen.
    simpl app. simpl original_loop.
    erewrite Run.bind_ok; [|reflexivity].
    erewrite Run.bind_ok; [|reflexivity].
    erewrite Run.bind_ok; [|apply generate_speech_ok; exact Htts].
    erewrite Run.bind_ok;
      [|apply (Timing.match_timing_loaded env _ _ (clip i));
        [apply lookup_insert_eq | exact Hlen]].
    match goal with
    | |- context [original_loop env (done ++ bad :: rest) (S i) n voice j _ ?w1] =>
        destruct (IH (S i) (chunks ++ [matched_path env j i]) w1)
          as (w' & Hrun & Hfiles & Hframe)
    end.
    { intros k s' Hk. rewrite Nat.add_succ_comm. apply (Hsynth (S k) s' Hk). }
    { rewrite Nat.add_succ_comm. exact Hbad. }
    exists w'. split; [|split].
    + unfold matched_path at 1 in Hrun. exact Hrun.
    + intros [|k] s' Hk.
      * injection Hk as <-. rewrite Nat.add_0_r.
        assert (Hlater : forall k, (S i <= k)%nat ->
                  matched_path env j i <> matched_path env j k
                  /\ matched_path env j i <> sentence_path env j k
                  /\ sentence_path env j i <> matched_path env j k
                  /\ sentence_path env j i <> sentence_path env j k).
        { intros k Hle. repeat split; intros E.
          - apply Paths.matched_path_inj in E. lia.
          - symmetry in E. apply Paths.sentence_not_matched in E. exact E.
          - apply Paths.sentence_not_matched in E. exact E.
          - apply Paths.sentence_path_inj in E. lia. }
        split.
        -- rewrite Hframe by (intros k Hle; split; apply (Hlater k Hle)).
           simpl. rewrite lookup_insert_ne.
           ++ apply lookup_insert_eq.
           ++ intros E. symmetry in E. apply Paths.sentence_not_matched in E. exact E.
        -- rewrite Hframe by (intros k Hle; split; apply (Hlater k Hle)).
           apply lookup_insert_eq.
      * rewrite <- Nat.add_succ_comm. apply Hfiles. exact Hk.
    + intros p Hp. rewrite Hframe.
      * destruct (Hp i (Nat.le_refl i)) as [Hm Hs]. simpl.
        rewrite lookup_insert_ne by (intros E; apply Hm; symmetry; exact E).
        rewrite lookup_insert_ne by (intros E; apply Hs; symmetry; exact E).
        reflexivity.
      * intros k Hle. apply Hp. lia.
Qed.

(** In the original mode, a failure of the voice service on one sentence
    ends the run as failed, and the clips written for the sentences before
    it stay on disk. *)
Lemma original_mode_failure_keeps_files (env : Env) (jid input voice : string)
    (continuous same_length timestamp_based continuous_with_spaces : option string)
    (done : list AudioSentence) (bad : AudioSentence) (rest : list AudioSentence)
    (clip : nat -> AudioSegment.t) (e : Exn) (w : World) :
  is_true continuous = false -> is_true same_length = false ->
  is_true timestamp_based = false -> is_true continuous_with_spaces = false ->
  transcribe_audio env input = Ok (done ++ bad :: rest) ->
  (forall k s, done !! k = Some s ->
     text_to_speech env (text s) voice (jid +:+ "_sentence_" +:+ str_nat k)
       = Ok (Wav (clip k))
     /\ AudioSegment.len (clip k) <> 0%Z) ->
  text_to_speech env (text bad) voice
    (jid +:+ "_sentence_" +:+ str_nat (length done)) = Raise e ->
  let w' := (process_audio_file env jid input voice
               continuous same_length timestamp_based continuous_with_spaces w).2 in
  status (job w') = "failed"
  /\ error (job w')
     = Some ("ElevenLabs speech generation failed: " +:+ exn_msg e)
  /\ (forall k, (k < length done)%nat ->
        is_Some (fs w' !! sentence_path env jid k)
        /\ is_Some (fs w' !! matched_path env jid k)).
Proof.
  intros Hc Hsl Hts Hcws Htr Hsynth Hbad.
  assert (Hrun : exists w1,
    run_mode env jid input voice
      continuous same_length timestamp_based continuous_with_spaces w
    = (Raise (Exception ("ElevenLabs speech generation failed: " +:+ exn_msg e)), w1)
    /\ (forall k, (k < length done)%nat ->
          is_Some (fs w1 !! sentence_path env jid k)
          /\ is_Some (fs w1 !! matched_path env jid k))).
  { unfold run_mode. cbv zeta. rewrite Hc, Hsl, Hts, Hcws.
    step. step. step.
    erewrite Run.bind_ok; [|unfold transcribe; rewrite Htr; reflexivity].
    step. step.
    match goal with
    | |- exists _, (_ ≫= _) ?w1 = _ /\ _ =>
        destruct (original_loop_failure env voice jid
                    (length (done ++ bad :: rest)) clip bad rest e done 0 [] w1
                    Hsynth Hbad)
          as (w2 & Hloop & Hfiles & _)
    end.
    exists w2. split.
    - erewrite Run.bind_raise; [reflexivity | exact Hloop].
    - intros k Hk. destruct (lookup_lt_is_Some_2 done k Hk) as [s Hs].
      destruct (Hfiles k s Hs) as [H1 H2]. simpl in H1, H2.
      rewrite H1, H2. split; eexists; reflexivity. }
  destruct Hrun as (w1 & Hrun & Hfiles).
  destruct (process_audio_file_failure env jid input voice _ _ _ _ w w1 _ Hrun)
    as (w' & Hfile & Hfs & Hstatus & Herr & _).
  cbv zeta. rewrite Hfile. simpl. rewrite Hfs.
  split; [exact Hstatus|]. split; [exact Herr | exact Hfiles].
Qed.

(** *** The converter of the continuous-with-spaces mode *)

Lemma unlink_all_spec (files : list string) :
  forall (n : Z) (w : World),
    exists n' w',
      unlink_all files n w = (Ok n', w')
      /\ job w' = job w /\ progress_log w' = progress_log w.
Proof.
  induction files as [|f files IH]; intros n w; simpl.
  - exists n, w. repeat split.
  - unfold mbind at 1, M_bind at 1, path_exists.
    destruct (bool_decide (is_Some (fs w !! f))).
    + unfold mbind at 1, M_bind at 1, remove, with_fs.
      match goal with
      | |- exists _ _, unlink_all files ?m ?w1 = _ /\ _ =>
          destruct (IH m w1) as (n' & w' & Hrun & Hj & Hl)
      end.
      exists n', w'. split; [exact Hrun|]. split; assumption.
    + apply IH.
Qed.

Lemma converter_cleanup_spec (w : World) :
  exists n w',
    _cleanup_temp_files w = (Ok n, w')
    /\ job w' = job w /\ progress_log w' = progress_log w.
Proof.
  unfold _cleanup_temp_files.
  erewrite Run.bind_ok; [|reflexivity].
  destruct (unlink_all_spec (temp_files w) 0%Z w) as (n & w1 & Hrun & Hj & Hl).
  erewrite Run.bind_ok; [|exact Hrun].
  eexists. eexists. split; [reflexivity|]. split; assumption.
Qed.

(** A conversion that returns has reported 95 last. *)
Lemma with_spaces_last_progress (env : Env) (input voice jid : string)
    (w w' : World) (p : string) :
  convert_voice_continuous_with_spaces env input voice jid w = (Ok p, w') ->
  exists l, progress_log w' = l ++ [95%Z].
Proof.
  intros H. unfold convert_voice_continuous_with_spaces in H.
  apply Run.try_ok_inv in H. destruct H as [H | (e & w1 & _ & H)].
  2:{ apply Run.bind_ok_inv in H. destruct H as (a & w2 & _ & H). discriminate H. }
  apply Run.bind_ok_inv in H. destruct H as (present & w1 & _ & H).
  destruct present; simpl negb in H; [|discriminate H].
  apply Run.bind_ok_inv in H. destruct H as (? & w2 & _ & H).
  apply Run.bind_ok_inv in H. destruct H as (? & w3 & _ & H).
  apply Run.bind_ok_inv in H. destruct H as (sentences & w4 & _ & H).
  destruct (length sentences =? 0)%nat; [discriminate H|].
  apply Run.bind_ok_inv in H. destruct H as (files & w5 & _ & H).
  apply Run.bind_ok_inv in H. destruct H as (? & w6 & _ & H).
  apply Run.bind_ok_inv in H. destruct H as (? & w7 & _ & H).
  apply Run.bind_ok_inv in H. destruct H as (final & w8 & _ & H).
  apply Run.bind_ok_inv in H. destruct H as (? & w9 & H95 & H).
  apply Run.bind_ok_inv in H. destruct H as (? & w10 & Hmsg & H).
  apply Run.bind_ok_inv in H. destruct H as (n & w11 & Hclean & H).
  injection H as _ <-.
  destruct (converter_cleanup_spec w10) as (n' & w' & Hclean' & _ & Hl).
  rewrite Hclean' in Hclean. injection Hclean as _ <-.
  injection Hmsg as _ <-. injection H95 as _ <-.
  exists (progress_log w8). rewrite Hl. reflexivity.
Qed.

(** With [continuous_with_spaces] set, every run that completes has
    reported 95, then 90, then 100. *)
Lemma with_spaces_completed_log (env : Env) (jid input voice : string)
    (continuous same_length timestamp_based continuous_with_spaces : option string)
    (w : World) :
  is_true continuous_with_spaces = true ->
  let w' := (process_audio_file env jid input voice
               continuous same_length timestamp_based continuous_with_spaces w).2 in
  status (job w') = "completed" ->
  exists l, progress_log w' = l ++ [95; 90; 100]%Z.
Proof.
  intros Hcws.
  destruct (run_mode env jid input voice
              continuous same_length timestamp_based continuous_with_spaces w)
    as [[[out chunks]|e] w1] eqn:Hrun.
  - assert (Hlog : exists l, progress_log w1 = l ++ [95%Z]).
    { unfold run_mode in Hrun. cbv zeta in Hrun. rewrite Hcws in Hrun.
      apply Run.bind_ok_inv in Hrun. destruct Hrun as (? & w2 & _ & Hrun).
      apply Run.bind_ok_inv in Hrun. destruct Hrun as (? & w3 & _ & Hrun).
      apply Run.bind_ok_inv in Hrun. destruct Hrun as (? & w4 & _ & Hrun).
      apply Run.bind_ok_inv in Hrun. destruct Hrun as (? & w5 & _ & Hrun).
      apply Run.bind_ok_inv in Hrun. destruct Hrun as (p & w6 & Hconv & Hrun).
      injection Hrun as _ _ <-.
      apply (with_spaces_last_progress env input voice jid w5 w6 p Hconv). }
    destruct Hlog as (l & Hlog).
    destruct (process_audio_file_success env jid input voice _ _ _ _ w w1 out chunks
                Hrun)
      as (w' & Hfile & _ & _ & Hl & _).
    cbv zeta. rewrite Hfile. simpl. intros _. exists l.
    rewrite Hl, Hlog, <- app_assoc. reflexivity.
  - destruct (process_audio_file_failure env jid input voice _ _ _ _ w w1 e Hrun)
      as (w' & Hfile & _ & Hstatus & _).
    cbv zeta. rewrite Hfile. simpl. rewrite Hstatus. discriminate.
Qed.

End Pipeline.

Module PipelineClaims.
Import Main.

(** In the original mode, when every sentence has [start <= end] and is
    synthesized to a clip of positive duration, the run completes and its
    output lasts the sum over the sentences of [int((end - start) * 1000)]
    milliseconds: the matched clips are concatenated, with no silence
    before a sentence and none after the last one. *)
Lemma original_mode_duration (env : Env) (jid input voice : string)
    (continuous same_length timestamp_based continuous_with_spaces : option string)
    (sentences : list AudioSentence) (clip : nat -> AudioSegment.t) (w : World)
    (Hmode : is_true continuous = false /\ is_true same_length = false
             /\ is_true timestamp_based = false
             /\ is_true continuous_with_spaces = false)
    (Htranscribe : transcribe_audio env input = Ok sentences)
    (Hsynth : forall k s, sentences !! k = Some s ->
       text_to_speech env (text s) voice (jid +:+ "_sentence_" +:+ str_nat k)
         = Ok (Wav (clip k))
       /\ AudioSegment.len (clip k) <> 0%Z
       /\ start_time s <= end_time s)
    (Hsome : (0 < slots_ms sentences)%Z)
    (Hinput : input <> final_path env jid) :
  let w' := (process_audio_file env jid input voice
               continuous same_length timestamp_based continuous_with_spaces w).2 in
  status (job w') = "completed"
  /\ duration_at w' (final_path env jid) = Some (slots_ms sentences).
Proof.
  destruct Hmode as (Hc & Hsl & Hts & Hcws).
  destruct (Pipeline.run_mode_original env jid input voice _ _ _ _ sentences clip w
              Hc Hsl Hts Hcws Htranscribe Hsynth Hsome)
    as (w1 & out & Hrun & Hout & Hlen).
  destruct (Pipeline.process_audio_file_success env jid input voice _ _ _ _
              w w1 _ _ Hrun)
    as (w2 & Hfile & Hstatus & _ & _ & Hkeep).
  cbv zeta. rewrite Hfile. simpl. split; [exact Hstatus|].
  unfold duration_at. rewrite (Hkeep Hinput), Hout, Hlen; [reflexivity|].
  intros Hin. apply in_map_iff in Hin. destruct Hin as (k & Hk & _).
  apply Paths.matched_not_final in Hk. exact Hk.
Qed.

(** C2, evaluated. On the three sentences of the end-to-end scenario and
    an original of 8000 ms, the original mode of the background task
    produces about 6170 ms, the sum of the three slots, instead of 8000 ms:
    the gaps of 0.33 s, 0.68 s and 0.34 s and the tail of 0.48 s, more than
    1.8 s in all, are missing. The complete workflow of the test-suite, on
    the same input, inserts them and produces about 8000 ms. The first
    duration is given within 10 ms, three for each matched clip and one
    for the concatenation, and the second within 43 ms, the margin of the
    complete workflow for three sentences. *)
Theorem original_mode_drops_the_gaps :
  duration_at demo_upload "uploads/job_in.wav" = Some 8000%Z
  /\ (exists d,
        duration_at
          (process_audio_file (demo_env demo_sentences) "job" "uploads/job_in.wav"
             "voice" None None None None demo_upload).2
          "outputs/job_final.wav"
        = Some d
        /\ (Z.abs (d - 6170) <= 10)%Z)
  /\ (exists d,
        duration_at
          (CompleteVoiceConverter.convert_voice (demo_env demo_sentences)
             "uploads/job_in.wav" demo_upload).2
          "outputs/job_in.wav"
        = Some d
        /\ (Z.abs (d - 8000) <= 43)%Z).
Proof.
  split; [vm_compute; reflexivity|].
  split; eexists; (split; [vm_compute; reflexivity | lia]).
Qed.

(** The continuous mode of the background task filters nothing: every
    transcribed sentence, valid or not, is synthesized, and the output is
    the clips of all the sentences in their order, with no silence between
    them. *)
Theorem continuous_mode_output (env : Env) (jid input voice : string)
    (continuous same_length timestamp_based continuous_with_spaces : option string)
    (sentences : list AudioSentence) (clip : nat -> AudioSegment.t) (w : World)
    (Hmode : is_true continuous = true /\ is_true same_length = false
             /\ is_true timestamp_based = false
             /\ is_true continuous_with_spaces = false)
    (Htranscribe : transcribe_audio env input = Ok sentences)
    (Hsynth : forall k s, sentences !! k = Some s ->
       text_to_speech env (text s) voice (jid +:+ "_sentence_" +:+ str_nat k)
         = Ok (Wav (clip k)))
    (Hsome : concat (List.map clip (seq 0 (length sentences))) <> [])
    (Hinput : input <> continuous_path env jid) :
  let w' := (process_audio_file env jid input voice
               continuous same_length timestamp_based continuous_with_spaces w).2 in
  status (job w') = "completed"
  /\ fs w' !! continuous_path env jid
     = Some (Wav (concat (List.map clip (seq 0 (length sentences))))).
Proof.
  destruct Hmode as (Hc & Hsl & Hts & Hcws).
  destruct (Pipeline.run_mode_continuous env jid input voice _ _ _ _ sentences clip w
              Hc Hsl Hts Hcws Htranscribe Hsynth Hsome)
    as (w1 & Hrun & Hout).
  destruct (Pipeline.process_audio_file_success env jid input voice _ _ _ _
              w w1 _ _ Hrun)
    as (w2 & Hfile & Hstatus & _ & _ & Hkeep).
  cbv zeta. rewrite Hfile. simpl. split; [exact Hstatus|].
  rewrite (Hkeep Hinput); [exact Hout|].
  intros Hin. apply in_map_iff in Hin. destruct Hin as (k & Hk & _).
  apply Paths.sentence_not_continuous in Hk. exact Hk.
Qed.

Lemma continuous_mode_output_witness :
  let w' := (process_audio_file (demo_env mixed_sentences) "job" "uploads/job_in.wav"
               "voice" (Some "true") None None None demo_upload).2 in
  status (job w') = "completed"
  /\ fs w' !! continuous_path (demo_env mixed_sentences) "job"
     = Some (Wav (concat (List.map (demo_clip mixed_sentences)
                            (seq 0 (length mixed_sentences))))).
Proof.
  apply (continuous_mode_output (demo_env mixed_sentences) "job" "uploads/job_in.wav"
           "voice" (Some "true") None None None mixed_sentences
           (demo_clip mixed_sentences) demo_upload).
  - repeat split.
  - reflexivity.
  - intros k s Hk. unfold demo_clip. rewrite Hk. reflexivity.
  - vm_compute. discriminate.
  - discriminate.
Defined.

(** C6, evaluated. The second sentence lasts 0.05 s and has one letter,
    so the validity rule rejects it, yet the continuous mode of the
    background task synthesizes it and its clip ends the output. The
    continuous converter of backend/test_continuous_no_gaps.py filters
    the same sentences first and keeps the first one only. *)
Lemma continuous_mode_keeps_invalid_sentence :
  List.map (fun s => SentenceProcessor.keeps (to_dict s)) mixed_sentences
  = [true; false]
  /\ fs (process_audio_file (demo_env mixed_sentences) "job" "uploads/job_in.wav"
           "voice" (Some "true") None None None demo_upload).2
       !! "outputs/job_continuous.wav"
     = Some (Wav (demo_speech "Hello world" ++ demo_speech "a"))
  /\ AudioSegment.len (demo_speech "a") = 100%Z
  /\ ContinuousNoGaps._filter_valid_sentences mixed_sentences
     = firstn 1 mixed_sentences.
Proof.
  split; [reflexivity|]. split; [vm_compute; reflexivity|].
  split; [vm_compute; reflexivity | reflexivity].
Qed.

(** C8, evaluated. With [continuous_with_spaces] set, a successful run on
    the three sentences of the end-to-end scenario reports 95 from inside
    the converter and then 90 from the task: the progress goes down before
    it reaches 100. *)
Theorem progress_with_spaces_goes_down :
  let w' := (process_audio_file (demo_env demo_sentences) "job" "uploads/job_in.wav"
               "voice" None None None (Some "true") demo_upload).2 in
  status (job w') = "completed"
  /\ progress_log w' = [0; 10; 15; 20; 36; 53; 75; 95; 90; 100]%Z.
Proof.
  split; vm_compute; reflexivity.
Qed.

(** C9, evaluated. In the original mode, when the voice service fails on
    the second of the three sentences, the task reports the failure with
    its message, but nothing is cleaned: the upload, the clip of the first
    sentence as the voice service gave it and its timing-matched clip are
    all still on disk. *)
Theorem failed_run_leaves_intermediate_files :
  let w' := (process_audio_file (failing_env demo_sentences "job_sentence_1") "job"
               "uploads/job_in.wav" "voice" None None None None demo_upload).2 in
  status (job w') = "failed"
  /\ error (job w')
     = Some "ElevenLabs speech generation failed: ElevenLabs API error: 500"
  /\ duration_at w' "uploads/job_in.wav" = Some 8000%Z
  /\ duration_at w' "outputs/job_sentence_0.wav" = Some 600%Z
  /\ is_Some (fs w' !! "outputs/job_matched_0.wav").
Proof.
  cbv zeta. split; [vm_compute; reflexivity|]. split; [vm_compute; reflexivity|].
  split; [vm_compute; reflexivity|]. split; [vm_compute; reflexivity|].
  eexists. vm_compute. reflexivity.
Qed.

End PipelineClaims.

(** * Further properties of the code *)

(** ** Sentence filtering and the continuous timeline *)

Module FilterFacts.
Import SentenceProcessor.

Lemma filter_keeps_twice (l : list SentenceDict) :
  List.filter keeps (List.filter keeps l) = List.filter keeps l.
Proof.
  induction l as [|s l IH]; simpl; [reflexivity|].
  destruct (keeps s) eqn:E; simpl; [rewrite E, IH; reflexivity | exact IH].
Qed.

Lemma filter_keeps_sublist (l : list SentenceDict) :
  sublist (List.filter keeps l) l.
Proof.
  induction l as [|s l IH]; simpl; [constructor|].
  destruct (keeps s); constructor; exact IH.
Qed.

(** X1. [_filter_empty_spaces] only drops sentences: what it returns is a
    sub-list of its input, in the input's order, and filtering a second
    time changes nothing. *)
Theorem filter_empty_spaces_idempotent (sentences : list SentenceDict) :
  sublist (_filter_empty_spaces sentences) sentences
  /\ _filter_empty_spaces (_filter_empty_spaces sentences)
     = _filter_empty_spaces sentences.
Proof.
  rewrite !FilterClaims.filter_empty_spaces_filter. split.
  - apply filter_keeps_sublist.
  - apply filter_keeps_twice.
Qed.

Lemma timeline_targets_nonneg (sentences : list SentenceDict) :
  Forall (fun p : SentenceDict * Q => 0 <= p.2)
    (_create_continuous_timeline (_filter_empty_spaces sentences)).
Proof.
  rewrite FilterClaims.filter_empty_spaces_filter.
  unfold _create_continuous_timeline.
  apply List.Forall_forall. intros p Hp.
  apply List.in_map_iff in Hp. destruct Hp as [s [<- Hs]].
  apply List.filter_In in Hs. destruct Hs as [_ Hk].
  apply FilterClaims.keeps_true in Hk. simpl. lra.
Qed.

(** X2. The timeline built from the filtered sentences keeps them in
    order, gives each one its own original duration as target, and no
    target is below 0.1 s: the length adjustment is never asked for a
    negative or a tiny duration. *)
Theorem continuous_timeline_targets (sentences : list SentenceDict) :
  let timeline := _create_continuous_timeline (_filter_empty_spaces sentences) in
  List.map fst timeline = _filter_empty_spaces sentences
  /\ Forall (fun p => p.2 = d_end_time p.1 - d_start_time p.1 /\ 0.1 <= p.2) timeline.
Proof.
  cbv zeta. rewrite FilterClaims.filter_empty_spaces_filter.
  unfold _create_continuous_timeline. split.
  - rewrite List.map_map. simpl. apply List.map_id.
  - apply List.Forall_forall. intros p Hp.
    apply List.in_map_iff in Hp. destruct Hp as [s [<- Hs]].
    apply List.filter_In in Hs. destruct Hs as [_ Hk].
    apply FilterClaims.keeps_true in Hk. simpl. split; [reflexivity | tauto].
Qed.

End FilterFacts.

(** ** Gap analysis *)

Module GapFacts.
Import SentenceProcessor.

Lemma insert_sorted_ordered (x : SentenceDict) (l : list SentenceDict) :
  StronglySorted (fun a b => d_start_time a <= d_start_time b) l ->
  StronglySorted (fun a b => d_start_time a <= d_start_time b) (insert_sorted x l).
Proof.
  induction l as [|y l IH]; simpl; intros H.
  - constructor; constructor.
  - apply StronglySorted_inv in H. destruct H as [Hl Hy].
    destruct (Py.ltb (d_start_time y) (d_start_time x)) eqn:E.
    + constructor; [apply IH; exact Hl|].
      apply (Permutation_Forall (GapAnalysis.insert_sorted_perm x l)).
      constructor; [|exact Hy].
      apply ltb_true in E. apply Qlt_le_weak. exact E.
    + apply ltb_false in E.
      constructor; [constructor; assumption|].
      constructor; [exact E|].
      eapply List.Forall_impl; [|exact Hy].
      intros z Hz. simpl in Hz. eapply Qle_trans; eassumption.
Qed.

Lemma sorted_fixes_ordered (l : list SentenceDict) :
  StronglySorted (fun a b => d_start_time a <= d_start_time b) l -> sorted l = l.
Proof.
  induction l as [|x l IH]; intros H; [reflexivity|].
  apply StronglySorted_inv in H. destruct H as [Hl Hx].
  unfold sorted in *. simpl. rewrite (IH Hl).
  destruct l as [|y l']; [reflexivity|]. simpl.
  apply List.Forall_inv in Hx. apply ltb_false in Hx. rewrite Hx. reflexivity.
Qed.

(** X3. The analysis works on a chronological copy of its input:
    [sorted] returns the same sentences ordered by start time. *)
Theorem sorted_by_start_time (l : list SentenceDict) :
  Permutation l (sorted l)
  /\ StronglySorted (fun a b => d_start_time a <= d_start_time b) (sorted l).
Proof.
  split; [apply GapAnalysis.sorted_perm|].
  induction l as [|x l IH]; [constructor|].
  apply (insert_sorted_ordered x _ IH).
Qed.

Lemma gap_loop_gaps (P : Gap -> Prop) :
  (forall p s,
     Py.gtb (d_start_time s - d_end_time p) 0.1 = true ->
     P {| gap_start := d_end_time p; gap_end := d_start_time s;
          gap_duration := d_start_time s - d_end_time p |}) ->
  forall l prev gaps acc, Forall P gaps -> Forall P (gap_loop prev l gaps acc).1.
Proof.
  intros HP. induction l as [|s l IH]; intros prev gaps acc Hg; simpl; [exact Hg|].
  apply IH. destruct prev as [p|]; [|exact Hg].
  destruct (Py.gtb (d_start_time s - d_end_time p) 0.1) eqn:E; [|exact Hg].
  apply List.Forall_app. split; [exact Hg|]. constructor; [|constructor].
  apply HP. exact E.
Qed.

Lemma gap_loop_count (l : list SentenceDict) :
  forall p gaps acc,
    (length (gap_loop (Some p) l gaps acc).1 <= length gaps + length l)%nat.
Proof.
  induction l as [|s l IH]; intros p gaps acc; simpl; [lia|].
  destruct (Py.gtb (d_start_time s - d_end_time p) 0.1).
  - pose proof (IH s
                  (gaps ++ [ {| gap_start := d_end_time p;
                                gap_end := d_start_time s;
                                gap_duration := d_start_time s - d_end_time p |} ])
                  (acc + (d_end_time s - d_start_time s))) as H.
    rewrite length_app in H. simpl in H. lia.
  - pose proof (IH s gaps (acc + (d_end_time s - d_start_time s))) as H. lia.
Qed.

Lemma sum_gaps_shift (g : list Gap) :
  forall a,
    List.fold_left (fun acc x => acc + gap_duration x) g a
    == a + List.fold_left (fun acc x => acc + gap_duration x) g 0.
Proof.
  induction g as [|x g IH]; intros a; simpl; [ring|].
  rewrite (IH (a + gap_duration x)), (IH (0 + gap_duration x)). ring.
Qed.

Lemma sum_gaps_cons (x : Gap) (g : list Gap) :
  sum_gap_durations (x :: g) == gap_duration x + sum_gap_durations g.
Proof.
  unfold sum_gap_durations. simpl. rewrite sum_gaps_shift. ring.
Qed.

Lemma sum_gaps_snoc (g : list Gap) (x : Gap) :
  sum_gap_durations (g ++ [x]) == sum_gap_durations g + gap_duration x.
Proof.
  unfold sum_gap_durations. rewrite List.fold_left_app. simpl. reflexivity.
Qed.

Lemma sum_gaps_lower (g : list Gap) :
  Forall (fun x => 0.1 < gap_duration x) g ->
  0.1 * inject_Z (Z.of_nat (length g)) <= sum_gap_durations g.
Proof.
  induction g as [|x g IH]; intros H.
  - apply Qle_bool_iff. reflexivity.
  - apply List.Forall_cons_iff in H. destruct H as [Hx Hg].
    rewrite sum_gaps_cons. specialize (IH Hg).
    change (length (x :: g)) with (S (length g)).
    rewrite Nat2Z.inj_succ. unfold Z.succ. rewrite inject_Z_plus.
    change (inject_Z 1) with 1. lra.
Qed.

Lemma analysis_gaps (l : list SentenceDict) :
  gaps (analyze_sentence_gaps l) =
    match sorted l with
    | first :: _ =>
        if Py.gtb (d_start_time first) 0.1
        then {| gap_start := 0; gap_end := d_start_time first;
                gap_duration := d_start_time first |}
             :: (gap_loop None (sorted l) [] 0).1
        else (gap_loop None (sorted l) [] 0).1
    | [] => (gap_loop None (sorted l) [] 0).1
    end.
Proof.
  unfold analyze_sentence_gaps.
  destruct (gap_loop None (sorted l) [] 0) as [g t]. reflexivity.
Qed.

Lemma analysis_total_gap_time (l : list SentenceDict) :
  total_gap_time (analyze_sentence_gaps l)
  = sum_gap_durations (gaps (analyze_sentence_gaps l)).
Proof.
  unfold analyze_sentence_gaps.
  destruct (gap_loop None (sorted l) [] 0) as [g t]. reflexivity.
Qed.

Lemma analysis_gaps_threshold (l : list SentenceDict) :
  Forall (fun g => 0.1 < gap_duration g
                   /\ gap_duration g == gap_end g - gap_start g)
         (gaps (analyze_sentence_gaps l)).
Proof.
  rewrite analysis_gaps.
  assert (Hloop : Forall (fun g => 0.1 < gap_duration g
                                   /\ gap_duration g == gap_end g - gap_start g)
                         (gap_loop None (sorted l) [] 0).1).
  { apply gap_loop_gaps; [|constructor].
    intros p s E. apply gtb_true in E. simpl. split; [exact E | reflexivity]. }
  destruct (sorted l) as [|first rest] eqn:Es; [exact Hloop|].
  destruct (Py.gtb (d_start_time first) 0.1) eqn:E; [|exact Hloop].
  constructor; [|exact Hloop].
  apply gtb_true in E. simpl. split; [exact E | ring].
Qed.

(** X4. Every gap the analysis reports is longer than 0.1 s and its
    duration is its end minus its start; so the total gap time is at
    least 0.1 s per reported gap. *)
Theorem reported_gaps_exceed_threshold (l : list SentenceDict) :
  Forall (fun g => 0.1 < gap_duration g
                   /\ gap_duration g == gap_end g - gap_start g)
         (gaps (analyze_sentence_gaps l))
  /\ 0.1 * inject_Z (Z.of_nat (length (gaps (analyze_sentence_gaps l))))
     <= total_gap_time (analyze_sentence_gaps l).
Proof.
  split; [apply analysis_gaps_threshold|].
  rewrite analysis_total_gap_time. apply sum_gaps_lower.
  eapply List.Forall_impl; [|apply analysis_gaps_threshold].
  intros g Hg. simpl in Hg. tauto.
Qed.

Lemma keeps_count (l : list SentenceDict) :
  (length (List.filter keeps l)
   <= length (List.filter (fun s => Py.geb (d_end_time s - d_start_time s) 0.1) l))%nat.
Proof.
  induction l as [|s l IH]; simpl; [lia|].
  destruct (keeps s) eqn:Ek.
  - apply FilterClaims.keeps_true in Ek. destruct Ek as [Hd _].
    apply Qle_bool_iff in Hd.
    change (Py.geb (d_end_time s - d_start_time s) 0.1 = true) in Hd.
    rewrite Hd. simpl. lia.
  - destruct (Py.geb (d_end_time s - d_start_time s) 0.1); simpl; lia.
Qed.

(** X5. The counts of the analysis: there are never more gaps than
    sentences, and the sentences [_filter_empty_spaces] keeps are at most
    [filtered_sentences], which is at most [total_sentences]. *)
Theorem analysis_counts (l : list SentenceDict) :
  (length (gaps (analyze_sentence_gaps l)) <= length l)%nat
  /\ (length (_filter_empty_spaces l) <= filtered_sentences (analyze_sentence_gaps l))%nat
  /\ (filtered_sentences (analyze_sentence_gaps l)
      <= total_sentences (analyze_sentence_gaps l))%nat
  /\ total_sentences (analyze_sentence_gaps l) = length l.
Proof.
  split; [|split; [|split]].
  - rewrite analysis_gaps.
    rewrite (Permutation_length (GapAnalysis.sorted_perm l)).
    destruct (sorted l) as [|first rest] eqn:Es; [simpl; lia|].
    pose proof (gap_loop_count rest first []
                  (0 + (d_end_time first - d_start_time first))) as H.
    simpl in H.
    destruct (Py.gtb (d_start_time first) 0.1); simpl; lia.
  - rewrite FilterClaims.filter_empty_spaces_filter.
    unfold analyze_sentence_gaps.
    destruct (gap_loop None (sorted l) [] 0) as [g t].
    cbn [filtered_sentences]. apply keeps_count.
  - unfold analyze_sentence_gaps.
    destruct (gap_loop None (sorted l) [] 0) as [g t].
    cbn [filtered_sentences total_sentences]. apply List.filter_length_le.
  - unfold analyze_sentence_gaps.
    destruct (gap_loop None (sorted l) [] 0) as [g t]. reflexivity.
Qed.

End GapFacts.

Module GapAccounting.
Import SentenceProcessor.

Lemma chronological_ordered (l : list SentenceDict) :
  forall t,
    chronological t l ->
    Forall (fun s => t <= d_start_time s) l
    /\ StronglySorted (fun a b => d_start_time a <= d_start_time b) l.
Proof.
  induction l as [|s l IH]; intros t H; [split; constructor|].
  simpl in H. destruct H as [Ht [Hs Hrest]].
  destruct (IH _ Hrest) as [Hall Hsorted].
  assert (Hfrom : Forall (fun x => d_start_time s <= d_start_time x) l).
  { eapply List.Forall_impl; [|exact Hall].
    intros x Hx. simpl in Hx. eapply Qle_trans; eassumption. }
  split.
  - constructor; [exact Ht|].
    eapply List.Forall_impl; [|exact Hfrom].
    intros x Hx. simpl in Hx. eapply Qle_trans; eassumption.
  - constructor; assumption.
Qed.

Lemma last_of_nonempty (l : list SentenceDict) :
  forall s, exists x, List.last (List.map Some (s :: l)) None = Some x.
Proof.
  induction l as [|s' l IH]; intros s; [exists s; reflexivity|].
  destruct (IH s') as [x Hx]. exists x.
  change (List.last (Some s :: List.map Some (s' :: l)) None)
    with (List.last (List.map Some (s' :: l)) None).
  exact Hx.
Qed.

Lemma last_end_last (l : list SentenceDict) :
  forall t,
    last_end t l =
      match List.last (List.map Some l) None with
      | Some s => d_end_time s
      | None => t
      end.
Proof.
  induction l as [|s l IH]; intros t; [reflexivity|].
  cbn [last_end]. rewrite IH. destruct l as [|s' l']; [reflexivity|].
  change (List.last (List.map Some (s :: s' :: l')) None)
    with (List.last (List.map Some (s' :: l')) None).
  destruct (last_of_nonempty l' s') as [x Hx]. rewrite Hx. reflexivity.
Qed.

Lemma inject_nat_succ (n : nat) :
  inject_Z (Z.of_nat (S n)) == inject_Z (Z.of_nat n) + 1.
Proof.
  rewrite Nat2Z.inj_succ. unfold Z.succ. rewrite inject_Z_plus. reflexivity.
Qed.

(** The loop adds to speech and gaps what lies between the end of the
    previous sentence and the end of the last one, less at most 0.1 s
    for each gap it does not report. *)
Lemma gap_loop_accounting (l : list SentenceDict) :
  forall p gaps acc,
    chronological (d_end_time p) l ->
    (gap_loop (Some p) l gaps acc).2 + sum_gap_durations (gap_loop (Some p) l gaps acc).1
    <= acc + sum_gap_durations gaps + (last_end (d_end_time p) l - d_end_time p)
    /\ acc + sum_gap_durations gaps + (last_end (d_end_time p) l - d_end_time p)
       - 0.1 * inject_Z (Z.of_nat (length l))
       <= (gap_loop (Some p) l gaps acc).2
          + sum_gap_durations (gap_loop (Some p) l gaps acc).1.
Proof.
  induction l as [|s l IH]; intros p gaps acc H.
  - simpl. change (inject_Z (Z.of_nat 0)) with 0. split; lra.
  - simpl in H. destruct H as [Hp [Hs Hrest]].
    change (length (s :: l)) with (S (length l)). rewrite inject_nat_succ.
    cbn [gap_loop last_end].
    destruct (Py.gtb (d_start_time s - d_end_time p) 0.1) eqn:E.
    + destruct (IH s
                  (gaps ++ [ {| gap_start := d_end_time p;
                                gap_end := d_start_time s;
                                gap_duration := d_start_time s - d_end_time p |} ])
                  (acc + (d_end_time s - d_start_time s)) Hrest) as [Hup Hlow].
      rewrite GapFacts.sum_gaps_snoc in Hup, Hlow. simpl in Hup, Hlow.
      split; lra.
    + destruct (IH s gaps (acc + (d_end_time s - d_start_time s)) Hrest)
        as [Hup Hlow].
      assert (Hgap : d_start_time s - d_end_time p <= 0.1).
      { apply ltb_false. exact E. }
      split; lra.
Qed.

(** X6. For sentences in chronological order that do not overlap, the
    analysis accounts for the whole duration: speech time plus reported
    gap time matches the total duration, less at most 0.1 s per sentence
    (the gaps too short to be reported). Both bounds are stated within a
    millisecond, which is far more than the float sums of the program can
    be off by. *)
Theorem speech_and_gaps_fill_the_duration (l : list SentenceDict)
    (Hchron : chronological 0 l) :
  total_speech_time (analyze_sentence_gaps l) + total_gap_time (analyze_sentence_gaps l)
  <= total_duration (analyze_sentence_gaps l) + 0.001
  /\ total_duration (analyze_sentence_gaps l) - 0.1 * inject_Z (Z.of_nat (length l))
     - 0.001
     <= total_speech_time (analyze_sentence_gaps l)
        + total_gap_time (analyze_sentence_gaps l).
Proof.
  destruct (chronological_ordered l 0 Hchron) as [_ Hsorted].
  assert (Htotal : total_duration (analyze_sentence_gaps l) = last_end 0 l).
  { rewrite last_end_last. unfold analyze_sentence_gaps.
    rewrite (GapFacts.sorted_fixes_ordered l Hsorted).
    destruct (gap_loop None l [] 0) as [g t]. reflexivity. }
  rewrite Htotal, GapFacts.analysis_total_gap_time, GapFacts.analysis_gaps,
    GapAnalysis.analysis_total_speech_time.
  rewrite (GapFacts.sorted_fixes_ordered l Hsorted).
  destruct l as [|first rest].
  - simpl. change (inject_Z (Z.of_nat 0)) with 0. unfold sum_gap_durations. simpl. split; lra.
  - simpl in Hchron. destruct Hchron as [H0 [Hfirst Hrest]].
    change (length (first :: rest)) with (S (length rest)). rewrite inject_nat_succ.
    cbn [gap_loop last_end].
    destruct (gap_loop_accounting rest first []
                (0 + (d_end_time first - d_start_time first)) Hrest) as [Hup Hlow].
    change (sum_gap_durations []) with 0 in Hup, Hlow.
    destruct (Py.gtb (d_start_time first) 0.1) eqn:E.
    + rewrite GapFacts.sum_gaps_cons. simpl. split; lra.
    + assert (Hlead : d_start_time first <= 0.1) by (apply ltb_false; exact E).
      split; lra.
Qed.

Lemma speech_and_gaps_fill_the_duration_witness :
  let l := List.map to_dict demo_sentences in
  total_speech_time (analyze_sentence_gaps l) + total_gap_time (analyze_sentence_gaps l)
  <= total_duration (analyze_sentence_gaps l) + 0.001
  /\ total_duration (analyze_sentence_gaps l) - 0.1 * inject_Z (Z.of_nat (length l))
     - 0.001
     <= total_speech_time (analyze_sentence_gaps l)
        + total_gap_time (analyze_sentence_gaps l).
Proof.
  apply (speech_and_gaps_fill_the_duration (List.map to_dict demo_sentences)).
  simpl. repeat split; apply Qle_bool_iff; reflexivity.
Defined.

End GapAccounting.

(** ** Duration matching and concatenation *)

Module AudioFacts.
Import AudioProcessor.

(** [int] does not tell equal non-negative floats apart. *)
Lemma int_proper (x y : Q) : 0 <= x -> x == y -> Py.int x = Py.int y.
Proof.
  intros Hx Hxy.
  assert (Hy : 0 <= y) by lra.
  destruct (int_floor x Hx) as [Hx1 Hx2].
  destruct (int_floor y Hy) as [Hy1 Hy2].
  assert (H1 : inject_Z (Py.int x) < inject_Z (Py.int y + 1)).
  { rewrite inject_Z_plus. change (inject_Z 1) with 1. lra. }
  assert (H2 : inject_Z (Py.int y) < inject_Z (Py.int x + 1)).
  { rewrite inject_Z_plus. change (inject_Z 1) with 1. lra. }
  rewrite <- Zlt_Qlt in H1. rewrite <- Zlt_Qlt in H2. lia.
Qed.

Lemma int_of_Z (z : Z) : Py.int (inject_Z z) = z.
Proof. unfold Py.int. simpl. apply Z.quot_1_r. Qed.

Lemma slice_to_firstn (a : AudioSegment.t) (stop : Z) :
  (0 <= stop <= AudioSegment.len a)%Z ->
  AudioSegment.slice_to a stop = firstn (Z.to_nat stop) a.
Proof.
  intros H. unfold AudioSegment.slice_to.
  rewrite (Z.min_l stop) by lia.
  destruct (stop <? 0)%Z eqn:E; [apply Z.ltb_lt in E; lia|].
  rewrite E. rewrite (Z.min_l stop) by lia. reflexivity.
Qed.

Lemma pad_or_trim_exact (a : AudioSegment.t) (ms : nat) :
  length a = ms -> pad_or_trim a ms = a.
Proof.
  intros H. unfold pad_or_trim. rewrite H, Nat.sub_diag. simpl.
  rewrite app_nil_r. rewrite <- H. apply firstn_all.
Qed.

Lemma pad_or_trim_short (a : AudioSegment.t) (ms : nat) :
  (length a <= ms)%nat -> pad_or_trim a ms = a ++ repeat 0%Z (ms - length a).
Proof.
  intros H. unfold pad_or_trim. apply firstn_all2.
  rewrite length_app, repeat_length. lia.
Qed.

Lemma pad_or_trim_long (a : AudioSegment.t) (ms : nat) :
  (ms <= length a)%nat -> pad_or_trim a ms = firstn ms a.
Proof.
  intros H. unfold pad_or_trim.
  replace (ms - length a)%nat with 0%nat by lia. simpl.
  rewrite app_nil_r. reflexivity.
Qed.

Lemma ensure_exact_duration_ms (audio : AudioSegment.t) (target_duration : Q) :
  (0 <= Py.int (target_duration * 1000))%Z ->
  _ensure_exact_duration audio target_duration
  = pad_or_trim audio (Z.to_nat (Py.int (target_duration * 1000))).
Proof.
  intros Hms. unfold _ensure_exact_duration, AudioSegment.len.
  destruct (Z.of_nat (length audio) <? Py.int (target_duration * 1000))%Z eqn:E1.
  - apply Z.ltb_lt in E1. rewrite pad_or_trim_short by lia.
    unfold AudioSegment.add, AudioSegment.silent. f_equal. f_equal. lia.
  - apply Z.ltb_ge in E1.
    destruct (Z.of_nat (length audio) >? Py.int (target_duration * 1000))%Z eqn:E2.
    + apply Z.gtb_lt in E2. rewrite pad_or_trim_long by lia.
      apply slice_to_firstn. unfold AudioSegment.len. lia.
    + rewrite Z.gtb_ltb in E2. apply Z.ltb_ge in E2.
      symmetry. apply pad_or_trim_exact. lia.
Qed.

(** X7. [_ensure_exact_duration] never alters a millisecond of the clip:
    for a non-negative target its result is the clip cut, or the clip
    followed by silence, and its length is the target in whole
    milliseconds, within 2 ms: one for the rounding of the float product
    and one for the rounding of pydub's lengths. *)
Theorem ensure_exact_duration_pads_or_trims (audio : AudioSegment.t)
    (target_duration : Q) (Htarget : 0 <= target_duration) :
  exists ms : nat,
    (Z.abs (Z.of_nat ms - Py.int (target_duration * 1000)) <= 2)%Z
    /\ _ensure_exact_duration audio target_duration = pad_or_trim audio ms.
Proof.
  assert (Hms : (0 <= Py.int (target_duration * 1000))%Z) by (apply int_nonneg; lra).
  exists (Z.to_nat (Py.int (target_duration * 1000))). split.
  - rewrite Z2Nat.id by exact Hms. lia.
  - apply ensure_exact_duration_ms. exact Hms.
Qed.

Lemma ensure_exact_duration_pads_or_trims_witness :
  exists ms : nat,
    (Z.abs (Z.of_nat ms - Py.int (0.005 * 1000)) <= 2)%Z
    /\ _ensure_exact_duration [1; 2; 3]%Z 0.005 = pad_or_trim [1; 2; 3]%Z ms.
Proof.
  apply (ensure_exact_duration_pads_or_trims [1; 2; 3]%Z 0.005).
  apply Qle_bool_iff. reflexivity.
Defined.

End AudioFacts.

Module TimingFacts.
Import AudioProcessor.

Lemma ratio_times_length (len : Z) (target : Q) :
  (0 < len)%Z ->
  inject_Z len * (target / (inject_Z len / 1000)) == target * 1000.
Proof.
  intros H. rewrite Zlt_Qlt in H. change (inject_Z 0) with 0 in H.
  field. intros H0. rewrite H0 in H. apply (Qlt_irrefl 0). exact H.
Qed.

Lemma speedup_fallback (env : Env) (clip : AudioSegment.t) (ratio : Q) :
  (forall speed, exists x, speedup env clip speed = Raise x) ->
  exists x, speedup_by_inverse env clip ratio = Raise x.
Proof.
  intros H. unfold speedup_by_inverse.
  destruct (Py.eqb ratio 0); [eexists; reflexivity | apply H].
Qed.

(** Without [speedup], the clip that [match_timing] writes is the cloned
    clip cut or padded. *)
Lemma timing_matched_without_speedup (env : Env) (clip : AudioSegment.t) (s e : Q) :
  (0 < AudioSegment.len clip)%Z ->
  s <= e ->
  (forall speed, exists x, speedup env clip speed = Raise x) ->
  timing_matched env clip s e
  = pad_or_trim clip (Z.to_nat (Py.int ((e - s) * 1000))).
Proof.
  intros Hlen Htarget Hspeedup.
  assert (Hms : (0 <= Py.int ((e - s) * 1000))%Z) by (apply int_nonneg; lra).
  pose proof (ratio_times_length (AudioSegment.len clip) (e - s) Hlen) as Hr.
  assert (HL : 0 < inject_Z (AudioSegment.len clip)).
  { rewrite Zlt_Qlt in Hlen. exact Hlen. }
  destruct (int_floor ((e - s) * 1000) ltac:(lra)) as [Hf1 Hf2].
  unfold timing_matched.
  rewrite AudioFacts.ensure_exact_duration_ms by exact Hms.
  set (ratio := (e - s) / (inject_Z (AudioSegment.len clip) / 1000)) in *.
  assert (Hint : Py.int (inject_Z (AudioSegment.len clip) * ratio)
                 = Py.int ((e - s) * 1000)).
  { apply AudioFacts.int_proper; [|exact Hr]. rewrite Hr. lra. }
  destruct (Py.ltb (Py.abs (ratio - 1)) 0.05); [reflexivity|].
  destruct (speedup_fallback env clip ratio Hspeedup) as [x Hx].
  destruct (Py.gtb ratio 1) eqn:Eg.
  - apply gtb_true in Eg.
    assert (Hlong : (AudioSegment.len clip <= Py.int ((e - s) * 1000))%Z).
    { assert (H : inject_Z (AudioSegment.len clip)
                  < inject_Z (Py.int ((e - s) * 1000) + 1)).
      { rewrite inject_Z_plus. change (inject_Z 1) with 1. nra. }
      rewrite <- Zlt_Qlt in H. lia. }
    unfold _stretch_audio. rewrite Hx, Hint.
    unfold AudioSegment.add, AudioSegment.silent, AudioSegment.len in *.
    rewrite AudioFacts.pad_or_trim_exact.
    + rewrite AudioFacts.pad_or_trim_short by lia. f_equal. f_equal. lia.
    + rewrite length_app, repeat_length. lia.
  - apply ltb_false in Eg.
    assert (Hshort : (Py.int ((e - s) * 1000) <= AudioSegment.len clip)%Z).
    { assert (H : inject_Z (Py.int ((e - s) * 1000))
                  <= inject_Z (AudioSegment.len clip)) by nra.
      rewrite <- Zle_Qle in H. exact H. }
    unfold _compress_audio. rewrite Hx, Hint.
    rewrite AudioFacts.slice_to_firstn by lia.
    unfold AudioSegment.len in *.
    rewrite AudioFacts.pad_or_trim_exact.
    + rewrite AudioFacts.pad_or_trim_long by lia. reflexivity.
    + rewrite length_firstn. lia.
Qed.



(** X9. [match_timing] touches one file only: it leaves the job record,
    the tracked temporary files and every path but its output path as
    they were, and when it raises it has written nothing at all. *)
Theorem match_timing_frame (env : Env) (w : World) (path : string)
    (s e : Q) (name : string) :
  let out := path_join (OUTPUT_DIR env) (name +:+ ".wav") in
  let r := match_timing env path s e name w in
  only_files_changed w r.2
  /\ (forall q, q <> out -> fs r.2 !! q = fs w !! q)
  /\ (forall x, r.1 = Raise x -> r.2 = w).
Proof.
  cbv zeta.
  destruct (fs w !! path) as [[clip|]|] eqn:Hfile.
  - destruct (Z.eq_dec (AudioSegment.len clip) 0%Z) as [Hz|Hnz].
    + rewrite (Timing.match_timing_empty_clip env w path clip s e name Hfile Hz).
      simpl. repeat split; reflexivity.
    + rewrite (Timing.match_timing_loaded env w path clip s e name Hfile Hnz).
      simpl. repeat split.
      * intros q Hq. apply lookup_insert_ne. congruence.
      * intros x Hx. discriminate.
  - rewrite (Timing.match_timing_unreadable env w path s e name)
      by (intros clip; congruence).
    simpl. repeat split; reflexivity.
  - rewrite (Timing.match_timing_unreadable env w path s e name)
      by (intros clip; congruence).
    simpl. repeat split; reflexivity.
Qed.

Lemma total_loaded_len (w : World) (paths : list string) :
  AudioSegment.len (concat (List.map (loaded_or_silence (fs w)) paths))
  = total_loaded_ms w paths.
Proof.
  induction paths as [|p paths IH]; [reflexivity|].
  cbn [List.map concat total_loaded_ms]. rewrite Pipeline.len_app, IH. f_equal.
  unfold loaded_or_silence, loaded_ms, duration_at.
  destruct (fs w !! p) as [[a|]|]; reflexivity.
Qed.

(** X10. [concatenate_audio] writes one file only, and nothing when it
    raises. When it returns, the output lasts as long as the readable
    inputs together plus one second for every input that could not be
    read, within one millisecond per input for the rounding of pydub's
    lengths; it raises only [Exception]. *)
Theorem concatenate_audio_duration (env : Env) (paths : list string)
    (name : string) (w : World) :
  let out := path_join (OUTPUT_DIR env) (name +:+ ".wav") in
  let r := concatenate_audio env paths name w in
  (forall p, r.1 = Ok p ->
     p = out
     /\ exists d,
          duration_at r.2 out = Some d
          /\ (Z.abs (d - total_loaded_ms w paths) <= Z.of_nat (length paths))%Z)
  /\ only_files_changed w r.2
  /\ (forall q, q <> out -> fs r.2 !! q = fs w !! q)
  /\ (forall x, r.1 = Raise x -> r.2 = w /\ exn_class x = "Exception").
Proof.
  cbv zeta.
  destruct paths as [|p0 paths0] eqn:Hpaths.
  { simpl. repeat split; try reflexivity; intros; try discriminate.
    inversion H. reflexivity. }
  rewrite <- Hpaths.
  destruct (Z.eq_dec (total_loaded_ms w paths) 0%Z) as [Hz|Hnz].
  - assert (Hr : concatenate_audio env paths name w
                 = (Raise (Exception
                      "Audio concatenation failed: No valid audio segments found"), w)).
    { rewrite Hpaths. unfold concatenate_audio, try_except, mbind, M_bind.
      rewrite Concatenation.concatenate_loop_spec. rewrite <- Hpaths.
      change (AudioSegment.empty ++ concat (List.map (loaded_or_silence (fs w)) paths))
        with (concat (List.map (loaded_or_silence (fs w)) paths)).
      rewrite total_loaded_len, Hz. reflexivity. }
    rewrite Hr. simpl. repeat split; try reflexivity; intros; try discriminate.
    inversion H. reflexivity.
  - rewrite (Concatenation.concatenate_audio_ok env paths name w)
      by (rewrite ?total_loaded_len; congruence).
    simpl. repeat split; try reflexivity; intros; try discriminate.
    + inversion H. reflexivity.
    + exists (total_loaded_ms w paths). split; [|lia].
      unfold duration_at, put_file. simpl. rewrite lookup_insert_eq.
      rewrite total_loaded_len. reflexivity.
    + apply lookup_insert_ne. congruence.
Qed.

End TimingFacts.

(** ** Clean-up of temporary files *)

Module CleanupFacts.

(** A loop of [if os.path.exists(p): os.remove(p)] over a list. *)
Lemma sentence_cleanup_spec (files : list string) :
  forall w,
    exists w',
      SentenceProcessor._cleanup_temp_files files w = (Ok tt, w')
      /\ only_files_changed w w'
      /\ (forall p, In p files -> fs w' !! p = None)
      /\ (forall q, ~ In q files -> fs w' !! q = fs w !! q).
Proof.
  induction files as [|f files IH]; intros w.
  - exists w. split; [reflexivity|]. split; [repeat split|].
    split; [intros p [] | reflexivity].
  - destruct (Pipeline.remove_if_exists_spec f w)
      as (w1 & Hrun1 & (Hj1 & Ht1 & Hl1) & Hgone1 & Hkeep1).
    destruct (IH w1) as (w' & Hrun & (Hj & Ht & Hl) & Hgone & Hkeep).
    exists w'. split; [|split; [|split]].
    + simpl. erewrite Run.bind_ok; [|exact Hrun1]. exact Hrun.
    + unfold only_files_changed. split; [|split]; congruence.
    + intros p Hp.
      destruct (in_dec String.string_dec p files) as [Hin|Hout].
      * apply Hgone. exact Hin.
      * rewrite (Hkeep p Hout). destruct Hp as [<-|Hp]; [exact Hgone1 | contradiction].
    + intros q Hq. rewrite Hkeep, Hkeep1.
      * reflexivity.
      * intros ->. apply Hq. left. reflexivity.
      * intros Hin. apply Hq. right. exact Hin.
Qed.

(** X11. The clean-up of the sentence processor removes every listed
    file, touches no other file, and never raises. *)
Theorem sentence_cleanup_effect (files : list string) (w : World) :
  let r := SentenceProcessor._cleanup_temp_files files w in
  r.1 = Ok tt
  /\ only_files_changed w r.2
  /\ (forall p, In p files -> fs r.2 !! p = None)
  /\ (forall q, ~ In q files -> fs r.2 !! q = fs w !! q).
Proof.
  cbv zeta. destruct (sentence_cleanup_spec files w) as (w' & Hrun & H).
  rewrite Hrun. simpl. split; [reflexivity | exact H].
Qed.

Lemma unlink_all_full (files : list string) :
  forall (n : Z) (w : World),
    exists n' w',
      Main.unlink_all files n w = (Ok n', w')
      /\ (n <= n' <= n + Z.of_nat (length files))%Z
      /\ only_files_changed w w'
      /\ (forall p, In p files -> fs w' !! p = None)
      /\ (forall q, ~ In q files -> fs w' !! q = fs w !! q).
Proof.
  induction files as [|f files IH]; intros n w.
  - exists n, w. split; [reflexivity|]. split; [simpl; lia|].
    split; [repeat split|]. split; [intros p [] | reflexivity].
  - cbn [Main.unlink_all]. unfold mbind at 1, M_bind at 1, path_exists.
    destruct (bool_decide (is_Some (fs w !! f))) eqn:E.
    + unfold mbind at 1, M_bind at 1, remove, with_fs.
      match goal with
      | |- context [Main.unlink_all files ?m ?w1] =>
          destruct (IH m w1) as (n' & w' & Hrun & Hn & (Hj & Ht & Hl) & Hgone & Hkeep)
      end.
      exists n', w'. split; [exact Hrun|]. split; [simpl length; lia|].
      split; [exact (conj Hj (conj Ht Hl))|]. split.
      * intros p Hp.
        destruct (in_dec String.string_dec p files) as [Hin|Hout].
        -- apply Hgone. exact Hin.
        -- rewrite (Hkeep p Hout). simpl.
           destruct Hp as [<-|Hp]; [apply lookup_delete_eq | contradiction].
      * intros q Hq. rewrite Hkeep by (intros Hin; apply Hq; right; exact Hin).
        simpl. apply lookup_delete_ne. intros ->. apply Hq. left. reflexivity.
    + destruct (IH n w) as (n' & w' & Hrun & Hn & Hsame & Hgone & Hkeep).
      exists n', w'. split; [exact Hrun|]. split; [simpl length; lia|].
      split; [exact Hsame|]. split.
      * intros p Hp.
        destruct (in_dec String.string_dec p files) as [Hin|Hout].
        -- apply Hgone. exact Hin.
        -- rewrite (Hkeep p Hout).
           destruct Hp as [<-|Hp]; [|contradiction].
           apply bool_decide_eq_false in E. apply eq_None_not_Some. exact E.
      * intros q Hq. apply Hkeep. intros Hin. apply Hq. right. exact Hin.
Qed.

(** X12. The clean-up of the continuous converter deletes every file it
    tracked, forgets them, touches no other file and no part of the job
    record, and returns a count between zero and the number of tracked
    files; it never raises. *)
Theorem converter_cleanup_effect (w : World) :
  let r := Main._cleanup_temp_files w in
  (exists n, r.1 = Ok n /\ (0 <= n <= Z.of_nat (length (temp_files w)))%Z)
  /\ temp_files r.2 = []
  /\ job r.2 = job w
  /\ progress_log r.2 = progress_log w
  /\ (forall p, In p (temp_files w) -> fs r.2 !! p = None)
  /\ (forall q, ~ In q (temp_files w) -> fs r.2 !! q = fs w !! q).
Proof.
  cbv zeta.
  destruct (unlink_all_full (temp_files w) 0 w)
    as (n & w' & Hrun & Hn & (Hj & Ht & Hl) & Hgone & Hkeep).
  assert (Hr : Main._cleanup_temp_files w
               = (Ok n, {| fs := fs w'; job := job w'; temp_files := [];
                           progress_log := progress_log w' |})).
  { unfold Main._cleanup_temp_files.
    erewrite Run.bind_ok; [|reflexivity].
    erewrite Run.bind_ok; [|exact Hrun]. reflexivity. }
  rewrite Hr. simpl. split; [exists n; split; [reflexivity | lia]|].
  repeat split; assumption.
Qed.

Lemma remove_chunks_full (chunks : list string) :
  forall w,
    exists w',
      Main.remove_chunks chunks w = (Ok tt, w')
      /\ only_files_changed w w'
      /\ (forall p, In p chunks -> fs w' !! p = None)
      /\ (forall q, ~ In q chunks -> fs w' !! q = fs w !! q).
Proof.
  induction chunks as [|f files IH]; intros w.
  - exists w. split; [reflexivity|]. split; [repeat split|].
    split; [intros p [] | reflexivity].
  - destruct (Pipeline.remove_if_exists_spec f w)
      as (w1 & Hrun1 & (Hj1 & Ht1 & Hl1) & Hgone1 & Hkeep1).
    destruct (IH w1) as (w' & Hrun & (Hj & Ht & Hl) & Hgone & Hkeep).
    exists w'. split; [|split; [|split]].
    + simpl. erewrite Run.bind_ok; [|exact Hrun1]. exact Hrun.
    + unfold only_files_changed. split; [|split]; congruence.
    + intros p Hp.
      destruct (in_dec String.string_dec p files) as [Hin|Hout].
      * apply Hgone. exact Hin.
      * rewrite (Hkeep p Hout). destruct Hp as [<-|Hp]; [exact Hgone1 | contradiction].
    + intros q Hq. rewrite Hkeep, Hkeep1.
      * reflexivity.
      * intros ->. apply Hq. left. reflexivity.
      * intros Hin. apply Hq. right. exact Hin.
Qed.

Lemma unlink_globbed_lookup (directory j out : string) (w : World) (q : string) :
  fs (Main.unlink_globbed directory j out w).2 !! q =
    if Main.glob_temp_matches directory j q && negb (String.eqb q out)
    then None else fs w !! q.
Proof.
  unfold Main.unlink_globbed, with_fs. simpl.
  destruct (Main.glob_temp_matches directory j q && negb (String.eqb q out)) eqn:E.
  - apply map_lookup_filter_None_2. right. intros x _. simpl. rewrite E. discriminate.
  - destruct (fs w !! q) as [x|] eqn:Hq.
    + apply map_lookup_filter_Some_2; [exact Hq|]. simpl. rewrite E. reflexivity.
    + apply map_lookup_filter_None_2. left. exact Hq.
Qed.

(** X13. What the clean-up of the background task does to the files: the
    upload and every processed chunk are gone, and so is every entry of
    the upload and output directories named [<job_id>_temp_*] other than
    the output file; any other file is left as it was. It never raises
    and does not touch the job record. *)
Theorem cleanup_temp_files_effect (env : Env) (jid input : string)
    (chunks : list string) (out : string) (w : World) :
  let r := Main.cleanup_temp_files env jid input chunks out w in
  r.1 = Ok tt
  /\ only_files_changed w r.2
  /\ fs r.2 !! input = None
  /\ (forall c, In c chunks -> fs r.2 !! c = None)
  /\ (forall q, q <> out ->
        Main.glob_temp_matches (UPLOAD_DIR env) jid q = true
        \/ Main.glob_temp_matches (OUTPUT_DIR env) jid q = true ->
        fs r.2 !! q = None)
  /\ (forall q, q <> input -> ~ In q chunks ->
        q = out \/ (Main.glob_temp_matches (UPLOAD_DIR env) jid q = false
                    /\ Main.glob_temp_matches (OUTPUT_DIR env) jid q = false) ->
        fs r.2 !! q = fs w !! q).
Proof.
  cbv zeta.
  destruct (Pipeline.remove_if_exists_spec input w)
    as (w1 & R1 & (J1 & T1 & L1) & G1 & K1).
  destruct (remove_chunks_full chunks w1) as (w2 & R2 & (J2 & T2 & L2) & G2 & K2).
  assert (Hrun : Main.cleanup_temp_files env jid input chunks out w
                 = (Ok tt, (Main.unlink_globbed (OUTPUT_DIR env) jid out
                              (Main.unlink_globbed (UPLOAD_DIR env) jid out w2).2).2)).
  { unfold Main.cleanup_temp_files. apply Run.try_ok.
    erewrite Run.bind_ok; [|exact R1].
    erewrite Run.bind_ok; [|exact R2].
    erewrite Run.bind_ok; [|reflexivity]. reflexivity. }
  rewrite Hrun. cbn [fst snd].
  assert (Hlook : forall q,
            fs (Main.unlink_globbed (OUTPUT_DIR env) jid out
                  (Main.unlink_globbed (UPLOAD_DIR env) jid out w2).2).2 !! q
            = if Main.glob_temp_matches (OUTPUT_DIR env) jid q && negb (String.eqb q out)
              then None
              else if Main.glob_temp_matches (UPLOAD_DIR env) jid q
                      && negb (String.eqb q out)
                   then None else fs w2 !! q).
  { intros q. rewrite !unlink_globbed_lookup. reflexivity. }
  assert (Hnone : forall q, fs w2 !! q = None ->
            fs (Main.unlink_globbed (OUTPUT_DIR env) jid out
                  (Main.unlink_globbed (UPLOAD_DIR env) jid out w2).2).2 !! q = None).
  { intros q Hq. rewrite Hlook, Hq.
    destruct (_ && _); [reflexivity|]. destruct (_ && _); reflexivity. }
  split; [reflexivity|]. split; [|split; [|split; [|split]]].
  - unfold only_files_changed. simpl. split; [|split]; congruence.
  - apply Hnone.
    destruct (in_dec String.string_dec input chunks) as [Hin|Hnotin].
    + apply G2. exact Hin.
    + rewrite (K2 input Hnotin). exact G1.
  - intros c Hc. apply Hnone. apply G2. exact Hc.
  - intros q Hq Hglob. rewrite Hlook.
    assert (Hne : String.eqb q out = false) by (apply String.eqb_neq; exact Hq).
    rewrite Hne. simpl. rewrite !andb_true_r.
    destruct Hglob as [Hu|Ho].
    + rewrite Hu. destruct (Main.glob_temp_matches (OUTPUT_DIR env) jid q); reflexivity.
    + rewrite Ho. reflexivity.
  - intros q Hin Hchunks Hq. rewrite Hlook.
    assert (Hsame : fs w2 !! q = fs w !! q).
    { rewrite (K2 q Hchunks). apply K1. exact Hin. }
    destruct Hq as [->|[Hu Ho]].
    + rewrite String.eqb_refl. simpl. rewrite !andb_false_r. exact Hsame.
    + rewrite Hu, Ho. simpl. exact Hsame.
Qed.

End CleanupFacts.

(** ** Timestamp-based processing *)

Module SentenceFacts.
Import SentenceProcessor.

(** The outcomes of [_adjust_audio_length], case by case. *)
Lemma adjust_audio_length_cases (env : Env) (w : World) (path : string)
    (target_duration : Q) (name : string) :
  _adjust_audio_length env path target_duration name w =
    match fs w !! path with
    | Some (Wav clip) =>
        if Py.eqb (inject_Z (AudioSegment.len clip) / 1000) 0
        then (Raise (Exception
                       "Audio length adjustment failed: float division by zero"), w)
        else
          let ratio := target_duration / (inject_Z (AudioSegment.len clip) / 1000) in
          let out := path_join (temp_dir env) (name +:+ ".wav") in
          if Py.ltb (Py.abs (ratio - 1)) 0.05
          then (Ok out,
                put_file w out
                  (Wav (AudioProcessor._ensure_exact_duration clip target_duration)))
          else
            match AudioProcessor.speedup_by_inverse env clip ratio with
            | Ok adjusted =>
                (Ok out,
                 put_file w out
                   (Wav (AudioProcessor._ensure_exact_duration adjusted target_duration)))
            | Raise x =>
                (Raise (Exception ("Audio length adjustment failed: " +:+ exn_msg x)), w)
            end
    | _ => (Raise (Exception ("Audio length adjustment failed: " +:+ path)), w)
    end.
Proof.
  unfold _adjust_audio_length, try_except, mbind, M_bind, from_file, py_div.
  destruct (fs w !! path) as [[clip|]|]; try reflexivity.
  destruct (Py.eqb (inject_Z (AudioSegment.len clip) / 1000) 0); [reflexivity|].
  unfold mret, M_ret, raise. cbv zeta.
  destruct (Py.ltb
              (Py.abs (target_duration / (inject_Z (AudioSegment.len clip) / 1000) - 1))
              0.05); [reflexivity|].
  destruct (Py.gtb (target_duration / (inject_Z (AudioSegment.len clip) / 1000)) 1);
    destruct (AudioProcessor.speedup_by_inverse env clip
                (target_duration / (inject_Z (AudioSegment.len clip) / 1000)));
    reflexivity.
Qed.



(** X15. When [_adjust_audio_length] returns, it returns the path
    [OUTPUT_DIR/temp/<name>.wav], the file it wrote there lasts
    [int(target_duration * 1000)] ms for a non-negative target, within
    2 ms for the roundings of the float product and of pydub's lengths,
    and no other file changed. *)
Theorem adjust_audio_length_duration (env : Env) (w : World) (path : string)
    (target_duration : Q) (name : string) (p : string)
    (Htarget : 0 <= target_duration)
    (Hok : (_adjust_audio_length env path target_duration name w).1 = Ok p) :
  p = path_join (temp_dir env) (name +:+ ".wav")
  /\ (exists d,
        duration_at (_adjust_audio_length env path target_duration name w).2 p = Some d
        /\ (Z.abs (d - Py.int (target_duration * 1000)) <= 2)%Z)
  /\ (forall q, q <> p ->
        fs (_adjust_audio_length env path target_duration name w).2 !! q = fs w !! q).
Proof.
  assert (Hms : (0 <= Py.int (target_duration * 1000))%Z) by (apply int_nonneg; lra).
  rewrite adjust_audio_length_cases in *.
  destruct (fs w !! path) as [[clip|]|]; try discriminate.
  destruct (Py.eqb (inject_Z (AudioSegment.len clip) / 1000) 0); [discriminate|].
  cbv zeta in *.
  destruct (Py.ltb _ 0.05).
  - simpl in Hok. inversion Hok; subst p. split; [reflexivity|].
    unfold duration_at, put_file. simpl. rewrite lookup_insert_eq.
    rewrite Timing.len_ensure_exact_duration by exact Hms.
    split; [eexists; split; [reflexivity | lia]|].
    intros q Hq. apply lookup_insert_ne. congruence.
  - destruct (AudioProcessor.speedup_by_inverse env clip _) as [adjusted|x];
      [|discriminate].
    simpl in Hok. inversion Hok; subst p. split; [reflexivity|].
    unfold duration_at, put_file. simpl. rewrite lookup_insert_eq.
    rewrite Timing.len_ensure_exact_duration by exact Hms.
    split; [eexists; split; [reflexivity | lia]|].
    intros q Hq. apply lookup_insert_ne. congruence.
Qed.

Lemma adjust_audio_length_duration_witness :
  let r := _adjust_audio_length (demo_env []) "outputs/c.wav" 0.003 "a"
             (world_of {[ "outputs/c.wav" := Wav [7; 8; 9]%Z ]}) in
  "outputs/temp/a.wav" = path_join (temp_dir (demo_env [])) ("a" +:+ ".wav")
  /\ (exists d,
        duration_at r.2 "outputs/temp/a.wav" = Some d
        /\ (Z.abs (d - Py.int (0.003 * 1000)) <= 2)%Z)
  /\ (forall q, q <> "outputs/temp/a.wav" ->
        fs r.2 !! q = fs (world_of {[ "outputs/c.wav" := Wav [7; 8; 9]%Z ]}) !! q).
Proof.
  apply (adjust_audio_length_duration (demo_env [])
           (world_of {[ "outputs/c.wav" := Wav [7; 8; 9]%Z ]})
           "outputs/c.wav" 0.003 "a" "outputs/temp/a.wav").
  - apply Qle_bool_iff. reflexivity.
  - reflexivity.
Defined.

(** X16. When no sentence survives [_filter_empty_spaces], the
    timestamp-based processing synthesises nothing and fails in the
    concatenation, leaving every file as it was. *)
Theorem timestamp_processing_without_valid_sentences (env : Env) (w : World)
    (original_audio_path : string) (original_audio : AudioSegment.t)
    (sentences : list SentenceDict) (voice_id output_filename : string)
    (Hfile : fs w !! original_audio_path = Some (Wav original_audio))
    (Hnone : _filter_empty_spaces sentences = []) :
  process_sentences_with_timestamps env original_audio_path sentences voice_id
    output_filename w
  = (Raise (Exception
              ("Sentence processing failed: "
               +:+ "Audio concatenation failed: No audio files to concatenate")), w).
Proof.
  unfold process_sentences_with_timestamps, try_except, mbind, M_bind, from_file.
  rewrite Hfile, Hnone. reflexivity.
Qed.

Lemma timestamp_processing_without_valid_sentences_witness :
  process_sentences_with_timestamps (demo_env []) "uploads/job_in.wav"
    [letter_sentence] "voice" "job_timestamp_based" demo_upload
  = (Raise (Exception
              ("Sentence processing failed: "
               +:+ "Audio concatenation failed: No audio files to concatenate")),
     demo_upload).
Proof.
  apply (timestamp_processing_without_valid_sentences (demo_env []) demo_upload
           "uploads/job_in.wav" (repeat 1%Z (Z.to_nat 8000))).
  - reflexivity.
  - reflexivity.
Defined.

(** The timestamp-based processing loads the original audio before
    anything else, although it never uses it: when that file is missing
    or does not decode, the processing fails at once, before any speech
    is synthesised, and changes no file. *)
Theorem timestamp_processing_needs_the_original (env : Env) (w : World)
    (original_audio_path : string) (sentences : list SentenceDict)
    (voice_id output_filename : string)
    (Hfile : forall audio, fs w !! original_audio_path <> Some (Wav audio)) :
  process_sentences_with_timestamps env original_audio_path sentences voice_id
    output_filename w
  = (Raise (Exception ("Sentence processing failed: " +:+ original_audio_path)), w).
Proof.
  unfold process_sentences_with_timestamps, try_except, mbind, M_bind, from_file.
  destruct (fs w !! original_audio_path) as [[audio|]|] eqn:E; try reflexivity.
  exfalso. apply (Hfile audio). reflexivity.
Qed.

Lemma timestamp_processing_needs_the_original_witness :
  process_sentences_with_timestamps (demo_env []) "uploads/gone.wav"
    (List.map to_dict demo_sentences) "voice" "job_timestamp_based" demo_upload
  = (Raise (Exception ("Sentence processing failed: " +:+ "uploads/gone.wav")),
     demo_upload).
Proof.
  apply (timestamp_processing_needs_the_original (demo_env []) demo_upload
           "uploads/gone.wav").
  intros audio. discriminate.
Defined.

End SentenceFacts.

(** ** The timeline with empty segments (continuous_with_spaces) *)

Module WithSpacesFacts.
Import Main.

Lemma seconds_to_ms (x : Q) (ms : Z) :
  (x + inject_Z ms / 1000) * 1000 == x * 1000 + inject_Z ms.
Proof. field. Qed.

Lemma ms_to_seconds (x : Q) : x / 1000 == x * 0.001.
Proof. field. Qed.

(** The invariant of the timeline loop. With [j] milliseconds of slack
    between the position the loop believes it is at and the audio built
    so far, the clip of the sentence of index [k] begins no earlier than
    its start time less [j + k + 1] ms: a millisecond may be lost per
    gap, where [int] truncates. *)
Lemma timeline_loop_layout (pairs : list (string * AudioSentence)) :
  forall (final_audio : AudioSegment.t) (current_position j : Q) (w w' : World)
         (out : AudioSegment.t),
    current_position * 1000 - j <= inject_Z (AudioSegment.len final_audio) ->
    timeline_loop pairs final_audio current_position w = (Ok out, w') ->
    w' = w
    /\ (exists tail, out = final_audio ++ tail)
    /\ (forall k path s,
          pairs !! k = Some (path, s) ->
          exists clip before after,
            fs w !! path = Some (Wav clip)
            /\ out = before ++ clip ++ after
            /\ start_time s * 1000 - (j + inject_Z (Z.of_nat k) + 1)
               <= inject_Z (AudioSegment.len before)).
Proof.
  induction pairs as [|[path0 s0] pairs IH];
    intros final_audio current_position j w w' out Hslack Hrun.
  - simpl in Hrun. inversion Hrun; subst. split; [reflexivity|].
    split; [exists []; rewrite app_nil_r; reflexivity|].
    intros k path s Hk. rewrite lookup_nil in Hk. discriminate.
  - cbn [timeline_loop] in Hrun.
    unfold mbind at 1, M_bind at 1, from_file in Hrun.
    destruct (fs w !! path0) as [[clip0|]|] eqn:Hfile; try discriminate.
    set (before0 :=
           if Py.gtb (start_time s0 - current_position) 0
           then AudioSegment.add final_audio
                  (AudioSegment.silent
                     (Py.int ((start_time s0 - current_position) * 1000)))
           else final_audio) in *.
    assert (Hbefore : start_time s0 * 1000 - (j + 1)
                      <= inject_Z (AudioSegment.len before0)
                      /\ exists gap, before0 = final_audio ++ gap).
    { unfold before0.
      destruct (Py.gtb (start_time s0 - current_position) 0) eqn:Eg.
      - apply gtb_true in Eg.
        destruct (int_floor ((start_time s0 - current_position) * 1000) ltac:(lra))
          as [_ Hfloor].
        pose proof (int_nonneg ((start_time s0 - current_position) * 1000)
                      ltac:(lra)) as Hpos.
        split; [|eexists; reflexivity].
        rewrite Timing.len_add, Timing.len_silent, Z.max_r by exact Hpos.
        rewrite inject_Z_plus. lra.
      - apply ltb_false in Eg. split; [lra|].
        exists []. rewrite app_nil_r. reflexivity. }
    destruct Hbefore as [Hstart [gap Hgap]].
    assert (Hnext : (start_time s0 + inject_Z (AudioSegment.len clip0) / 1000) * 1000
                    - (j + 1)
                    <= inject_Z (AudioSegment.len (AudioSegment.add before0 clip0))).
    { rewrite seconds_to_ms, Timing.len_add, inject_Z_plus. lra. }
    destruct (IH _ _ (j + 1) w w' out Hnext Hrun) as [Hw [[tail Htail] Hclips]].
    split; [exact Hw|]. split.
    + exists (gap ++ clip0 ++ tail). rewrite Htail, Hgap.
      unfold AudioSegment.add. rewrite <- !app_assoc. reflexivity.
    + intros k path s Hk. destruct k as [|k].
      * simpl in Hk. inversion Hk; subst path s.
        exists clip0, before0, tail. split; [exact Hfile|]. split.
        -- rewrite Htail. unfold AudioSegment.add. rewrite <- app_assoc. reflexivity.
        -- change (inject_Z (Z.of_nat 0)) with 0. lra.
      * simpl in Hk. destruct (Hclips k path s Hk) as (clip & before & after & Hf & Ho & Hb).
        exists clip, before, after. split; [exact Hf|]. split; [exact Ho|].
        rewrite GapAccounting.inject_nat_succ. lra.
Qed.

(** The final padding brings a shorter timeline up to the original. *)
Lemma final_padding (final_audio original_audio : AudioSegment.t) :
  let final_duration := inject_Z (AudioSegment.len final_audio) / 1000 in
  let original_duration := inject_Z (AudioSegment.len original_audio) / 1000 in
  exists pad,
    (if Py.ltb final_duration original_duration then
       let remaining_gap := original_duration - final_duration in
       if Py.gtb remaining_gap 0 then
         AudioSegment.add final_audio
           (AudioSegment.silent (Py.int (remaining_gap * 1000)))
       else final_audio
     else final_audio) = final_audio ++ pad
    /\ (AudioSegment.len final_audio + AudioSegment.len pad
        = Z.max (AudioSegment.len final_audio) (AudioSegment.len original_audio))%Z.
Proof.
  cbv zeta.
  generalize (AudioSegment.len original_audio) as o.
  generalize (AudioSegment.len final_audio) as f. intros f o.
  destruct (Py.ltb (inject_Z f / 1000) (inject_Z o / 1000)) eqn:E.
  - apply ltb_true in E. rewrite !ms_to_seconds in E.
    assert (Hfo : (f < o)%Z).
    { rewrite Zlt_Qlt. lra. }
    assert (Hgap : Py.gtb (inject_Z o / 1000 - inject_Z f / 1000) 0 = true).
    { apply gtb_true. rewrite !ms_to_seconds. lra. }
    rewrite Hgap.
    assert (Hms : Py.int ((inject_Z o / 1000 - inject_Z f / 1000) * 1000) = (o - f)%Z).
    { rewrite <- (AudioFacts.int_of_Z (o - f)).
      apply AudioFacts.int_proper; [rewrite !ms_to_seconds; lra|].
      unfold Z.sub. rewrite inject_Z_plus, inject_Z_opp. field. }
    rewrite Hms. eexists. split; [reflexivity|].
    rewrite Timing.len_silent. lia.
  - apply ltb_false in E. rewrite !ms_to_seconds in E.
    assert (Hfo : (o <= f)%Z).
    { rewrite Zle_Qle. lra. }
    exists []. split; [rewrite app_nil_r; reflexivity|].
    change (AudioSegment.len []) with 0%Z. lia.
Qed.

Lemma create_continuous_audio_ok (env : Env) (w : World)
    (temp_audio_files : list string) (sentences : list AudioSentence)
    (input_path jid : string) (original_audio : AudioSegment.t) (p : string) :
  fs w !! input_path = Some (Wav original_audio) ->
  (_create_continuous_audio_with_spaces env temp_audio_files sentences input_path jid
     w).1 = Ok p ->
  exists timeline pad,
    timeline_loop (zip temp_audio_files sentences) AudioSegment.empty 0 w
    = (Ok timeline, w)
    /\ (AudioSegment.len timeline + AudioSegment.len pad
        = Z.max (AudioSegment.len timeline) (AudioSegment.len original_audio))%Z
    /\ _create_continuous_audio_with_spaces env temp_audio_files sentences input_path
         jid w
       = (Ok (continuous_path env jid),
          put_file w (continuous_path env jid) (Wav (timeline ++ pad))).
Proof.
  intros Hfile Hok.
  assert (Hload : from_file input_path w = (Ok original_audio, w)).
  { unfold from_file. rewrite Hfile. reflexivity. }
  destruct (timeline_loop (zip temp_audio_files sentences) AudioSegment.empty 0 w)
    as [[timeline|e] w1] eqn:Hloop.
  - destruct (timeline_loop_layout _ AudioSegment.empty 0 0 w w1 timeline
                ltac:(apply Qle_bool_iff; reflexivity) Hloop) as [-> _].
    destruct (final_padding timeline original_audio) as (pad & Hpad & Hlen).
    cbv zeta in Hpad. exists timeline, pad.
    split; [reflexivity|]. split; [exact Hlen|].
    unfold _create_continuous_audio_with_spaces. apply Run.try_ok.
    erewrite Run.bind_ok; [|exact Hload].
    erewrite Run.bind_ok; [|exact Hloop].
    cbv zeta. rewrite Hpad. reflexivity.
  - exfalso.
    assert (Hr : (_create_continuous_audio_with_spaces env temp_audio_files sentences
                    input_path jid w).1
                 = Raise (Exception
                            ("Continuous audio creation failed: " +:+ exn_msg e))).
    { unfold _create_continuous_audio_with_spaces.
      erewrite Run.try_raise; [reflexivity|].
      erewrite Run.bind_ok; [|exact Hload].
      apply Run.bind_raise. exact Hloop. }
    rewrite Hr in Hok. discriminate.
Qed.

(** X18. When [_create_continuous_audio_with_spaces] returns, the file it
    wrote covers the original audio: the final padding fills what the
    timeline lacks, so the output is shorter than the original by 3 ms at
    most, one for the truncation of the padding to whole milliseconds and
    two for the rounding of pydub's lengths; and it wrote no other file. *)
Theorem continuous_audio_covers_the_original (env : Env) (w : World)
    (temp_audio_files : list string) (sentences : list AudioSentence)
    (input_path jid : string) (original_audio : AudioSegment.t) (p : string)
    (Hfile : fs w !! input_path = Some (Wav original_audio))
    (Hok : (_create_continuous_audio_with_spaces env temp_audio_files sentences
              input_path jid w).1 = Ok p) :
  p = path_join (OUTPUT_DIR env) ((jid +:+ "_continuous") +:+ ".wav")
  /\ (exists out,
        fs (_create_continuous_audio_with_spaces env temp_audio_files sentences
              input_path jid w).2 !! p = Some (Wav out)
        /\ (AudioSegment.len original_audio - 3 <= AudioSegment.len out)%Z)
  /\ (forall q, q <> p ->
        fs (_create_continuous_audio_with_spaces env temp_audio_files sentences
              input_path jid w).2 !! q = fs w !! q).
Proof.
  destruct (create_continuous_audio_ok env w temp_audio_files sentences input_path jid
              original_audio p Hfile Hok) as (timeline & pad & _ & Hlen & Hrun).
  rewrite Hrun in *. simpl in Hok. inversion Hok; subst p.
  split; [reflexivity|]. split.
  - exists (timeline ++ pad). simpl. split; [apply lookup_insert_eq|].
    rewrite Pipeline.len_app. lia.
  - intros q Hq. simpl. apply lookup_insert_ne. congruence.
Qed.

Lemma continuous_audio_covers_the_original_witness :
  let w := put_file (put_file demo_upload "outputs/a.wav" (Wav [1; 1]%Z))
             "outputs/b.wav" (Wav [2; 2; 2]%Z) in
  let r := _create_continuous_audio_with_spaces (demo_env demo_sentences)
             ["outputs/a.wav"; "outputs/b.wav"] demo_sentences
             "uploads/job_in.wav" "job" w in
  "outputs/job_continuous.wav"
  = path_join (OUTPUT_DIR (demo_env demo_sentences)) (("job" +:+ "_continuous") +:+ ".wav")
  /\ (exists out,
        fs r.2 !! "outputs/job_continuous.wav" = Some (Wav out)
        /\ (AudioSegment.len (repeat 1%Z (Z.to_nat 8000)) - 3
            <= AudioSegment.len out)%Z)
  /\ (forall q, q <> "outputs/job_continuous.wav" -> fs r.2 !! q = fs w !! q).
Proof.
  apply (continuous_audio_covers_the_original (demo_env demo_sentences)
           (put_file (put_file demo_upload "outputs/a.wav" (Wav [1; 1]%Z))
              "outputs/b.wav" (Wav [2; 2; 2]%Z))
           ["outputs/a.wav"; "outputs/b.wav"] demo_sentences
           "uploads/job_in.wav" "job" (repeat 1%Z (Z.to_nat 8000))
           "outputs/job_continuous.wav").
  - reflexivity.
  - vm_compute. reflexivity.
Defined.



End WithSpacesFacts.

(** ** The background task *)

Module TaskFacts.
Import Main.

(** *** Steps that assign no progress value *)

Lemma keeps_log_ret {A : Type} (a : A) : keeps_log (mret a : M A).
Proof. intros w. reflexivity. Qed.

Lemma keeps_log_raise {A : Type} (e : Exn) : keeps_log (raise e : M A).
Proof. intros w. reflexivity. Qed.

Lemma keeps_log_bind {A B : Type} (c : M A) (k : A -> M B) :
  keeps_log c -> (forall a, keeps_log (k a)) -> keeps_log (c ≫= k).
Proof.
  intros Hc Hk w. unfold mbind, M_bind.
  specialize (Hc w). destruct (c w) as [[a|e] w1]; simpl in Hc.
  - rewrite Hk. exact Hc.
  - exact Hc.
Qed.

Lemma keeps_log_try {A : Type} (c : M A) (h : Exn -> M A) :
  keeps_log c -> (forall e, keeps_log (h e)) -> keeps_log (try_except c h).
Proof.
  intros Hc Hh w. unfold try_except.
  specialize (Hc w). destruct (c w) as [[a|e] w1]; simpl in Hc.
  - exact Hc.
  - rewrite Hh. exact Hc.
Qed.

Lemma keeps_log_with_fs (f : gmap string File -> gmap string File) :
  keeps_log (with_fs f).
Proof. intros w. reflexivity. Qed.

Lemma keeps_log_with_job (f : ProcessingStatus -> ProcessingStatus) :
  keeps_log (with_job f).
Proof. intros w. reflexivity. Qed.

Lemma keeps_log_with_temp_files (f : list string -> list string) :
  keeps_log (with_temp_files f).
Proof. intros w. reflexivity. Qed.

Lemma keeps_log_from_file (path : string) : keeps_log (from_file path).
Proof. intros w. unfold from_file. destruct (fs w !! path) as [[a|]|]; reflexivity. Qed.

Lemma keeps_log_py_div (x y : Q) : keeps_log (py_div x y).
Proof. intros w. unfold py_div. destruct (Py.eqb y 0); reflexivity. Qed.

Lemma keeps_log_remove_if_exists (path : string) : keeps_log (remove_if_exists path).
Proof.
  intros w. unfold remove_if_exists, mbind, M_bind, path_exists.
  destruct (bool_decide (is_Some (fs w !! path))); reflexivity.
Qed.

Lemma keeps_log_generate_speech (env : Env) (t voice name : string) :
  keeps_log (ElevenLabsService.generate_speech env t voice name).
Proof.
  unfold ElevenLabsService.generate_speech.
  apply keeps_log_try; [|intros e; apply keeps_log_raise].
  destruct (text_to_speech env t voice name); [|apply keeps_log_raise].
  apply keeps_log_bind; [apply keeps_log_with_fs | intros; apply keeps_log_ret].
Qed.

Lemma keeps_log_match_timing (env : Env) (path : string) (s e : Q) (name : string) :
  keeps_log (AudioProcessor.match_timing env path s e name).
Proof.
  unfold AudioProcessor.match_timing.
  apply keeps_log_try; [|intros x; apply keeps_log_raise].
  apply keeps_log_bind; [apply keeps_log_from_file | intros clip].
  apply keeps_log_bind; [apply keeps_log_py_div | intros ratio].
  apply keeps_log_bind; [apply keeps_log_with_fs | intros; apply keeps_log_ret].
Qed.

Lemma keeps_log_concatenate_audio (env : Env) (paths : list string) (name : string) :
  keeps_log (AudioProcessor.concatenate_audio env paths name).
Proof.
  unfold AudioProcessor.concatenate_audio.
  apply keeps_log_try; [|intros x; apply keeps_log_raise].
  destruct paths as [|p paths]; [apply keeps_log_raise|].
  apply keeps_log_bind.
  - intros w. rewrite Concatenation.concatenate_loop_spec. reflexivity.
  - intros combined. destruct (AudioSegment.len combined =? 0)%Z.
    + apply keeps_log_raise.
    + apply keeps_log_bind; [apply keeps_log_with_fs | intros; apply keeps_log_ret].
Qed.

Lemma keeps_log_adjust (env : Env) (path : string) (target : Q) (name : string) :
  keeps_log (SentenceProcessor._adjust_audio_length env path target name).
Proof.
  unfold SentenceProcessor._adjust_audio_length.
  apply keeps_log_try; [|intros x; apply keeps_log_raise].
  apply keeps_log_bind; [apply keeps_log_from_file | intros clip].
  apply keeps_log_bind; [apply keeps_log_py_div | intros ratio].
  apply keeps_log_bind.
  - destruct (Py.ltb (Py.abs (ratio - 1)) 0.05); [apply keeps_log_ret|].
    destruct (Py.gtb ratio 1);
      destruct (AudioProcessor.speedup_by_inverse env clip ratio);
      first [apply keeps_log_ret | apply keeps_log_raise].
  - intros adjusted.
    apply keeps_log_bind; [apply keeps_log_with_fs | intros; apply keeps_log_ret].
Qed.

Lemma keeps_log_sentence_cleanup (files : list string) :
  keeps_log (SentenceProcessor._cleanup_temp_files files).
Proof.
  induction files as [|f files IH]; [apply keeps_log_ret|].
  simpl. apply keeps_log_bind; [apply keeps_log_remove_if_exists | intros; exact IH].
Qed.

Lemma keeps_log_process_timeline (env : Env) (voice : string)
    (timeline : list (SentenceDict * Q)) :
  forall i temp_files,
    keeps_log (SentenceProcessor.process_timeline env timeline i voice temp_files).
Proof.
  induction timeline as [|[s target] timeline IH]; intros i temp_files;
    [apply keeps_log_ret|].
  cbn [SentenceProcessor.process_timeline].
  apply keeps_log_bind; [apply keeps_log_generate_speech | intros cloned].
  apply keeps_log_bind; [apply keeps_log_adjust | intros adjusted].
  apply keeps_log_bind; [apply keeps_log_remove_if_exists | intros; apply IH].
Qed.

Lemma keeps_log_timestamps (env : Env) (original : string)
    (sentences : list SentenceDict) (voice name : string) :
  keeps_log (SentenceProcessor.process_sentences_with_timestamps env original
               sentences voice name).
Proof.
  unfold SentenceProcessor.process_sentences_with_timestamps.
  apply keeps_log_try; [|intros x; apply keeps_log_raise].
  apply keeps_log_bind; [apply keeps_log_from_file | intros audio].
  apply keeps_log_bind; [apply keeps_log_process_timeline | intros files].
  apply keeps_log_bind; [apply keeps_log_concatenate_audio | intros out].
  apply keeps_log_bind; [apply keeps_log_sentence_cleanup | intros; apply keeps_log_ret].
Qed.

Lemma keeps_log_transcribe (env : Env) (path : string) : keeps_log (transcribe env path).
Proof.
  unfold transcribe. destruct (transcribe_audio env path);
    [apply keeps_log_ret | apply keeps_log_raise].
Qed.

(** *** Progress values of the synthesis loops *)

Lemma int_mono (x y : Q) : 0 <= x -> x <= y -> (Py.int x <= Py.int y)%Z.
Proof.
  intros Hx Hxy.
  destruct (int_floor x Hx) as [Hx1 _].
  destruct (int_floor y ltac:(lra)) as [_ Hy2].
  assert (H : inject_Z (Py.int x) < inject_Z (Py.int y + 1)).
  { rewrite inject_Z_plus. change (inject_Z 1) with 1. lra. }
  rewrite <- Zlt_Qlt in H. lia.
Qed.

Lemma fraction_bounds (a b n : nat) :
  (a <= b)%nat -> (b <= n)%nat ->
  0 <= inject_Z (Z.of_nat a) / inject_Z (Z.of_nat n)
  /\ inject_Z (Z.of_nat a) / inject_Z (Z.of_nat n)
     <= inject_Z (Z.of_nat b) / inject_Z (Z.of_nat n)
  /\ inject_Z (Z.of_nat b) / inject_Z (Z.of_nat n) <= 1.
Proof.
  intros Hab Hbn.
  assert (Ha : 0 <= inject_Z (Z.of_nat a)).
  { change 0 with (inject_Z 0). rewrite <- Zle_Qle. lia. }
  assert (Hb : inject_Z (Z.of_nat a) <= inject_Z (Z.of_nat b)).
  { rewrite <- Zle_Qle. lia. }
  assert (Hn : inject_Z (Z.of_nat b) <= inject_Z (Z.of_nat n)).
  { rewrite <- Zle_Qle. lia. }
  assert (Hinv : 0 <= / inject_Z (Z.of_nat n)).
  { apply Qinv_le_0_compat. lra. }
  unfold Qdiv. split; [|split].
  - apply Qmult_le_0_compat; assumption.
  - apply Qmult_le_compat_r; assumption.
  - destruct (Qeq_dec (inject_Z (Z.of_nat n)) 0) as [Hz|Hnz].
    + assert (Hb0 : inject_Z (Z.of_nat b) == 0) by lra.
      rewrite Hb0. lra.
    + rewrite <- (Qmult_inv_r (inject_Z (Z.of_nat n)) Hnz).
      apply Qmult_le_compat_r; assumption.
Qed.

Lemma loop_progress_mono (n a b : nat) :
  (a <= b)%nat -> (b <= n)%nat -> (loop_progress n a <= loop_progress n b)%Z.
Proof.
  intros Hab Hbn. unfold loop_progress.
  destruct (fraction_bounds a b n Hab Hbn) as (H0 & Hle & _).
  apply int_mono; lra.
Qed.

Lemma loop_progress_bounds (n a : nat) :
  (a <= n)%nat -> (30 <= loop_progress n a <= 80)%Z.
Proof.
  intros Han. unfold loop_progress.
  destruct (fraction_bounds a a n (Nat.le_refl a) Han) as (H0 & _ & H1).
  pose proof (int_mono 30
                (30 + inject_Z (Z.of_nat a) / inject_Z (Z.of_nat n) * 50)
                ltac:(lra) ltac:(lra)) as Hlow.
  pose proof (int_mono
                (30 + inject_Z (Z.of_nat a) / inject_Z (Z.of_nat n) * 50) 80
                ltac:(lra) ltac:(lra)) as Hhigh.
  change (Py.int 30) with 30%Z in Hlow. change (Py.int 80) with 80%Z in Hhigh.
  split; assumption.
Qed.

Lemma log_below_weaken (b b' : Z) (l : list Z) :
  log_below b l -> (b <= b')%Z -> log_below b' l.
Proof.
  intros [Hs Hb] Hle. split; [exact Hs|].
  eapply List.Forall_impl; [|exact Hb]. intros p Hp. simpl in Hp. lia.
Qed.

Lemma log_below_snoc (b x : Z) (l : list Z) :
  log_below b l -> (b <= x)%Z -> log_below x (l ++ [x]).
Proof.
  intros [Hs Hb] Hle. split.
  - induction l as [|y l IH]; [constructor; constructor|].
    apply StronglySorted_inv in Hs. destruct Hs as [Hs Hy].
    apply List.Forall_cons_iff in Hb. destruct Hb as [Hyb Hb].
    simpl. constructor; [apply IH; assumption|].
    apply List.Forall_app. split; [exact Hy|]. constructor; [lia | constructor].
  - apply List.Forall_app. split.
    + eapply List.Forall_impl; [|exact Hb]. intros p Hp. simpl in Hp. lia.
    + constructor; [lia | constructor].
Qed.

Lemma log_below_loop (n : nat) (l0 : list Z) (b : Z) :
  (b <= 30)%Z -> log_below b l0 ->
  forall m, (m <= n)%nat ->
    log_below (loop_progress n m) (l0 ++ List.map (loop_progress n) (seq 0 m)).
Proof.
  intros Hb Hl0 m. induction m as [|m IH]; intros Hm.
  - simpl. rewrite app_nil_r. apply (log_below_weaken b); [exact Hl0|].
    pose proof (loop_progress_bounds n 0 ltac:(lia)). lia.
  - rewrite seq_S, List.map_app, app_assoc. simpl.
    apply (log_below_weaken (loop_progress n m)).
    + apply (log_below_snoc (loop_progress n m)); [apply IH; lia | lia].
    + apply loop_progress_mono; lia.
Qed.

(** The loops assign [loop_progress n i] before each sentence they
    start, and nothing else. *)
Lemma original_loop_log (env : Env) (voice j : string) (n : nat)
    (rest : list AudioSentence) :
  forall (i : nat) (chunks : list string) (w : World),
    exists m,
      (m <= length rest)%nat
      /\ progress_log (original_loop env rest i n voice j chunks w).2
         = progress_log w ++ List.map (loop_progress n) (seq i m).
Proof.
  induction rest as [|s rest IH]; intros i chunks w.
  - exists 0%nat. split; [simpl; lia|]. simpl. rewrite app_nil_r. reflexivity.
  - cbn [original_loop].
    erewrite Run.bind_ok; [|reflexivity]. erewrite Run.bind_ok; [|reflexivity].
    match goal with
    | |- context [(ElevenLabsService.generate_speech env ?t ?v ?nm ≫= _) ?w2] =>
        pose proof (keeps_log_generate_speech env t v nm w2) as Hlog1;
        destruct (ElevenLabsService.generate_speech env t v nm w2)
          as [[cloned|e] w3] eqn:Hg
    end.
    + erewrite Run.bind_ok; [|exact Hg].
      match goal with
      | |- context [(AudioProcessor.match_timing env ?p ?a ?b ?nm ≫= _) ?w2] =>
          pose proof (keeps_log_match_timing env p a b nm w2) as Hlog2;
          destruct (AudioProcessor.match_timing env p a b nm w2)
            as [[matched|e] w4] eqn:Hm
      end.
      * erewrite Run.bind_ok; [|exact Hm].
        destruct (IH (S i) (chunks ++ [matched]) w4) as (m & Hle & Hlog).
        exists (S m). split; [simpl; lia|].
        rewrite Hlog. simpl in Hlog1, Hlog2. rewrite Hlog2, Hlog1. simpl.
        rewrite <- app_assoc. reflexivity.
      * erewrite Run.bind_raise; [|exact Hm].
        exists 1%nat. split; [simpl; lia|].
        simpl in Hlog1, Hlog2. simpl. rewrite Hlog2, Hlog1. reflexivity.
    + erewrite Run.bind_raise; [|exact Hg].
      exists 1%nat. split; [simpl; lia|].
      simpl in Hlog1. simpl. rewrite Hlog1. reflexivity.
Qed.

Lemma continuous_loop_log (env : Env) (voice j : string) (n : nat)
    (rest : list AudioSentence) :
  forall (i : nat) (chunks : list string) (w : World),
    exists m,
      (m <= length rest)%nat
      /\ progress_log (continuous_loop env rest i n voice j chunks w).2
         = progress_log w ++ List.map (loop_progress n) (seq i m).
Proof.
  induction rest as [|s rest IH]; intros i chunks w.
  - exists 0%nat. split; [simpl; lia|]. simpl. rewrite app_nil_r. reflexivity.
  - cbn [continuous_loop].
    erewrite Run.bind_ok; [|reflexivity]. erewrite Run.bind_ok; [|reflexivity].
    match goal with
    | |- context [(ElevenLabsService.generate_speech env ?t ?v ?nm ≫= _) ?w2] =>
        pose proof (keeps_log_generate_speech env t v nm w2) as Hlog1;
        destruct (ElevenLabsService.generate_speech env t v nm w2)
          as [[cloned|e] w3] eqn:Hg
    end.
    + erewrite Run.bind_ok; [|exact Hg].
      destruct (IH (S i) (chunks ++ [cloned]) w3) as (m & Hle & Hlog).
      exists (S m). split; [simpl; lia|].
      rewrite Hlog. simpl in Hlog1. rewrite Hlog1. simpl.
      rewrite <- app_assoc. reflexivity.
    + erewrite Run.bind_raise; [|exact Hg].
      exists 1%nat. split; [simpl; lia|].
      simpl in Hlog1. simpl. rewrite Hlog1. reflexivity.
Qed.

(** *** The progress values of a run *)

Lemma log_below_start (l0 : list Z) (b : Z) :
  (b <= 10)%Z -> log_below b l0 -> log_below 30 ((l0 ++ [10]) ++ [30])%Z.
Proof.
  intros Hb Hl0. apply (log_below_snoc 10); [|lia].
  apply (log_below_snoc b); assumption.
Qed.

Lemma log_below_synthesis (n m : nat) (l0 : list Z) (b : Z) :
  (b <= 10)%Z -> log_below b l0 -> (m <= n)%nat ->
  log_below 80 (((l0 ++ [10]) ++ [30]) ++ List.map (loop_progress n) (seq 0 m))%Z
  /\ log_below 80
       ((((l0 ++ [10]) ++ [30]) ++ List.map (loop_progress n) (seq 0 m)) ++ [80])%Z.
Proof.
  intros Hb Hl0 Hm.
  pose proof (log_below_loop n _ 30 ltac:(lia) (log_below_start l0 b Hb Hl0) m Hm)
    as Hloop.
  pose proof (loop_progress_bounds n m Hm) as Hbound.
  split.
  - apply (log_below_weaken (loop_progress n m)); [exact Hloop | lia].
  - apply (log_below_snoc (loop_progress n m)); [exact Hloop | lia].
Qed.

(** In every mode but [continuous_with_spaces], the values a run assigns
    before the finalisation are in non-decreasing order, start at 10 and
    do not exceed 80. *)
Lemma run_mode_log (env : Env) (jid input voice : string)
    (continuous same_length timestamp_based continuous_with_spaces : option string)
    (w : World) :
  is_true continuous_with_spaces = false ->
  exists l,
    progress_log (run_mode env jid input voice
                    continuous same_length timestamp_based continuous_with_spaces w).2
    = progress_log w ++ l
    /\ forall l0 b, (b <= 10)%Z -> log_below b l0 -> log_below 80 (l0 ++ l).
Proof.
  intros Hcws. unfold run_mode. cbv zeta. rewrite Hcws.
  erewrite Run.bind_ok; [|reflexivity].
  erewrite Run.bind_ok; [|reflexivity].
  erewrite Run.bind_ok; [|reflexivity]. Pipeline.tidy.
  match goal with
  | |- context [(transcribe env input ≫= _) ?w2] =>
      pose proof (keeps_log_transcribe env input w2) as Ht;
      destruct (transcribe env input w2) as [[sentences|e] w3] eqn:Htr
  end; simpl in Ht.
  2:{ erewrite Run.bind_raise; [|exact Htr].
      exists [10%Z]. split; [simpl; exact Ht|].
      intros l0 b Hb Hl0. apply (log_below_weaken 10); [|lia].
      apply (log_below_snoc b); assumption. }
  erewrite Run.bind_ok; [|exact Htr].
  erewrite Run.bind_ok; [|reflexivity].
  erewrite Run.bind_ok; [|reflexivity]. Pipeline.tidy.
  destruct (is_true timestamp_based).
  { erewrite Run.bind_ok; [|reflexivity].
    erewrite Run.bind_ok; [|reflexivity]. cbv zeta.
    erewrite Run.bind_ok; [|reflexivity].
    erewrite Run.bind_ok; [|reflexivity]. Pipeline.tidy.
    match goal with
    | |- context [(?c ≫= ?k) ?w6] =>
        pose proof (keeps_log_bind c k
                      (keeps_log_timestamps env _ _ _ _)
                      (fun a => keeps_log_ret _) w6) as Hkeep
    end.
    exists [10; 30; 35; 40]%Z. split.
    - etransitivity; [exact Hkeep|]. simpl. rewrite Ht, <- !app_assoc. reflexivity.
    - intros l0 b Hb Hl0.
      replace (l0 ++ [10; 30; 35; 40]%Z)
        with ((((l0 ++ [10]) ++ [30]) ++ [35]) ++ [40])%Z
        by (rewrite <- !app_assoc; reflexivity).
      apply (log_below_weaken 40); [|lia].
      apply (log_below_snoc 35); [|lia].
      apply (log_below_snoc 30); [|lia].
      apply (log_below_start l0 b); assumption. }
  destruct (is_true same_length).
  { match goal with
    | |- context [(?c ≫= ?k) ?w6] =>
        assert (Hc : keeps_log c)
          by (intros w0; destruct (convert_voice_same_length env input (fs w0));
              reflexivity);
        pose proof (keeps_log_bind c k Hc (fun a => keeps_log_ret _) w6) as Hkeep
    end.
    exists [10; 30]%Z. split.
    - etransitivity; [exact Hkeep|]. simpl. rewrite Ht, <- !app_assoc. reflexivity.
    - intros l0 b Hb Hl0.
      replace (l0 ++ [10; 30]%Z) with ((l0 ++ [10]) ++ [30])%Z
        by (rewrite <- !app_assoc; reflexivity).
      apply (log_below_weaken 30); [|lia].
      apply (log_below_start l0 b); assumption. }
  destruct (is_true continuous).
  - match goal with
    | |- context [(continuous_loop env sentences 0 ?n voice jid [] ≫= _) ?w5] =>
        destruct (continuous_loop_log env voice jid n sentences 0 [] w5)
          as (m & Hm & Hlog);
        destruct (continuous_loop env sentences 0 n voice jid [] w5)
          as [[chunks|e] w6] eqn:Hloop
    end; simpl in Hlog.
    + erewrite Run.bind_ok; [|exact Hloop].
      erewrite Run.bind_ok; [|reflexivity].
      erewrite Run.bind_ok; [|reflexivity]. Pipeline.tidy.
      match goal with
      | |- context [(?c ≫= ?k) ?w8] =>
          pose proof (keeps_log_bind c k
                        (keeps_log_concatenate_audio env _ _)
                        (fun a => keeps_log_ret _) w8) as Hkeep
      end.
      exists ([10; 30]%Z ++ List.map (loop_progress (length sentences)) (seq 0 m)
              ++ [80%Z]).
      split.
      * etransitivity; [exact Hkeep|]. simpl. rewrite Hlog, Ht, <- !app_assoc. reflexivity.
      * intros l0 b Hb Hl0.
        replace (l0 ++ [10; 30]%Z
                 ++ List.map (loop_progress (length sentences)) (seq 0 m) ++ [80%Z])
          with ((((l0 ++ [10]) ++ [30])
                 ++ List.map (loop_progress (length sentences)) (seq 0 m)) ++ [80])%Z
          by (rewrite <- !app_assoc; reflexivity).
        apply (log_below_synthesis (length sentences) m l0 b); assumption.
    + erewrite Run.bind_raise; [|exact Hloop].
      exists ([10; 30]%Z ++ List.map (loop_progress (length sentences)) (seq 0 m)).
      split.
      * simpl. rewrite Hlog, Ht, <- !app_assoc. reflexivity.
      * intros l0 b Hb Hl0.
        replace (l0 ++ [10; 30]%Z
                 ++ List.map (loop_progress (length sentences)) (seq 0 m))
          with (((l0 ++ [10]) ++ [30])
                ++ List.map (loop_progress (length sentences)) (seq 0 m))%Z
          by (rewrite <- !app_assoc; reflexivity).
        apply (log_below_synthesis (length sentences) m l0 b); assumption.
  - match goal with
    | |- context [(original_loop env sentences 0 ?n voice jid [] ≫= _) ?w5] =>
        destruct (original_loop_log env voice jid n sentences 0 [] w5)
          as (m & Hm & Hlog);
        destruct (original_loop env sentences 0 n voice jid [] w5)
          as [[chunks|e] w6] eqn:Hloop
    end; simpl in Hlog.
    + erewrite Run.bind_ok; [|exact Hloop].
      erewrite Run.bind_ok; [|reflexivity].
      erewrite Run.bind_ok; [|reflexivity]. Pipeline.tidy.
      match goal with
      | |- context [(?c ≫= ?k) ?w8] =>
          pose proof (keeps_log_bind c k
                        (keeps_log_concatenate_audio env _ _)
                        (fun a => keeps_log_ret _) w8) as Hkeep
      end.
      exists ([10; 30]%Z ++ List.map (loop_progress (length sentences)) (seq 0 m)
              ++ [80%Z]).
      split.
      * etransitivity; [exact Hkeep|]. simpl. rewrite Hlog, Ht, <- !app_assoc. reflexivity.
      * intros l0 b Hb Hl0.
        replace (l0 ++ [10; 30]%Z
                 ++ List.map (loop_progress (length sentences)) (seq 0 m) ++ [80%Z])
          with ((((l0 ++ [10]) ++ [30])
                 ++ List.map (loop_progress (length sentences)) (seq 0 m)) ++ [80])%Z
          by (rewrite <- !app_assoc; reflexivity).
        apply (log_below_synthesis (length sentences) m l0 b); assumption.
    + erewrite Run.bind_raise; [|exact Hloop].
      exists ([10; 30]%Z ++ List.map (loop_progress (length sentences)) (seq 0 m)).
      split.
      * simpl. rewrite Hlog, Ht, <- !app_assoc. reflexivity.
      * intros l0 b Hb Hl0.
        replace (l0 ++ [10; 30]%Z
                 ++ List.map (loop_progress (length sentences)) (seq 0 m))
          with (((l0 ++ [10]) ++ [30])
                ++ List.map (loop_progress (length sentences)) (seq 0 m))%Z
          by (rewrite <- !app_assoc; reflexivity).
        apply (log_below_synthesis (length sentences) m l0 b); assumption.
Qed.

(** *** The end of a run *)

Lemma process_audio_file_completed (env : Env) (jid input voice : string)
    (continuous same_length timestamp_based continuous_with_spaces : option string)
    (w w1 : World) (out : string) (chunks : list string) :
  run_mode env jid input voice
    continuous same_length timestamp_based continuous_with_spaces w
  = (Ok (out, chunks), w1) ->
  exists w',
    process_audio_file env jid input voice
      continuous same_length timestamp_based continuous_with_spaces w
    = (Ok tt, w')
    /\ job w' = {| job_id := job_id (job w1); status := "completed"; progress := 100;
                   message := "Processing completed successfully";
                   download_url := Some ("file://" +:+ out);
                   error := error (job w1) |}
    /\ progress_log w' = progress_log w1 ++ [90%Z; 100%Z].
Proof.
  intros Hrun.
  unfold process_audio_file.
  match goal with
  | |- exists _, try_except (_ ≫= ?k) _ _ = _ /\ _ =>
      assert (Hk : exists w', k (out, chunks) w1 = (Ok tt, w')
                /\ job w' = {| job_id := job_id (job w1); status := "completed";
                               progress := 100;
                               message := "Processing completed successfully";
                               download_url := Some ("file://" +:+ out);
                               error := error (job w1) |}
                /\ progress_log w' = progress_log w1 ++ [90%Z; 100%Z])
  end.
  { cbv beta iota.
    Pipeline.step. Pipeline.step. Pipeline.step.
    Pipeline.step. Pipeline.step. Pipeline.step.
    match goal with
    | |- exists _, cleanup_temp_files _ _ _ _ _ ?w2 = _ /\ _ =>
        destruct (Pipeline.cleanup_spec env jid input chunks out w2)
          as (w3 & Hclean & (Hj & _ & Hl))
    end.
    exists w3. split; [exact Hclean|].
    rewrite Hj, Hl. Pipeline.tidy. rewrite <- app_assoc.
    split; reflexivity. }
  destruct Hk as (w' & Hk & Hrest).
  exists w'. split; [|exact Hrest].
  apply Run.try_ok. erewrite Run.bind_ok; [|exact Hrun]. exact Hk.
Qed.

(** X20. The background task never raises and always leaves the job in
    a terminal state: either completed, at progress 100, with a download
    URL and the success message, or failed, with the error recorded and
    repeated in the message. It never leaves a job in processing. *)
Theorem process_audio_file_settles_the_job (env : Env) (jid input voice : string)
    (continuous same_length timestamp_based continuous_with_spaces : option string)
    (w : World) :
  let r := process_audio_file env jid input voice
             continuous same_length timestamp_based continuous_with_spaces w in
  r.1 = Ok tt
  /\ ((status (job r.2) = "completed"
       /\ progress (job r.2) = 100%Z
       /\ message (job r.2) = "Processing completed successfully"
       /\ exists out, download_url (job r.2) = Some ("file://" +:+ out))
      \/ (status (job r.2) = "failed"
          /\ exists msg,
               error (job r.2) = Some msg
               /\ message (job r.2) = "Processing failed: " +:+ msg)).
Proof.
  cbv zeta.
  destruct (run_mode env jid input voice
              continuous same_length timestamp_based continuous_with_spaces w)
    as [[[out chunks]|e] w1] eqn:Hrun.
  - destruct (process_audio_file_completed env jid input voice continuous same_length
                timestamp_based continuous_with_spaces w w1 out chunks Hrun)
      as (w' & Hp & Hjob & _).
    rewrite Hp. simpl. split; [reflexivity|]. left. rewrite Hjob. simpl.
    repeat split. exists out. reflexivity.
  - destruct (Pipeline.process_audio_file_failure env jid input voice continuous
                same_length timestamp_based continuous_with_spaces w w1 e Hrun)
      as (w' & Hp & _ & Hstatus & Herror & Hmessage & _).
    rewrite Hp. simpl. split; [reflexivity|]. right.
    split; [exact Hstatus|]. exists (exn_msg e). split; assumption.
Qed.

Lemma sorted_from_zero (l : list Z) :
  StronglySorted Z.le (0%Z :: l) -> Forall (fun p => (0 <= p)%Z) (0%Z :: l).
Proof.
  intros H. apply StronglySorted_inv in H. destruct H as [_ H].
  constructor; [lia | exact H].
Qed.

(** X21. In every mode but [continuous_with_spaces], the progress of a
    freshly queued job never goes down: the values assigned during the
    run are in non-decreasing order and stay between 0 and 100, and 100
    is assigned only on a job that completes. *)
Theorem progress_never_decreases (env : Env) (jid input voice : string)
    (continuous same_length timestamp_based continuous_with_spaces : option string)
    (w : World)
    (Hmode : is_true continuous_with_spaces = false)
    (Hlog : progress_log w = [0%Z]) :
  let w' := (process_audio_file env jid input voice
               continuous same_length timestamp_based continuous_with_spaces w).2 in
  StronglySorted Z.le (progress_log w')
  /\ Forall (fun p => (0 <= p <= 100)%Z) (progress_log w')
  /\ (In 100%Z (progress_log w') -> status (job w') = "completed").
Proof.
  cbv zeta.
  destruct (run_mode_log env jid input voice continuous same_length timestamp_based
              continuous_with_spaces w Hmode) as (l & Hl & Hbelow).
  assert (H0 : log_below 0 [0%Z]).
  { split; [repeat constructor | constructor; [lia | constructor]]. }
  specialize (Hbelow [0%Z] 0%Z ltac:(lia) H0).
  assert (Hfinish : forall b l1,
            log_below b ([0%Z] ++ l1) -> (b <= 100)%Z ->
            StronglySorted Z.le ([0%Z] ++ l1)
            /\ Forall (fun p => (0 <= p <= 100)%Z) ([0%Z] ++ l1)).
  { intros b l1 [Hs Hb] Hle. split; [exact Hs|].
    pose proof (sorted_from_zero l1 Hs) as Hpos.
    apply List.Forall_forall. intros p Hp.
    pose proof (proj1 (List.Forall_forall _ _) Hpos p Hp) as H1.
    pose proof (proj1 (List.Forall_forall _ _) Hb p Hp) as H2.
    simpl in H1, H2. lia. }
  destruct (run_mode env jid input voice
              continuous same_length timestamp_based continuous_with_spaces w)
    as [[[out chunks]|e] w1] eqn:Hrun; simpl in Hl.
  - destruct (process_audio_file_completed env jid input voice continuous same_length
                timestamp_based continuous_with_spaces w w1 out chunks Hrun)
      as (w' & Hp & Hjob & Hlog').
    rewrite Hp. simpl. rewrite Hlog', Hl, Hlog.
    assert (Hall : log_below 100 ([0%Z] ++ (l ++ [90; 100]%Z))).
    { replace ([0%Z] ++ (l ++ [90; 100]%Z))
        with ((([0%Z] ++ l) ++ [90]) ++ [100])%Z
        by (rewrite <- !app_assoc; reflexivity).
      apply (log_below_snoc 90); [|lia].
      apply (log_below_snoc 80); [exact Hbelow | lia]. }
    rewrite <- app_assoc.
    destruct (Hfinish 100%Z _ Hall ltac:(lia)) as [Hs Hb].
    split; [exact Hs|]. split; [exact Hb|].
    intros _. rewrite Hjob. reflexivity.
  - destruct (Pipeline.process_audio_file_failure env jid input voice continuous
                same_length timestamp_based continuous_with_spaces w w1 e Hrun)
      as (w' & Hp & _ & Hstatus & _ & _ & Hlog').
    rewrite Hp. simpl. rewrite Hlog', Hl, Hlog.
    destruct (Hfinish 80%Z _ Hbelow ltac:(lia)) as [Hs Hb].
    split; [exact Hs|]. split; [exact Hb|].
    intros Hin. exfalso.
    destruct Hbelow as [_ Hbelow].
    pose proof (proj1 (List.Forall_forall _ _) Hbelow 100%Z Hin) as H. simpl in H. lia.
Qed.

Lemma progress_never_decreases_witness :
  let w' := (process_audio_file (demo_env demo_sentences) "job" "uploads/job_in.wav"
               "voice" None None None None demo_upload).2 in
  StronglySorted Z.le (progress_log w')
  /\ Forall (fun p => (0 <= p <= 100)%Z) (progress_log w')
  /\ (In 100%Z (progress_log w') -> status (job w') = "completed").
Proof.
  apply (progress_never_decreases (demo_env demo_sentences) "job" "uploads/job_in.wav"
           "voice" None None None None demo_upload).
  - reflexivity.
  - reflexivity.
Defined.

End TaskFacts.

(** ** Edge cases of a run *)

Module EdgeFacts.
Import Main.

(** X22. A transcription without sentences fails the job in every mode
    the backend implements itself, with a message that depends on the
    mode, and no file is created or removed: the continuous converter
    checks for it, the other modes fail in the concatenation. *)
Theorem empty_transcription_fails (env : Env) (jid input voice : string)
    (continuous same_length timestamp_based continuous_with_spaces : option string)
    (w : World) (audio : AudioSegment.t)
    (Hfile : fs w !! input = Some (Wav audio))
    (Hempty : transcribe_audio env input = Ok [])
    (Hmode : is_true continuous_with_spaces = true
             \/ is_true timestamp_based = true
             \/ is_true same_length = false) :
  let w' := (process_audio_file env jid input voice
               continuous same_length timestamp_based continuous_with_spaces w).2 in
  status (job w') = "failed"
  /\ error (job w')
     = Some (if is_true continuous_with_spaces
             then "Continuous voice conversion failed: No sentences found in transcription"
             else if is_true timestamp_based
                  then "Sentence processing failed: "
                       +:+ "Audio concatenation failed: No audio files to concatenate"
                  else "Audio concatenation failed: No audio files to concatenate")
  /\ fs w' = fs w.
Proof.
  cbv zeta. unfold process_audio_file, run_mode. cbv zeta.
  destruct (is_true continuous_with_spaces) eqn:Ec.
  - unfold convert_voice_continuous_with_spaces, transcribe, _cleanup_temp_files,
      try_except, mbind, M_bind, path_exists, get_temp_files.
    simpl. rewrite Hfile. simpl. rewrite Hempty. simpl. repeat split.
  - destruct (is_true timestamp_based) eqn:Et.
    + unfold SentenceProcessor.process_sentences_with_timestamps, transcribe,
        try_except, mbind, M_bind, from_file.
      simpl. rewrite Hempty. simpl. rewrite Hfile. simpl. repeat split.
    + destruct Hmode as [Hm|[Hm|Hm]]; try discriminate. rewrite Hm.
      destruct (is_true continuous);
        unfold transcribe, try_except, mbind, M_bind;
        simpl; rewrite Hempty; simpl; repeat split.
Qed.

Lemma empty_transcription_fails_witness :
  let w' := (process_audio_file (demo_env []) "job" "uploads/job_in.wav" "voice"
               None None None (Some "True") demo_upload).2 in
  status (job w') = "failed"
  /\ error (job w')
     = Some (if is_true (Some "True")
             then "Continuous voice conversion failed: No sentences found in transcription"
             else if is_true None
                  then "Sentence processing failed: "
                       +:+ "Audio concatenation failed: No audio files to concatenate"
                  else "Audio concatenation failed: No audio files to concatenate")
  /\ fs w' = fs demo_upload.
Proof.
  apply (empty_transcription_fails (demo_env []) "job" "uploads/job_in.wav" "voice"
           None None None (Some "True") demo_upload (repeat 1%Z (Z.to_nat 8000))).
  - reflexivity.
  - reflexivity.
  - left. reflexivity.
Defined.

End EdgeFacts.

(** ** A whole conversion with empty segments *)

Module WithSpacesRun.
Import Main.

#[local] Arguments String.append !_ _ / : simpl nomatch.

Lemma temp_sentence_path_inj (env : Env) (j : string) (i k : nat) :
  temp_sentence_path env j i = temp_sentence_path env j k -> i = k.
Proof.
  unfold temp_sentence_path. intros H. apply Paths.wav_path_inj, Paths.append_inj_l in H.
  apply Paths.str_nat_inj. exact H.
Qed.

Lemma temp_sentence_not_continuous (env : Env) (j : string) (k : nat) :
  temp_sentence_path env j k <> continuous_path env j.
Proof.
  unfold temp_sentence_path, continuous_path. intros H.
  apply Paths.wav_path_inj in H. discriminate H.
Qed.

Lemma lookup_map_Some {A B : Type} (f : A -> B) (l : list A) (k : nat) (y : B) :
  List.map f l !! k = Some y -> exists x, l !! k = Some x /\ y = f x.
Proof.
  revert k. induction l as [|a l IH]; intros k H; [destruct k; discriminate|].
  destruct k as [|k]; simpl in H.
  - inversion H. exists a. split; reflexivity.
  - apply IH. exact H.
Qed.

(** The synthesis loop writes one clip per sentence and tracks each of
    them as a temporary file. *)
Lemma clone_loop_spec (env : Env) (voice j : string) (n : nat)
    (clip : nat -> AudioSegment.t) (rest : list AudioSentence) :
  forall (i : nat) (acc : list string) (w : World),
    (forall k s, rest !! k = Some s ->
       text_to_speech env (text s) voice
         (j +:+ "_temp_sentence_" +:+ str_nat (i + k)%nat)
       = Ok (Wav (clip (i + k)%nat))) ->
    exists w',
      clone_loop env rest i n voice j acc w =
        (Ok (acc ++ List.map (temp_sentence_path env j) (seq i (length rest))), w')
      /\ temp_files w'
         = temp_files w ++ List.map (temp_sentence_path env j) (seq i (length rest))
      /\ (forall k, (k < length rest)%nat ->
            fs w' !! temp_sentence_path env j (i + k)%nat
            = Some (Wav (clip (i + k)%nat)))
      /\ (forall p,
            (forall k, (i <= k < i + length rest)%nat ->
               p <> temp_sentence_path env j k) ->
            fs w' !! p = fs w !! p).
Proof.
  induction rest as [|s rest IH]; intros i acc w Hsynth.
  - exists w. simpl. rewrite !app_nil_r. split; [reflexivity|].
    split; [reflexivity|]. split; [intros k H; lia | reflexivity].
  - pose proof (Hsynth 0%nat s eq_refl) as Htts.
    rewrite Nat.add_0_r in Htts.
    cbn [clone_loop].
    erewrite Run.bind_ok; [|reflexivity].
    erewrite Run.bind_ok; [|reflexivity].
    erewrite Run.bind_ok; [|apply Pipeline.generate_speech_ok; exact Htts].
    erewrite Run.bind_ok; [|reflexivity].
    match goal with
    | |- context [clone_loop env rest (S i) n voice j _ ?w1] =>
        destruct (IH (S i) (acc ++ [temp_sentence_path env j i]) w1)
          as (w' & Hrun & Htemp & Hfiles & Hframe)
    end.
    { intros k s' Hk. rewrite Nat.add_succ_comm. apply (Hsynth (S k) s' Hk). }
    exists w'. split; [|split; [|split]].
    + unfold temp_sentence_path at 1 in Hrun. unfold temp_sentence_path at 1.
      rewrite Hrun. simpl. rewrite <- app_assoc. reflexivity.
    + rewrite Htemp. simpl. rewrite <- app_assoc. reflexivity.
    + intros [|k] Hk.
      * rewrite Nat.add_0_r. rewrite Hframe.
        -- apply lookup_insert_eq.
        -- intros k Hle E. apply temp_sentence_path_inj in E. lia.
      * rewrite <- Nat.add_succ_comm. apply Hfiles. simpl in Hk. lia.
    + intros p Hp. rewrite Hframe.
      * simpl. rewrite lookup_insert_ne
          by (intros E; apply (Hp i); [simpl; lia | symmetry; exact E]).
        reflexivity.
      * intros k Hle. apply Hp. simpl. lia.
Qed.

(** The timeline loop returns as soon as every clip loads. *)
Lemma timeline_loop_total (w : World) (pairs : list (string * AudioSentence)) :
  forall (final_audio : AudioSegment.t) (current_position : Q),
    (forall k path s, pairs !! k = Some (path, s) ->
       exists clip, fs w !! path = Some (Wav clip)) ->
    exists out, timeline_loop pairs final_audio current_position w = (Ok out, w).
Proof.
  induction pairs as [|[path s] pairs IH]; intros final_audio current_position Hload.
  - exists final_audio. reflexivity.
  - destruct (Hload 0%nat path s eq_refl) as [clip Hclip].
    cbn [timeline_loop].
    erewrite Run.bind_ok; [|unfold from_file; rewrite Hclip; reflexivity].
    apply IH. intros k path' s' Hk. apply (Hload (S k) path' s' Hk).
Qed.

Lemma create_continuous_audio_run (env : Env) (w : World)
    (temp_audio_files : list string) (sentences : list AudioSentence)
    (input_path jid : string) (original_audio : AudioSegment.t) :
  fs w !! input_path = Some (Wav original_audio) ->
  (forall k path, temp_audio_files !! k = Some path ->
     exists clip, fs w !! path = Some (Wav clip)) ->
  exists out,
    _create_continuous_audio_with_spaces env temp_audio_files sentences input_path jid w
    = (Ok (continuous_path env jid), put_file w (continuous_path env jid) (Wav out))
    /\ (AudioSegment.len original_audio <= AudioSegment.len out)%Z.
Proof.
  intros Hfile Hload.
  destruct (timeline_loop_total w (zip temp_audio_files sentences) AudioSegment.empty 0)
    as [timeline Hloop].
  { intros k path s Hk. apply lookup_zip_with_Some in Hk.
    destruct Hk as (x & y & Hxy & Hx & Hy). inversion Hxy; subst.
    apply (Hload k x Hx). }
  destruct (WithSpacesFacts.final_padding timeline original_audio)
    as (pad & Hpad & Hlen).
  cbv zeta in Hpad. exists (timeline ++ pad). split.
  - unfold _create_continuous_audio_with_spaces. apply Run.try_ok.
    erewrite Run.bind_ok; [|unfold from_file; rewrite Hfile; reflexivity].
    erewrite Run.bind_ok; [|exact Hloop].
    cbv zeta. rewrite Hpad. reflexivity.
  - rewrite Pipeline.len_app. lia.
Qed.

Lemma converter_cleanup_run (w : World) :
  exists n w',
    _cleanup_temp_files w = (Ok n, w')
    /\ temp_files w' = []
    /\ job w' = job w
    /\ progress_log w' = progress_log w
    /\ (forall p, In p (temp_files w) -> fs w' !! p = None)
    /\ (forall q, ~ In q (temp_files w) -> fs w' !! q = fs w !! q).
Proof.
  destruct (CleanupFacts.unlink_all_full (temp_files w) 0 w)
    as (n & w' & Hrun & Hn & (Hj & Ht & Hl) & Hgone & Hkeep).
  exists n, {| fs := fs w'; job := job w'; temp_files := [];
              progress_log := progress_log w' |}.
  split.
  - unfold _cleanup_temp_files.
    erewrite Run.bind_ok; [|reflexivity].
    erewrite Run.bind_ok; [|exact Hrun]. reflexivity.
  - simpl. repeat split; assumption.
Qed.

(** X23. A conversion with empty segments that meets no failure: when
    the upload is readable, the transcription has sentences and every
    sentence is synthesised, the converter returns
    [OUTPUT_DIR/<job_id>_continuous.wav], a file that covers the original
    (it is shorter by 3 ms at most, the margin of the final padding for
    truncation and rounding); every clip it synthesised on the way has
    been deleted and is no longer tracked, and no other file has
    changed. *)
Theorem with_spaces_conversion (env : Env) (input voice jid : string) (w : World)
    (sentences : list AudioSentence) (clip : nat -> AudioSegment.t)
    (original_audio : AudioSegment.t)
    (Hfile : fs w !! input = Some (Wav original_audio))
    (Htemp : temp_files w = [])
    (Htranscribe : transcribe_audio env input = Ok sentences)
    (Hsome : sentences <> [])
    (Hsynth : forall k s, sentences !! k = Some s ->
       text_to_speech env (text s) voice (jid +:+ "_temp_sentence_" +:+ str_nat k)
       = Ok (Wav (clip k)))
    (Hinput : forall k, (k < length sentences)%nat ->
       input <> temp_sentence_path env jid k) :
  let r := convert_voice_continuous_with_spaces env input voice jid w in
  r.1 = Ok (continuous_path env jid)
  /\ (exists out,
        fs r.2 !! continuous_path env jid = Some (Wav out)
        /\ (AudioSegment.len original_audio - 3 <= AudioSegment.len out)%Z)
  /\ (forall k, (k < length sentences)%nat ->
        fs r.2 !! temp_sentence_path env jid k = None)
  /\ temp_files r.2 = []
  /\ (forall q, q <> continuous_path env jid ->
        (forall k, (k < length sentences)%nat -> q <> temp_sentence_path env jid k) ->
        fs r.2 !! q = fs w !! q).
Proof.
  cbv zeta.
  set (paths := List.map (temp_sentence_path env jid) (seq 0 (length sentences))).
  assert (Hin : forall p, In p paths <->
            exists k, (k < length sentences)%nat /\ p = temp_sentence_path env jid k).
  { intros p. unfold paths. rewrite List.in_map_iff. split.
    - intros (k & <- & Hk). apply List.in_seq in Hk. exists k. split; [lia | reflexivity].
    - intros (k & Hk & ->). exists k. split; [reflexivity|]. apply List.in_seq. lia. }
  assert (Hrun : exists out w',
            convert_voice_continuous_with_spaces env input voice jid w
            = (Ok (continuous_path env jid), w')
            /\ fs w' !! continuous_path env jid = Some (Wav out)
            /\ (AudioSegment.len original_audio <= AudioSegment.len out)%Z
            /\ temp_files w' = []
            /\ (forall p, In p paths -> fs w' !! p = None)
            /\ (forall q, q <> continuous_path env jid -> ~ In q paths ->
                  fs w' !! q = fs w !! q)).
  { unfold convert_voice_continuous_with_spaces.
    assert (Hexists : path_exists input w = (Ok true, w)).
    { unfold path_exists. rewrite Hfile. reflexivity. }
    match goal with
    | |- exists _ _, try_except ?body _ _ = _ /\ _ =>
        assert (Hbody : exists out w',
                  body w = (Ok (continuous_path env jid), w')
                  /\ fs w' !! continuous_path env jid = Some (Wav out)
                  /\ (AudioSegment.len original_audio <= AudioSegment.len out)%Z
                  /\ temp_files w' = []
                  /\ (forall p, In p paths -> fs w' !! p = None)
                  /\ (forall q, q <> continuous_path env jid -> ~ In q paths ->
                        fs w' !! q = fs w !! q))
    end.
    { cbv zeta.
      erewrite Run.bind_ok; [|exact Hexists]. cbn [negb].
      erewrite Run.bind_ok; [|reflexivity].
      erewrite Run.bind_ok; [|reflexivity].
      erewrite Run.bind_ok; [|unfold transcribe; rewrite Htranscribe; reflexivity].
      destruct (length sentences =? 0)%nat eqn:Hzero.
      { apply Nat.eqb_eq, List.length_zero_iff_nil in Hzero. contradiction. }
      match goal with
      | |- context [(clone_loop env sentences 0 ?n voice jid [] ≫= _) ?w1] =>
          destruct (clone_loop_spec env voice jid n clip sentences 0 [] w1)
            as (w2 & Hclone & Htemp2 & Hfiles2 & Hframe2)
      end.
      { intros k s Hk. apply (Hsynth k s Hk). }
      cbn [fs temp_files] in Htemp2, Hframe2. rewrite Htemp in Htemp2.
      simpl in Htemp2. fold paths in Htemp2, Hclone.
      erewrite Run.bind_ok; [|exact Hclone].
      erewrite Run.bind_ok; [|reflexivity].
      erewrite Run.bind_ok; [|reflexivity]. Pipeline.tidy.
      match goal with
      | |- context [(_create_continuous_audio_with_spaces env _ _ _ _ ≫= _) ?w3] =>
          destruct (create_continuous_audio_run env w3 paths sentences input jid
                      original_audio) as (out & Hcreate & Hlen)
      end.
      { simpl. rewrite Hframe2; [exact Hfile|].
        intros k Hk. apply Hinput. simpl in Hk. lia. }
      { simpl. intros k path Hk. unfold paths in Hk.
        apply lookup_map_Some in Hk. destruct Hk as (i & Hi & ->).
        apply lookup_seq in Hi. destruct Hi as [-> Hi].
        exists (clip k). apply (Hfiles2 k). exact Hi. }
      erewrite Run.bind_ok; [|exact Hcreate].
      erewrite Run.bind_ok; [|reflexivity].
      erewrite Run.bind_ok; [|reflexivity].
      match goal with
      | |- context [(_cleanup_temp_files ≫= _) ?w5] =>
          destruct (converter_cleanup_run w5)
            as (cnt & w6 & Hclean & Htemp6 & _ & _ & Hgone & Hkeep)
      end.
      cbn [fs temp_files put_file] in Hgone, Hkeep.
      rewrite Htemp2 in Hgone, Hkeep.
      erewrite Run.bind_ok; [|exact Hclean].
      exists out, w6. split; [reflexivity|].
      assert (Hout : ~ In (continuous_path env jid) paths).
      { intros Hc. apply Hin in Hc. destruct Hc as (k & _ & Hc).
        symmetry in Hc. apply temp_sentence_not_continuous in Hc. exact Hc. }
      split; [|split; [exact Hlen|split; [exact Htemp6|split]]].
      - rewrite (Hkeep _ Hout). apply lookup_insert_eq.
      - exact Hgone.
      - intros q Hq Hnot. rewrite (Hkeep q Hnot).
        rewrite lookup_insert_ne by congruence.
        apply Hframe2. intros k Hk Hc. apply Hnot. apply Hin.
        exists k. split; [simpl in Hk; lia | exact Hc]. }
    destruct Hbody as (out & w' & Hbody & Hrest).
    exists out, w'. split; [|exact Hrest].
    apply Run.try_ok. exact Hbody. }
  destruct Hrun as (out & w' & Hrun & Hout & Hlen & Htemp' & Hgone & Hkeep).
  rewrite Hrun. simpl. split; [reflexivity|].
  split; [exists out; split; [assumption | lia]|].
  split; [intros k Hk; apply Hgone, Hin; exists k; split; [exact Hk | reflexivity]|].
  split; [exact Htemp'|].
  intros q Hq Hnot. apply Hkeep; [exact Hq|].
  intros Hc. apply Hin in Hc. destruct Hc as (k & Hk & ->). apply (Hnot k Hk). reflexivity.
Qed.

Lemma with_spaces_conversion_witness :
  let env := demo_env demo_sentences in
  let r := convert_voice_continuous_with_spaces env "uploads/job_in.wav" "voice" "job"
             demo_upload in
  r.1 = Ok (continuous_path env "job")
  /\ (exists out,
        fs r.2 !! continuous_path env "job" = Some (Wav out)
        /\ (AudioSegment.len (repeat 1%Z (Z.to_nat 8000)) - 3
            <= AudioSegment.len out)%Z)
  /\ (forall k, (k < length demo_sentences)%nat ->
        fs r.2 !! temp_sentence_path env "job" k = None)
  /\ temp_files r.2 = []
  /\ (forall q, q <> continuous_path env "job" ->
        (forall k, (k < length demo_sentences)%nat ->
           q <> temp_sentence_path env "job" k) ->
        fs r.2 !! q = fs demo_upload !! q).
Proof.
  apply (with_spaces_conversion (demo_env demo_sentences) "uploads/job_in.wav" "voice"
           "job" demo_upload demo_sentences (demo_clip demo_sentences)
           (repeat 1%Z (Z.to_nat 8000))).
  - reflexivity.
  - reflexivity.
  - reflexivity.
  - discriminate.
  - intros k s Hk. unfold demo_clip. rewrite Hk. reflexivity.
  - intros k _ H. unfold temp_sentence_path, path_join in H. simpl in H. discriminate H.
Defined.

End WithSpacesRun.

(** ** The timeline with silence gaps (tests/test_complete_workflow.py) *)

Module GapsFacts.
Import CompleteVoiceConverter.

(** What a gap adds to the audio: all of it but at most 10 ms. *)
Lemma gap_silence_bounds (final_audio : AudioSegment.t) (gap_duration : Q) :
  0 <= gap_duration ->
  let final_audio' :=
    if Py.gtb gap_duration 0.01
    then AudioSegment.add final_audio
           (AudioSegment.silent (Py.int (gap_duration * 1000)))
    else final_audio in
  inject_Z (AudioSegment.len final_audio')
  <= inject_Z (AudioSegment.len final_audio) + gap_duration * 1000
  /\ inject_Z (AudioSegment.len final_audio) + gap_duration * 1000 - 10
     <= inject_Z (AudioSegment.len final_audio').
Proof.
  intros Hgap. cbv zeta.
  destruct (Py.gtb gap_duration 0.01) eqn:E.
  - destruct (int_floor (gap_duration * 1000) ltac:(lra)) as [H1 H2].
    pose proof (int_nonneg (gap_duration * 1000) ltac:(lra)) as Hpos.
    rewrite Timing.len_add, Timing.len_silent, Z.max_r by exact Hpos.
    rewrite inject_Z_plus. split; lra.
  - apply ltb_false in E. split; lra.
Qed.

Lemma gaps_loop_bounds (w : World) (pairs : list (string * AudioSentence)) :
  forall (final_audio : AudioSegment.t) (current_time : Q),
    (forall k path s, pairs !! k = Some (path, s) ->
       exists a, fs w !! path = Some (Wav a) /\ AudioSegment.len a = slot_ms s) ->
    chronological current_time (List.map (fun p => to_dict p.2) pairs) ->
    exists out,
      gaps_loop pairs final_audio current_time w
      = (Ok (out, last_end current_time (List.map (fun p => to_dict p.2) pairs)), w)
      /\ inject_Z (AudioSegment.len out)
         <= inject_Z (AudioSegment.len final_audio)
            + (last_end current_time (List.map (fun p => to_dict p.2) pairs)
               - current_time) * 1000
      /\ inject_Z (AudioSegment.len final_audio)
         + (last_end current_time (List.map (fun p => to_dict p.2) pairs)
            - current_time) * 1000
         - 11 * inject_Z (Z.of_nat (length pairs))
         <= inject_Z (AudioSegment.len out).
Proof.
  induction pairs as [|[path s] pairs IH]; intros final_audio current_time Hload Hchron.
  - exists final_audio. split; [reflexivity|]. simpl.
    change (inject_Z (Z.of_nat 0)) with 0. split; lra.
  - destruct (Hload 0%nat path s eq_refl) as (a & Hfile & Hlen).
    simpl in Hchron. destruct Hchron as (Hstart & Hslot & Hrest).
    destruct (gap_silence_bounds final_audio (start_time s - current_time)
                ltac:(lra)) as [Hg1 Hg2].
    cbn [gaps_loop]. cbv zeta in Hg1, Hg2.
    set (final_audio' :=
           if Py.gtb (start_time s - current_time) 0.01
           then AudioSegment.add final_audio
                  (AudioSegment.silent (Py.int ((start_time s - current_time) * 1000)))
           else final_audio) in *.
    erewrite Run.bind_ok; [|unfold from_file; rewrite Hfile; reflexivity].
    destruct (IH (AudioSegment.add final_audio' a) (end_time s)) as (out & Hrun & H1 & H2).
    { intros k path' s' Hk. apply (Hload (S k) path' s' Hk). }
    { exact Hrest. }
    exists out. split; [exact Hrun|].
    change (length ((path, s) :: pairs)) with (S (length pairs)).
    rewrite GapAccounting.inject_nat_succ.
    cbn [List.map last_end snd to_dict d_end_time].
    rewrite Timing.len_add, inject_Z_plus, Hlen in H1, H2.
    destruct (int_floor ((end_time s - start_time s) * 1000) ltac:(lra)) as [Hs1 Hs2].
    fold (slot_ms s) in Hs1, Hs2.
    revert Hg1 Hg2 H1 H2.
    generalize (inject_Z (AudioSegment.len final_audio')).
    generalize (inject_Z (AudioSegment.len out)).
    generalize (last_end (end_time s) (List.map (fun p => to_dict p.2) pairs)).
    intros L o f' Hg1 Hg2 H1 H2. split; lra.
Qed.



End GapsFacts.

(** ** A whole timestamp-based processing *)

Module TimestampRun.
Import SentenceProcessor.

#[local] Arguments String.append !_ _ / : simpl nomatch.

Lemma append_assoc (a b c : string) : (a +:+ b) +:+ c = a +:+ (b +:+ c).
Proof. induction a as [|x a IH]; simpl; [reflexivity | rewrite IH; reflexivity]. Qed.

Lemma append_split (a c b d : string) :
  String.length a = String.length c -> a +:+ b = c +:+ d -> a = c /\ b = d.
Proof.
  revert c. induction a as [|x a IH]; intros [|y c] Hlen H; try discriminate.
  - split; [reflexivity | exact H].
  - simpl in H. inversion H; subst. simpl in Hlen.
    destruct (IH c ltac:(lia) ltac:(assumption)) as [-> ->]. split; reflexivity.
Qed.

Section Names.
Context (env : Env).
Hypothesis Huuid : forall i, String.length (uuid_hex8 env i) = 8%nat.

Lemma temp_sentence_name_inj (i k : nat) :
  temp_sentence_name env i = temp_sentence_name env k -> i = k.
Proof.
  unfold temp_sentence_name. intros H. apply Paths.append_inj_l in H.
  apply append_split in H; [|rewrite !Huuid; reflexivity].
  destruct H as [_ H]. apply Paths.append_inj_l in H.
  apply Paths.str_nat_inj. exact H.
Qed.

Lemma cloned_temp_path_inj (i k : nat) :
  cloned_temp_path env i = cloned_temp_path env k -> i = k.
Proof.
  unfold cloned_temp_path, path_join. intros H.
  apply Paths.append_inj_l, Paths.append_inj_l, Paths.append_inj_r in H.
  apply temp_sentence_name_inj. exact H.
Qed.

Lemma adjusted_temp_path_inj (i k : nat) :
  adjusted_temp_path env i = adjusted_temp_path env k -> i = k.
Proof.
  unfold adjusted_temp_path. intros H. apply Paths.wav_path_inj in H.
  apply temp_sentence_name_inj. exact H.
Qed.

End Names.

Lemma adjusted_not_cloned (env : Env) (i k : nat) :
  adjusted_temp_path env i <> cloned_temp_path env k.
Proof.
  unfold adjusted_temp_path, cloned_temp_path, temp_dir, path_join, temp_sentence_name.
  intros H. rewrite append_assoc in H. apply Paths.append_inj_l in H.
  simpl in H. discriminate H.
Qed.

Lemma generate_speech_ok_inv (env : Env) (t voice name : string) (w w' : World)
    (p : string) :
  ElevenLabsService.generate_speech env t voice name w = (Ok p, w') ->
  p = path_join (OUTPUT_DIR env) (name +:+ ".wav")
  /\ exists content, w' = put_file w p content.
Proof.
  intros H. destruct (text_to_speech env t voice name) as [content|e] eqn:E.
  - rewrite (Pipeline.generate_speech_ok env t voice name content w E) in H.
    inversion H; subst. split; [reflexivity|]. exists content. reflexivity.
  - rewrite (Pipeline.generate_speech_raise env t voice name e w E) in H.
    discriminate.
Qed.

Lemma adjust_ok_inv (env : Env) (path : string) (target : Q) (name : string)
    (w w' : World) (p : string) :
  0 <= target ->
  _adjust_audio_length env path target name w = (Ok p, w') ->
  p = path_join (temp_dir env) (name +:+ ".wav")
  /\ exists a,
       w' = put_file w p (Wav a) /\ AudioSegment.len a = Py.int (target * 1000).
Proof.
  intros Htarget H.
  assert (Hms : (0 <= Py.int (target * 1000))%Z) by (apply int_nonneg; lra).
  rewrite SentenceFacts.adjust_audio_length_cases in H.
  destruct (fs w !! path) as [[clip|]|]; try discriminate.
  destruct (Py.eqb (inject_Z (AudioSegment.len clip) / 1000) 0); [discriminate|].
  cbv zeta in H.
  destruct (Py.ltb _ 0.05).
  - inversion H; subst. split; [reflexivity|]. eexists. split; [reflexivity|].
    apply Timing.len_ensure_exact_duration. exact Hms.
  - destruct (AudioProcessor.speedup_by_inverse env clip _) as [adjusted|x];
      [|discriminate].
    inversion H; subst. split; [reflexivity|]. eexists. split; [reflexivity|].
    apply Timing.len_ensure_exact_duration. exact Hms.
Qed.

Lemma concatenate_ok_inv (env : Env) (paths : list string) (name : string)
    (w w' : World) (p : string) :
  AudioProcessor.concatenate_audio env paths name w = (Ok p, w') ->
  p = path_join (OUTPUT_DIR env) (name +:+ ".wav")
  /\ w' = put_file w p (Wav (concat (List.map (loaded_or_silence (fs w)) paths))).
Proof.
  intros H. destruct paths as [|p0 paths0] eqn:Hpaths; [discriminate|].
  rewrite <- Hpaths in *.
  destruct (Z.eq_dec (AudioSegment.len
                        (concat (List.map (loaded_or_silence (fs w)) paths))) 0%Z)
    as [Hz|Hnz].
  - exfalso. rewrite Hpaths in H.
    unfold AudioProcessor.concatenate_audio, try_except, mbind, M_bind in H.
    rewrite Concatenation.concatenate_loop_spec in H. rewrite <- Hpaths in H.
    change (AudioSegment.empty ++ concat (List.map (loaded_or_silence (fs w)) paths))
      with (concat (List.map (loaded_or_silence (fs w)) paths)) in H.
    rewrite Hz in H. discriminate.
  - rewrite (Concatenation.concatenate_audio_ok env paths name w) in H
      by (assumption || congruence).
    inversion H; subst. split; reflexivity.
Qed.

(** The per-sentence loop, when it returns: one adjusted clip per
    sentence, of the target length, and no synthesised clip left. *)
Lemma process_timeline_ok (env : Env) (voice : string)
    (Huuid : forall i, String.length (uuid_hex8 env i) = 8%nat)
    (timeline : list (SentenceDict * Q)) :
  forall (i : nat) (acc : list string) (w w' : World) (paths : list string),
    Forall (fun p => 0 <= p.2) timeline ->
    process_timeline env timeline i voice acc w = (Ok paths, w') ->
    paths = acc ++ List.map (adjusted_temp_path env) (seq i (length timeline))
    /\ (forall k p, timeline !! k = Some p ->
          duration_at w' (adjusted_temp_path env (i + k)%nat)
          = Some (Py.int (p.2 * 1000)))
    /\ (forall k, (k < length timeline)%nat ->
          fs w' !! cloned_temp_path env (i + k)%nat = None)
    /\ (forall q,
          (forall k, (i <= k)%nat ->
             q <> adjusted_temp_path env k /\ q <> cloned_temp_path env k) ->
          fs w' !! q = fs w !! q).
Proof.
  induction timeline as [|[s t] timeline IH]; intros i acc w w' paths Hpos H.
  - simpl in H. inversion H; subst. simpl. rewrite app_nil_r.
    split; [reflexivity|]. split; [intros k p Hk; destruct k; discriminate|].
    split; [intros k Hk; lia | reflexivity].
  - apply List.Forall_cons_iff in Hpos. destruct Hpos as [Ht Hpos]. simpl in Ht.
    cbn [process_timeline] in H. cbv zeta in H.
    apply Run.bind_ok_inv in H. destruct H as (cloned & w1 & Hg & H).
    apply generate_speech_ok_inv in Hg. destruct Hg as [Hcloned [content ->]].
    apply Run.bind_ok_inv in H. destruct H as (adjusted & w2 & Ha & H).
    apply (adjust_ok_inv env cloned t _ _ w2 adjusted Ht) in Ha.
    destruct Ha as [Hadjusted (a & -> & Hlen)].
    apply Run.bind_ok_inv in H. destruct H as (u & w3 & Hr & H).
    destruct (Pipeline.remove_if_exists_spec cloned
                (put_file (put_file w cloned content) adjusted (Wav a)))
      as (w3' & Hr' & _ & Hgone & Hkeep).
    rewrite Hr' in Hr. injection Hr as _ Hw. subst w3. clear Hr'.
    change (cloned = cloned_temp_path env i) in Hcloned.
    change (adjusted = adjusted_temp_path env i) in Hadjusted.
    subst cloned adjusted.
    destruct (IH (S i) _ _ _ _ Hpos H) as (Hpaths & Hdur & Hnone & Hframe).
    assert (Hadj : fs w' !! adjusted_temp_path env i = Some (Wav a)).
    { rewrite Hframe.
      - rewrite Hkeep by apply adjusted_not_cloned. apply lookup_insert_eq.
      - intros k Hk. split.
        + intros E. apply (adjusted_temp_path_inj env Huuid) in E. lia.
        + apply adjusted_not_cloned. }
    split; [|split; [|split]].
    + rewrite Hpaths. simpl. rewrite <- app_assoc. reflexivity.
    + intros [|k] p Hk.
      * simpl in Hk. inversion Hk; subst p. rewrite Nat.add_0_r.
        unfold duration_at. rewrite Hadj, Hlen. reflexivity.
      * rewrite <- Nat.add_succ_comm. apply Hdur. exact Hk.
    + intros [|k] Hk.
      * rewrite Nat.add_0_r. rewrite Hframe; [exact Hgone|].
        intros k Hk'. split.
        -- intros E. symmetry in E. apply adjusted_not_cloned in E. exact E.
        -- intros E. apply (cloned_temp_path_inj env Huuid) in E. lia.
      * rewrite <- Nat.add_succ_comm. apply Hnone. simpl in Hk. lia.
    + intros q Hq. rewrite Hframe by (intros k Hk; apply Hq; lia).
      destruct (Hq i (Nat.le_refl i)) as [Hqa Hqc].
      rewrite Hkeep by exact Hqc. simpl.
      rewrite lookup_insert_ne by congruence.
      rewrite lookup_insert_ne by congruence. reflexivity.
Qed.

Lemma adjusted_total (env : Env) (w : World) (l : list SentenceDict) :
  forall i,
    (forall k s, l !! k = Some s ->
       duration_at w (adjusted_temp_path env (i + k)%nat) = Some (target_ms s)) ->
    total_loaded_ms w (List.map (adjusted_temp_path env) (seq i (length l)))
    = total_target_ms l.
Proof.
  induction l as [|s l IH]; intros i H; [reflexivity|].
  simpl. f_equal.
  - unfold loaded_ms. pose proof (H 0%nat s eq_refl) as H0.
    rewrite Nat.add_0_r in H0. rewrite H0. reflexivity.
  - apply IH. intros k s' Hk. rewrite Nat.add_succ_comm. apply (H (S k) s' Hk).
Qed.

(** X25. The duration of a timestamp-based output: when
    [process_sentences_with_timestamps] returns, the file it wrote lasts
    the sum of the targets of the sentences that survive
    [_filter_empty_spaces], each cut to whole milliseconds; the gaps and
    the filtered sentences contribute nothing. The duration is stated
    within 3 ms per surviving sentence, two for the adjustment of its clip
    and one for the concatenation, and for sentences that are not within a
    millisecond of the threshold of the filter. The synthesised and the
    adjusted clips are gone, and no other file has changed. *)
Theorem timestamp_processing_duration (env : Env)
    (original_audio_path voice_id output_filename : string)
    (sentences : list SentenceDict) (w : World) (p : string)
    (Hclear : forallb clear_of_threshold sentences = true)
    (Huuid : forall i, String.length (uuid_hex8 env i) = 8%nat)
    (Hout : forall k,
       path_join (OUTPUT_DIR env) (output_filename +:+ ".wav")
       <> adjusted_temp_path env k
       /\ path_join (OUTPUT_DIR env) (output_filename +:+ ".wav")
          <> cloned_temp_path env k)
    (Hok : (process_sentences_with_timestamps env original_audio_path sentences
              voice_id output_filename w).1 = Ok p) :
  let kept := _filter_empty_spaces sentences in
  let r := process_sentences_with_timestamps env original_audio_path sentences
             voice_id output_filename w in
  p = path_join (OUTPUT_DIR env) (output_filename +:+ ".wav")
  /\ (exists d,
        duration_at r.2 p = Some d
        /\ (Z.abs (d - total_target_ms kept) <= 3 * Z.of_nat (length kept))%Z)
  /\ (forall k, (k < length kept)%nat ->
        fs r.2 !! adjusted_temp_path env k = None
        /\ fs r.2 !! cloned_temp_path env k = None)
  /\ (forall q, q <> p ->
        (forall k, q <> adjusted_temp_path env k /\ q <> cloned_temp_path env k) ->
        fs r.2 !! q = fs w !! q).
Proof.
  cbv zeta.
  destruct (process_sentences_with_timestamps env original_audio_path sentences
              voice_id output_filename w) as [res w'] eqn:Hrun.
  simpl in Hok. subst res. simpl.
  unfold process_sentences_with_timestamps in Hrun.
  apply Run.try_ok_inv in Hrun.
  destruct Hrun as [Hrun | (e & w1 & _ & Hraise)]; [|discriminate].
  apply Run.bind_ok_inv in Hrun. destruct Hrun as (original & w0 & Hload & Hrun).
  assert (Hw0 : w0 = w).
  { unfold from_file in Hload.
    destruct (fs w !! original_audio_path) as [[a|]|]; inversion Hload; reflexivity. }
  subst w0. cbv zeta in Hrun.
  apply Run.bind_ok_inv in Hrun. destruct Hrun as (paths & w2 & Hloop & Hrun).
  apply Run.bind_ok_inv in Hrun. destruct Hrun as (out & w3 & Hconcat & Hrun).
  apply Run.bind_ok_inv in Hrun. destruct Hrun as (u & w4 & Hclean & Hrun).
  inversion Hrun; subst p w'. clear Hrun.
  set (kept := _filter_empty_spaces sentences) in *.
  assert (Hpos : Forall (fun p : SentenceDict * Q => 0 <= p.2)
                   (_create_continuous_timeline kept)).
  { apply FilterFacts.timeline_targets_nonneg. }
  destruct (process_timeline_ok env voice_id Huuid _ 0 [] w w2 paths Hpos Hloop)
    as (Hpaths & Hdur & Hnone & Hframe).
  assert (Hcount : length (_create_continuous_timeline kept) = length kept).
  { unfold _create_continuous_timeline. apply List.length_map. }
  rewrite Hcount in *. simpl in Hpaths.
  apply concatenate_ok_inv in Hconcat. destruct Hconcat as [-> ->].
  destruct (CleanupFacts.sentence_cleanup_spec paths
              (put_file w2 (path_join (OUTPUT_DIR env) (output_filename +:+ ".wav"))
                 (Wav (concat (List.map (loaded_or_silence (fs w2)) paths)))))
    as (w4' & Hclean' & _ & Hgone & Hkeep).
  rewrite Hclean' in Hclean. injection Hclean as _ Hw. subst w4. clear Hclean'.
  assert (Hin : forall q, In q paths <->
            exists k, (k < length kept)%nat /\ q = adjusted_temp_path env k).
  { intros q. rewrite Hpaths, List.in_map_iff. split.
    - intros (k & <- & Hk). apply List.in_seq in Hk. exists k. split; [lia | reflexivity].
    - intros (k & Hk & ->). exists k. split; [reflexivity|]. apply List.in_seq. lia. }
  assert (Hnot : ~ In (path_join (OUTPUT_DIR env) (output_filename +:+ ".wav")) paths).
  { intros Hc. apply Hin in Hc. destruct Hc as (k & _ & Hc).
    apply (proj1 (Hout k)). exact Hc. }
  split; [reflexivity|]. split; [|split].
  - exists (total_target_ms kept). split; [|lia].
    unfold duration_at. rewrite (Hkeep _ Hnot). simpl. rewrite lookup_insert_eq.
    rewrite TimingFacts.total_loaded_len, Hpaths. f_equal.
    apply adjusted_total. intros k s Hk.
    rewrite (Hdur k (s, d_end_time s - d_start_time s)).
    + reflexivity.
    + unfold _create_continuous_timeline.
      clear -Hk. revert k Hk. induction kept as [|x l IH]; intros [|k] Hk;
        try discriminate; simpl in *; [inversion Hk; reflexivity | apply IH; exact Hk].
  - intros k Hk. split.
    + apply Hgone. apply Hin. exists k. split; [exact Hk | reflexivity].
    + rewrite Hkeep.
      * simpl. rewrite lookup_insert_ne by (apply (proj2 (Hout k))).
        apply (Hnone k Hk).
      * intros Hc. apply Hin in Hc. destruct Hc as (k' & _ & Hc).
        symmetry in Hc. apply adjusted_not_cloned in Hc. exact Hc.
  - intros q Hq Hother. rewrite Hkeep.
    + simpl. rewrite lookup_insert_ne by congruence.
      apply Hframe. intros k _. apply Hother.
    + intros Hc. apply Hin in Hc. destruct Hc as (k & _ & Hc).
      apply (proj1 (Hother k)). exact Hc.
Qed.

Lemma timestamp_processing_duration_witness :
  let env := demo_env [] in
  let kept := _filter_empty_spaces timed_sentences in
  let r := process_sentences_with_timestamps env "uploads/job_in.wav" timed_sentences
             "voice" "job_timestamp_based" demo_upload in
  "outputs/job_timestamp_based.wav"
  = path_join (OUTPUT_DIR env) ("job_timestamp_based" +:+ ".wav")
  /\ (exists d,
        duration_at r.2 "outputs/job_timestamp_based.wav" = Some d
        /\ (Z.abs (d - total_target_ms kept) <= 3 * Z.of_nat (length kept))%Z)
  /\ (forall k, (k < length kept)%nat ->
        fs r.2 !! adjusted_temp_path env k = None
        /\ fs r.2 !! cloned_temp_path env k = None)
  /\ (forall q, q <> "outputs/job_timestamp_based.wav" ->
        (forall k, q <> adjusted_temp_path env k /\ q <> cloned_temp_path env k) ->
        fs r.2 !! q = fs demo_upload !! q).
Proof.
  apply (timestamp_processing_duration (demo_env []) "uploads/job_in.wav" "voice"
           "job_timestamp_based" timed_sentences demo_upload
           "outputs/job_timestamp_based.wav").
  - reflexivity.
  - intros i. reflexivity.
  - intros k. split; intros H;
      unfold adjusted_temp_path, cloned_temp_path, temp_dir, path_join in H;
      simpl in H; discriminate H.
  - vm_compute. reflexivity.
Defined.

End TimestampRun.

(** ** The /analyze-gaps endpoint *)

Module AnalyzeFacts.
Import AnalyzeGaps.

Lemma is_valid_keeps (s : SentenceDict) :
  Py.geb (d_end_time s - d_start_time s) 0.1
  && (Py.len (Py.strip (d_text s)) >=? 2)%Z
  = SentenceProcessor.keeps s.
Proof.
  unfold SentenceProcessor.keeps, Py.geb, Py.leb, Py.ltb.
  destruct (Qle_bool 0.1 (d_end_time s - d_start_time s)); simpl; [|reflexivity].
  rewrite Z.geb_leb.
  destruct (Py.len (Py.strip (d_text s)) <? 2)%Z eqn:E.
  - apply Z.ltb_lt in E. apply Z.leb_gt. exact E.
  - apply Z.ltb_ge in E. apply Z.leb_le. exact E.
Qed.

Lemma sentence_details_loop_spec (l : list SentenceDict) :
  forall i acc,
    List.map is_valid (sentence_details_loop l i acc)
    = List.map is_valid acc ++ List.map SentenceProcessor.keeps l
    /\ List.map index (sentence_details_loop l i acc)
       = List.map index acc ++ seq (i + 1) (length l)
    /\ List.map detail_text (sentence_details_loop l i acc)
       = List.map detail_text acc ++ List.map (fun s => preview (d_text s)) l.
Proof.
  induction l as [|s l IH]; intros i acc.
  - simpl. rewrite !app_nil_r. repeat split.
  - cbn [sentence_details_loop]. cbv zeta.
    destruct (IH (S i)
                (acc ++ [ {| index := (i + 1)%nat;
                             detail_text := preview (d_text s);
                             detail_start_time := d_start_time s;
                             detail_end_time := d_end_time s;
                             duration := d_end_time s - d_start_time s;
                             is_valid :=
                               Py.geb (d_end_time s - d_start_time s) 0.1
                               && (Py.len (Py.strip (d_text s)) >=? 2)%Z |} ]))
      as (Hv & Hi & Ht).
    rewrite Hv, Hi, Ht, !List.map_app. simpl.
    rewrite is_valid_keeps, <- !app_assoc. simpl.
    replace (S i + 1)%nat with (S (i + 1)) by lia. repeat split.
Qed.

Lemma preview_length (t : string) : (String.length (preview t) <= 103)%nat.
Proof.
  unfold preview, Py.len.
  destruct (Z.of_nat (String.length t) >? 100)%Z eqn:E.
  - rewrite Paths.length_append.
    assert (H : forall n (u : string),
              (String.length (String.substring 0 n u) <= n)%nat).
    { induction n as [|n IH]; intros u; destruct u as [|c u]; simpl; try lia.
      specialize (IH u). lia. }
    specialize (H 100%nat t). simpl. lia.
  - rewrite Z.gtb_ltb in E. apply Z.ltb_ge in E. lia.
Qed.

(** X26. The body of the /analyze-gaps endpoint. Whatever the
    transcription does, the saved upload is removed and nothing else
    changes. When the transcription returns, the report holds the gap
    analysis of its sentences and one detail per sentence, numbered from
    1, each with a text of at most 103 characters, whose [is_valid] flag
    is exactly the decision of [_filter_empty_spaces] on that sentence;
    when it raises, the same exception is raised again. *)
Theorem analyze_gaps_report (env : Env) (temp_path : string) (w : World) :
  let r := analyze_audio_gaps_body env temp_path w in
  fs r.2 = delete temp_path (fs w)
  /\ only_files_changed w r.2
  /\ match transcribe_audio env temp_path with
     | Ok transcribed =>
         exists report,
           r.1 = Ok report
           /\ analysis report
              = SentenceProcessor.analyze_sentence_gaps (List.map to_dict transcribed)
           /\ List.map is_valid (sentences report)
              = List.map SentenceProcessor.keeps (List.map to_dict transcribed)
           /\ List.map index (sentences report) = seq 1 (length transcribed)
           /\ Forall (fun d => (String.length (detail_text d) <= 103)%nat)
                (sentences report)
     | Raise e => r.1 = Raise e
     end.
Proof.
  cbv zeta.
  assert (Hremove : forall w0,
            remove_if_exists temp_path w0
            = (Ok tt, {| fs := delete temp_path (fs w0); job := job w0;
                         temp_files := temp_files w0;
                         progress_log := progress_log w0 |})).
  { intros w0. unfold remove_if_exists, mbind, M_bind, path_exists.
    destruct (bool_decide (is_Some (fs w0 !! temp_path))) eqn:E; [reflexivity|].
    apply bool_decide_eq_false in E. apply eq_None_not_Some in E.
    rewrite (delete_id _ _ E). destruct w0; reflexivity. }
  destruct (transcribe_audio env temp_path) as [transcribed|e] eqn:Htr.
  - assert (Hrun : analyze_audio_gaps_body env temp_path w
                   = (Ok {| analysis :=
                              SentenceProcessor.analyze_sentence_gaps
                                (List.map to_dict transcribed);
                            sentences :=
                              sentence_details_loop (List.map to_dict transcribed) 0 [];
                            use_timestamp_based :=
                              Py.gtb (SentenceProcessor.total_gap_time
                                        (SentenceProcessor.analyze_sentence_gaps
                                           (List.map to_dict transcribed))) 1 |},
                      {| fs := delete temp_path (fs w); job := job w;
                         temp_files := temp_files w;
                         progress_log := progress_log w |})).
    { unfold analyze_audio_gaps_body. apply Run.try_ok.
      erewrite Run.bind_ok; [|unfold Main.transcribe; rewrite Htr; reflexivity].
      cbv zeta. erewrite Run.bind_ok; [|apply Hremove]. reflexivity. }
    rewrite Hrun. simpl. split; [reflexivity|]. split; [repeat split|].
    eexists. split; [reflexivity|]. simpl.
    destruct (sentence_details_loop_spec (List.map to_dict transcribed) 0 [])
      as (Hv & Hi & Ht).
    split; [reflexivity|]. split; [exact Hv|]. split.
    + rewrite Hi. simpl. rewrite List.length_map. reflexivity.
    + apply List.Forall_forall. intros d Hd.
      assert (Hin : In (detail_text d)
                      (List.map detail_text
                         (sentence_details_loop (List.map to_dict transcribed) 0 [])))
        by (apply List.in_map; exact Hd).
      rewrite Ht in Hin. simpl in Hin. apply List.in_map_iff in Hin.
      destruct Hin as (s & <- & _). apply preview_length.
  - assert (Hrun : analyze_audio_gaps_body env temp_path w
                   = (Raise e,
                      {| fs := delete temp_path (fs w); job := job w;
                         temp_files := temp_files w;
                         progress_log := progress_log w |})).
    { unfold analyze_audio_gaps_body.
      erewrite Run.try_raise;
        [|apply Run.bind_raise; unfold Main.transcribe; rewrite Htr; reflexivity].
      erewrite Run.bind_ok; [|apply Hremove]. reflexivity. }
    rewrite Hrun. simpl. split; [reflexivity|]. split; [repeat split | reflexivity].
Qed.

End AnalyzeFacts.

(** ** Parsing a transcription *)

Module GladiaFacts.
Import GladiaService.

Lemma nonempty_true (s : string) : nonempty s = true <-> s <> "".
Proof. destruct s; simpl; split; intros H; congruence. Qed.

Lemma sentences_loop_filter (l : list SentenceData) :
  forall acc,
    sentences_loop l acc
    = acc ++ List.filter (fun s => nonempty (text s)) (List.map sentence_of_data l).
Proof.
  induction l as [|d l IH]; intros acc; [simpl; rewrite app_nil_r; reflexivity|].
  cbn [sentences_loop List.map List.filter]. cbv zeta.
  change (text (sentence_of_data d))
    with (Py.strip (default "" (sd_sentence d))).
  cbn [text].
  destruct (nonempty (Py.strip (default "" (sd_sentence d)))); rewrite IH.
  - rewrite <- app_assoc. reflexivity.
  - reflexivity.
Qed.

Lemma utterances_loop_filter (us : list Utterance) :
  forall acc,
    utterances_loop us acc
    = acc ++ List.filter (fun s => nonempty (text s))
               (List.map sentence_of_data (all_sentence_data us)).
Proof.
  induction us as [|u us IH]; intros acc; simpl.
  - rewrite app_nil_r. reflexivity.
  - rewrite IH, sentences_loop_filter. unfold all_sentence_data. simpl.
    rewrite List.map_app, List.filter_app, <- app_assoc. reflexivity.
Qed.

Lemma words_loop_text (words : list WordData) :
  forall current start acc,
    Forall (fun s => text s <> "") acc ->
    Forall (fun s => text s <> "") (words_loop words current start acc).1.1.
Proof.
  induction words as [|wd words IH]; intros current start acc Hacc; [exact Hacc|].
  cbn [words_loop]. cbv zeta.
  destruct (endswith_punctuation _ || _); [|apply IH; exact Hacc].
  apply IH.
  destruct (nonempty (Py.strip (String.concat " " (current ++ [_])))) eqn:E;
    [|exact Hacc].
  apply List.Forall_app. split; [exact Hacc|]. constructor; [|constructor].
  simpl. apply nonempty_true. exact E.
Qed.

Lemma extract_loop_text (us : list Utterance) :
  forall acc,
    Forall (fun s => text s <> "") acc ->
    Forall (fun s => text s <> "") (_extract_sentences_from_words_loop us acc).
Proof.
  induction us as [|u us IH]; intros acc Hacc; [exact Hacc|].
  cbn [_extract_sentences_from_words_loop]. cbv zeta.
  destruct (default [] (u_words u)) as [|wd words] eqn:Hw; [apply IH; exact Hacc|].
  pose proof (words_loop_text (wd :: words) [] None acc Hacc) as Hloop.
  destruct (words_loop (wd :: words) [] None acc) as [[sentences current] start].
  simpl in Hloop. apply IH.
  destruct current as [|c current]; [exact Hloop|].
  destruct (nonempty (Py.strip (String.concat " " (c :: current)))) eqn:E;
    [|exact Hloop].
  apply List.Forall_app. split; [exact Hloop|]. constructor; [|constructor].
  simpl. apply nonempty_true. exact E.
Qed.

(** X27. What the parser hands to the pipeline. No sentence has an
    empty text, whichever way it was built. The sentence-level entries
    of the response come first: when one of them has text, the result is
    those with text, trimmed, in the order of the response and with the
    times and the confidence of their entry; only when none has text are
    sentences rebuilt from the words. *)
Theorem parsed_sentences_have_text (response : Response) :
  let direct :=
    List.filter (fun s => nonempty (text s))
      (List.map sentence_of_data (all_sentence_data (utterances_of response))) in
  Forall (fun s => text s <> "") (tr_sentences (_parse_transcription_result response))
  /\ (direct <> [] -> tr_sentences (_parse_transcription_result response) = direct)
  /\ (direct = [] ->
      tr_sentences (_parse_transcription_result response)
      = _extract_sentences_from_words (utterances_of response)).
Proof.
  cbv zeta.
  assert (Hus : default []
                  (utterances
                     (default {| full_transcript := None; utterances := None |}
                        (transcription
                           (default {| transcription := None; metadata := None |}
                              (result response)))))
                = utterances_of response).
  { unfold utterances_of. destruct (result response) as [body|]; [|reflexivity].
    simpl. destruct (transcription body) as [t|]; reflexivity. }
  unfold _parse_transcription_result. cbv zeta. cbn [tr_sentences].
  rewrite Hus, utterances_loop_filter. simpl app.
  set (direct := List.filter (fun s => nonempty (text s))
                   (List.map sentence_of_data
                      (all_sentence_data (utterances_of response)))).
  assert (Hdirect : Forall (fun s => text s <> "") direct).
  { apply List.Forall_forall. intros s Hs. apply List.filter_In in Hs.
    apply nonempty_true. tauto. }
  destruct direct as [|d direct'] eqn:Hd.
  - destruct (utterances_of response) as [|u us] eqn:Hu.
    + split; [constructor|]. split; [congruence | reflexivity].
    + split; [apply extract_loop_text; constructor|].
      split; [congruence | reflexivity].
  - split; [exact Hdirect|]. split; [reflexivity | discriminate].
Qed.

End GladiaFacts.

(** ** Voice settings and required settings *)

Module SettingsFacts.
Import VoiceSettings.

Lemma clamp_range (x : Q) : 0 <= py_max 0 (py_min 1 x) /\ py_max 0 (py_min 1 x) <= 1.
Proof.
  unfold py_max, py_min.
  destruct (Py.ltb x 1) eqn:E1.
  - apply ltb_true in E1. destruct (Py.gtb x 0) eqn:E2.
    + apply gtb_true in E2. split; lra.
    + split; lra.
  - destruct (Py.gtb 1 0) eqn:E2; split; lra.
Qed.

Lemma clamp_idempotent (x : Q) :
  py_max 0 (py_min 1 (py_max 0 (py_min 1 x))) = py_max 0 (py_min 1 x).
Proof.
  unfold py_max, py_min.
  destruct (Py.ltb x 1) eqn:E1.
  - destruct (Py.gtb x 0) eqn:E2.
    + rewrite E1, E2. reflexivity.
    + reflexivity.
  - reflexivity.
Qed.

(** X28. [validate_voice_settings] always returns settings the API
    accepts: stability, similarity boost and style lie between 0 and 1
    whatever the caller passed, a key that is absent keeps its default,
    and validating validated settings changes nothing. *)
Theorem validated_settings_in_range (voice_settings : option Given) :
  let v := validate_voice_settings voice_settings in
  (0 <= stability v /\ stability v <= 1)
  /\ (0 <= similarity_boost v /\ similarity_boost v <= 1)
  /\ (0 <= style v /\ style v <= 1)
  /\ validate_voice_settings (Some (given_again v)) = v
  /\ validate_voice_settings
       (Some {| given_stability := None; given_similarity_boost := None;
                given_style := None; given_use_speaker_boost := None |})
     = validate_voice_settings None.
Proof.
  cbv zeta.
  assert (Hdefault : forall x, x = 0.5 \/ x = 0.8 \/ x = 0 -> 0 <= x /\ x <= 1).
  { intros x [H | [H | H]]; subst x; split; apply Qle_bool_iff; reflexivity. }
  destruct voice_settings as [[s b y u]|].
  - unfold validate_voice_settings, given_again. cbv zeta.
    destruct s as [xs|], b as [xb|], y as [xy|], u as [xu|]; simpl;
      (split; [|split; [|split; [|split]]]);
      first [ apply clamp_range
            | apply Hdefault; auto
            | rewrite ?clamp_idempotent; reflexivity ].
  - unfold validate_voice_settings, given_again. simpl.
    split; [|split; [|split; [|split]]];
      try (apply Hdefault; auto); reflexivity.
Qed.

(** X29. [validate_settings] returns [True] exactly when the three
    required settings are non-empty; otherwise it raises a [ValueError]
    whose message lists the missing ones, in the order GLADIA_API_KEY,
    ELEVENLABS_API_KEY, ELEVENLABS_VOICE_ID. *)
Theorem validate_settings_reports_missing (settings : Config.Settings) :
  let missing :=
    List.map fst
      (List.filter
         (fun f : string * (Config.Settings -> string) =>
            negb (GladiaService.nonempty (f.2 settings)))
         Config.required_fields) in
  (Config.validate_settings settings = Ok true
   <-> Config.GLADIA_API_KEY settings <> ""
       /\ Config.ELEVENLABS_API_KEY settings <> ""
       /\ Config.ELEVENLABS_VOICE_ID settings <> "")
  /\ (missing <> [] ->
      Config.validate_settings settings
      = Raise (ValueError ("Missing required environment variables: "
                           +:+ String.concat ", " missing))).
Proof.
  cbv zeta. destruct settings as [g e v].
  unfold Config.validate_settings, Config.required_fields. simpl.
  destruct g as [|cg g], e as [|ce e], v as [|cv v]; simpl; split;
    try (split; [intros H; discriminate H | intros (H1 & H2 & H3); congruence]);
    try (intros _; reflexivity);
    try (split; [intros _; repeat split; discriminate | reflexivity]);
    try (intros H; congruence).
Qed.

End SettingsFacts.

(** ** The same-length timeline *)

Module SameLengthFacts.
Import SameLengthVoiceConverter.

Lemma keeps_world_bind {A B : Type} (c : M A) (k : A -> M B) :
  (forall w, (c w).2 = w) -> (forall a w, (k a w).2 = w) ->
  forall w, ((c ≫= k) w).2 = w.
Proof.
  intros Hc Hk w. unfold mbind, M_bind.
  specialize (Hc w). destruct (c w) as [[a|e] w1]; simpl in Hc; subst w1.
  - apply Hk.
  - reflexivity.
Qed.

Lemma py_div_world (x y : Q) (w : World) : (py_div x y w).2 = w.
Proof. unfold py_div. destruct (Py.eqb y 0); reflexivity. Qed.

Lemma py_truediv_world (a b : Z) (w : World) : (py_truediv a b w).2 = w.
Proof. unfold py_truediv. destruct (b =? 0)%Z; reflexivity. Qed.

Lemma from_file_world (path : string) (w : World) : (from_file path w).2 = w.
Proof. unfold from_file. destruct (fs w !! path) as [[a|]|]; reflexivity. Qed.

Lemma speedup_by_world (env : Env) (a : AudioSegment.t) (f : Q) (w : World) :
  (speedup_by env a f w).2 = w.
Proof.
  unfold speedup_by. apply keeps_world_bind; [apply py_div_world|].
  intros speed w0. destruct (speedup env a speed); reflexivity.
Qed.

Lemma adjust_sentence_world (env : Env) (a : AudioSegment.t) (d e : Q) (w : World) :
  (adjust_sentence env a d e w).2 = w.
Proof.
  unfold adjust_sentence. cbv zeta.
  destruct (_ >? _)%Z.
  - apply keeps_world_bind; [apply py_truediv_world|].
    intros f w0. destruct (Py.leb f 2); [apply speedup_by_world | reflexivity].
  - destruct (_ <? _)%Z; [|reflexivity].
    apply keeps_world_bind; [apply py_truediv_world|].
    intros f w0. destruct (Py.geb f 0.5); [apply speedup_by_world | reflexivity].
Qed.

Lemma sentence_weights_world (l : list Q) (total : Q) (w : World) :
  (sentence_weights l total w).2 = w.
Proof.
  revert w. induction l as [|d l IH]; intros w; [reflexivity|].
  simpl. apply keeps_world_bind; [apply py_div_world|].
  intros x w0. apply keeps_world_bind; [exact IH | reflexivity].
Qed.

Lemma same_length_loop_world (env : Env) (files : list string) :
  forall (durations extras : list Q) (final_audio : AudioSegment.t) (w : World),
    (same_length_loop env files durations extras final_audio w).2 = w.
Proof.
  induction files as [|f files IH]; intros durations extras final_audio w;
    [reflexivity|].
  destruct durations as [|d durations]; [reflexivity|].
  destruct extras as [|e extras]; [reflexivity|].
  cbn [same_length_loop].
  apply keeps_world_bind; [apply from_file_world|].
  intros a w0. apply keeps_world_bind; [apply adjust_sentence_world|].
  intros b w1. apply IH.
Qed.

(** The fine-tuning at the end leaves at most 100 ms of difference. *)
Lemma fine_tuning (final_audio : AudioSegment.t) (target_duration_ms : Z) :
  (0 <= target_duration_ms)%Z ->
  (Z.abs
     (AudioSegment.len
        (if (Z.abs (AudioSegment.len final_audio - target_duration_ms) >? 100)%Z then
           if (AudioSegment.len final_audio <? target_duration_ms)%Z then
             AudioSegment.add final_audio
               (AudioSegment.silent (target_duration_ms - AudioSegment.len final_audio))
           else if (AudioSegment.len final_audio >? target_duration_ms)%Z then
             AudioSegment.slice_to final_audio target_duration_ms
           else final_audio
         else final_audio)
      - target_duration_ms) <= 100)%Z.
Proof.
  intros Htarget.
  destruct (Z.abs (AudioSegment.len final_audio - target_duration_ms) >? 100)%Z eqn:E.
  - destruct (AudioSegment.len final_audio <? target_duration_ms)%Z eqn:E1.
    + apply Z.ltb_lt in E1. rewrite Timing.len_add, Timing.len_silent. lia.
    + apply Z.ltb_ge in E1.
      destruct (AudioSegment.len final_audio >? target_duration_ms)%Z eqn:E2.
      * apply Z.gtb_lt in E2. rewrite Timing.len_slice_to by lia. lia.
      * rewrite Z.gtb_ltb in E2. apply Z.ltb_ge in E2. lia.
  - rewrite Z.gtb_ltb in E. apply Z.ltb_ge in E. exact E.
Qed.



End SameLengthFacts.

(** ** The files a completed job leaves behind *)

Module OriginalModeFiles.
Import Main.

#[local] Arguments String.append !_ _ / : simpl nomatch.

Lemma sentence_not_final (env : Env) (j : string) (k : nat) :
  sentence_path env j k <> final_path env j.
Proof.
  unfold sentence_path, final_path. intros H.
  apply Paths.wav_path_inj in H. discriminate H.
Qed.

Lemma prefix_append (a x y : string) :
  String.prefix (a +:+ x) (a +:+ y) = String.prefix x y.
Proof.
  induction a as [|c a IH]; simpl; [reflexivity|].
  destruct (ascii_dec c c) as [_|Hne]; [exact IH | contradiction].
Qed.

(** A cloned clip is not matched by [<job_id>_temp_*] in the output
    directory. *)
Lemma sentence_path_not_globbed (env : Env) (j : string) (k : nat) :
  glob_temp_matches (OUTPUT_DIR env) j (sentence_path env j k) = false.
Proof.
  unfold glob_temp_matches, sentence_path, path_join.
  rewrite prefix_append.
  change ("/" +:+ j +:+ "_temp_") with (String "/" (j +:+ "_temp_")).
  change ("/" +:+ (j +:+ "_sentence_" +:+ str_nat k) +:+ ".wav")
    with (String "/" ((j +:+ "_sentence_" +:+ str_nat k) +:+ ".wav")).
  cbn [String.prefix]. destruct (ascii_dec "/" "/") as [_|Hne]; [|contradiction].
  rewrite TimestampRun.append_assoc, prefix_append. reflexivity.
Qed.

(** The loop of the original mode leaves both files of every sentence:
    the cloned clip and the matched clip. *)
Lemma original_loop_files (env : Env) (voice j : string) (n : nat)
    (clip : nat -> AudioSegment.t) (rest : list AudioSentence) :
  forall (i : nat) (chunks : list string) (w : World),
    (forall k s, rest !! k = Some s ->
       text_to_speech env (text s) voice (j +:+ "_sentence_" +:+ str_nat (i + k)%nat)
         = Ok (Wav (clip (i + k)%nat))
       /\ AudioSegment.len (clip (i + k)%nat) <> 0%Z) ->
    exists w',
      original_loop env rest i n voice j chunks w =
        (Ok (chunks ++ List.map (matched_path env j) (seq i (length rest))), w')
      /\ (forall k, (k < length rest)%nat ->
            fs w' !! sentence_path env j (i + k)%nat = Some (Wav (clip (i + k)%nat))).
Proof.
  induction rest as [|s rest IH]; intros i chunks w Hsynth.
  - exists w. simpl. rewrite app_nil_r. split; [reflexivity|]. intros k H. lia.
  - destruct (Hsynth 0%nat s eq_refl) as [Htts Hlen].
    rewrite Nat.add_0_r in Htts, Hlen.
    cbn [original_loop].
    erewrite Run.bind_ok; [|reflexivity].
    erewrite Run.bind_ok; [|reflexivity].
    erewrite Run.bind_ok; [|apply Pipeline.generate_speech_ok; exact Htts].
    erewrite Run.bind_ok;
      [|apply (Timing.match_timing_loaded env _ _ (clip i));
        [apply lookup_insert_eq | exact Hlen]].
    match goal with
    | |- context [original_loop env rest (S i) n voice j ?c ?w1] =>
        destruct (IH (S i) c w1) as (w' & Hrun & Hfiles);
        [|destruct (Pipeline.original_loop_spec env voice j n clip rest (S i) c w1)
            as (w'' & Hrun' & _ & Hframe)]
    end.
    { intros k s' Hk. rewrite Nat.add_succ_comm. apply (Hsynth (S k) s' Hk). }
    { intros k s' Hk. rewrite Nat.add_succ_comm. apply (Hsynth (S k) s' Hk). }
    rewrite Hrun in Hrun'. injection Hrun' as <-.
    exists w'. split.
    + rewrite Hrun. simpl. rewrite <- app_assoc. reflexivity.
    + intros [|k] Hk.
      * rewrite Nat.add_0_r. rewrite Hframe.
        -- simpl. rewrite lookup_insert_ne
             by (intros E; symmetry in E; apply Paths.sentence_not_matched in E; exact E).
           apply lookup_insert_eq.
        -- intros k Hle. split.
           ++ apply Paths.sentence_not_matched.
           ++ intros E. apply Paths.sentence_path_inj in E. lia.
      * rewrite <- Nat.add_succ_comm. apply Hfiles. simpl in Hk. lia.
Qed.

Lemma process_audio_file_cleanup (env : Env) (jid input voice : string)
    (continuous same_length timestamp_based continuous_with_spaces : option string)
    (w w1 : World) (out : string) (chunks : list string) :
  run_mode env jid input voice
    continuous same_length timestamp_based continuous_with_spaces w
  = (Ok (out, chunks), w1) ->
  exists w7,
    fs w7 = fs w1
    /\ process_audio_file env jid input voice
         continuous same_length timestamp_based continuous_with_spaces w
       = cleanup_temp_files env jid input chunks out w7.
Proof.
  intros Hrun. unfold process_audio_file.
  match goal with
  | |- exists _, _ /\ try_except (_ ≫= ?k) _ _ = _ =>
      assert (Hk : exists w7, fs w7 = fs w1
                /\ k (out, chunks) w1 = cleanup_temp_files env jid input chunks out w7)
  end.
  { cbv beta iota. eexists. split; cycle 1.
    - erewrite Run.bind_ok; [|reflexivity].
      erewrite Run.bind_ok; [|reflexivity].
      erewrite Run.bind_ok; [|reflexivity].
      erewrite Run.bind_ok; [|reflexivity].
      erewrite Run.bind_ok; [|reflexivity].
      erewrite Run.bind_ok; [|reflexivity].
      reflexivity.
    - reflexivity. }
  destruct Hk as (w7 & Hfs & Hk). exists w7. split; [exact Hfs|].
  destruct (Pipeline.cleanup_spec env jid input chunks out w7) as (w8 & Hclean & _).
  rewrite Hclean. apply Run.try_ok.
  erewrite Run.bind_ok; [|exact Hrun].
  etransitivity; [exact Hk | exact Hclean].
Qed.

(** What the clean-up does to a path, from the files before it. *)
Lemma cleanup_lookup (env : Env) (jid input : string) (chunks : list string)
    (out : string) (w : World) (q : string) :
  (q = input \/ In q chunks ->
   fs (cleanup_temp_files env jid input chunks out w).2 !! q = None)
  /\ (q <> input -> ~ In q chunks ->
      glob_temp_matches (UPLOAD_DIR env) jid q = false ->
      glob_temp_matches (OUTPUT_DIR env) jid q = false ->
      fs (cleanup_temp_files env jid input chunks out w).2 !! q = fs w !! q).
Proof.
  destruct (Pipeline.remove_if_exists_spec input w)
    as (w1 & R1 & _ & G1 & K1).
  destruct (CleanupFacts.remove_chunks_full chunks w1) as (w2 & R2 & _ & G2 & K2).
  assert (Hrun : cleanup_temp_files env jid input chunks out w
                 = (Ok tt, (unlink_globbed (OUTPUT_DIR env) jid out
                              (unlink_globbed (UPLOAD_DIR env) jid out w2).2).2)).
  { unfold cleanup_temp_files. apply Run.try_ok.
    erewrite Run.bind_ok; [|exact R1].
    erewrite Run.bind_ok; [|exact R2].
    erewrite Run.bind_ok; [|reflexivity]. reflexivity. }
  rewrite Hrun. cbn [snd]. rewrite !CleanupFacts.unlink_globbed_lookup. split.
  - intros Hq.
    assert (Hgone : fs w2 !! q = None).
    { destruct (in_dec String.string_dec q chunks) as [Hin|Hout].
      - apply (G2 q Hin).
      - destruct Hq as [->|Hin]; [|contradiction].
        rewrite (K2 input Hout). exact G1. }
    rewrite Hgone.
    destruct (_ && _); [reflexivity|]. destruct (_ && _); reflexivity.
  - intros Hq Hnot Hu Ho. rewrite Hu, Ho. simpl.
    rewrite (K2 q Hnot). apply K1. exact Hq.
Qed.

(** The original mode up to the concatenation: the cloned clips are all
    still there when the run hands over to the clean-up. *)
Lemma run_mode_original_files (env : Env) (jid input voice : string)
    (continuous same_length timestamp_based continuous_with_spaces : option string)
    (sentences : list AudioSentence) (clip : nat -> AudioSegment.t) (w : World) :
  is_true continuous = false -> is_true same_length = false ->
  is_true timestamp_based = false -> is_true continuous_with_spaces = false ->
  transcribe_audio env input = Ok sentences ->
  (forall k s, sentences !! k = Some s ->
     text_to_speech env (text s) voice (jid +:+ "_sentence_" +:+ str_nat k)
       = Ok (Wav (clip k))
     /\ AudioSegment.len (clip k) <> 0%Z
     /\ start_time s <= end_time s) ->
  (0 < slots_ms sentences)%Z ->
  exists w',
    run_mode env jid input voice
      continuous same_length timestamp_based continuous_with_spaces w
    = (Ok (final_path env jid,
           List.map (matched_path env jid) (seq 0 (length sentences))), w')
    /\ (forall k, (k < length sentences)%nat ->
          fs w' !! sentence_path env jid k = Some (Wav (clip k)))
    /\ (forall q, q <> final_path env jid ->
          (forall k, q <> matched_path env jid k /\ q <> sentence_path env jid k) ->
          fs w' !! q = fs w !! q).
Proof.
  intros Hc Hsl Hts Hcws Htr Hsynth Hsome.
  unfold run_mode. cbv zeta. rewrite Hc, Hsl, Hts, Hcws.
  Pipeline.step. Pipeline.step. Pipeline.step.
  erewrite Run.bind_ok; [|unfold transcribe; rewrite Htr; reflexivity].
  Pipeline.step. Pipeline.step.
  assert (Hsynth' : forall k s, sentences !! k = Some s ->
            text_to_speech env (text s) voice (jid +:+ "_sentence_" +:+ str_nat (0 + k)%nat)
              = Ok (Wav (clip (0 + k)%nat))
            /\ AudioSegment.len (clip (0 + k)%nat) <> 0%Z).
  { intros k s Hk. destruct (Hsynth k s Hk) as (H1 & H2 & _). split; assumption. }
  match goal with
  | |- exists _, (_ ≫= _) ?w1 = _ /\ _ =>
      destruct (Pipeline.original_loop_spec env voice jid (length sentences) clip
                  sentences 0 [] w1 Hsynth')
        as (w2 & Hloop & Hfiles & Hframe);
      destruct (original_loop_files env voice jid (length sentences) clip
                  sentences 0 [] w1 Hsynth')
        as (w2' & Hloop' & Hclips)
  end.
  rewrite Hloop in Hloop'. injection Hloop' as <-.
  erewrite Run.bind_ok; [|exact Hloop].
  Pipeline.step. Pipeline.step.
  simpl app.
  assert (Hlen :
    AudioSegment.len
      (concat (List.map (loaded_or_silence (fs w2))
                 (List.map (matched_path env jid) (seq 0 (length sentences)))))
    = slots_ms sentences).
  { apply Pipeline.matched_total_len. intros k s Hk.
    eexists. split; [apply (Hfiles k s Hk)|].
    destruct (Hsynth k s Hk) as (_ & _ & Hle).
    apply (Timing.len_timing_matched env _ _ _ Hle). }
  erewrite Run.bind_ok.
  2:{ apply Concatenation.concatenate_audio_ok.
      - destruct sentences; [simpl in Hsome; lia | discriminate].
      - Pipeline.tidy. rewrite Hlen. lia. }
  Pipeline.tidy. eexists. split; [reflexivity|]. split.
  - intros k Hk. simpl.
    rewrite lookup_insert_ne
      by (intros E; symmetry in E; apply sentence_not_final in E; exact E).
    apply (Hclips k Hk).
  - intros q Hq Hother. simpl.
    rewrite lookup_insert_ne by (intros E; apply Hq; symmetry; exact E).
    rewrite Hframe; [reflexivity|]. intros k _. apply Hother.
Qed.



End OriginalModeFiles.
